(** * Workplace-safety dashboard: metric aggregation and cross-filtering

    A shallow embedding of [src/data.py] (metric functions, filter engine,
    view preparers, the module-level score table and its statistics) and of
    the click handlers of [application.py], together with the properties
    the specification states about them.

    Conventions of the embedding.
    - A pandas [DataFrame] of incident records is a list of rows in frame
      order; each row carries its index label.  A text column is either a
      plain string column or a categorical one with declared levels, which
      is what the [observed=] argument of [groupby] looks at.
    - Numeric input columns hold rationals (no missing values in the
      columns that are read).  Derived values are [float64]: a rational or
      one of the IEEE special values [+inf], [-inf], [NaN], which is where
      division by zero and unmatched left joins end up in numpy/pandas.
      Finite arithmetic is exact: rounding and overflow are not modelled.
    - Dates are integers (already parsed), times are rationals.
    - A Python exception is [None] in an [option] result, or a [Raise]
      outcome for the callbacks.
    - The memoised wrappers of [application.py] ([filter_data_cached] and
      the like) are the functions they wrap: every call is a cache miss. *)

From Stdlib Require Import List String Ascii ZArith QArith Qround Bool Lia Lqa.
From Stdlib Require Import FinFun Sorted.
Import ListNotations.

Local Open Scope string_scope.
Local Open Scope Z_scope.
Local Open Scope Q_scope.

Set Implicit Arguments.

(* ================================================================== *)
(** * Floating-point values with IEEE special cases *)
(* ================================================================== *)

Inductive float64 : Type :=
| Fin (q : Q)
| PInf
| NInf
| NaN.

Definition Qlt_bool (a b : Q) : bool := negb (Qle_bool b a).

Definition fneg (x : float64) : float64 :=
  match x with
  | Fin q => Fin (- q)
  | PInf => NInf
  | NInf => PInf
  | NaN => NaN
  end.

Definition fadd (x y : float64) : float64 :=
  match x, y with
  | NaN, _ | _, NaN => NaN
  | Fin a, Fin b => Fin (a + b)
  | PInf, NInf | NInf, PInf => NaN
  | PInf, _ | _, PInf => PInf
  | NInf, _ | _, NInf => NInf
  end.

Definition fsub (x y : float64) : float64 := fadd x (fneg y).

(** [inf * q]: the sign of [q] decides, [inf * 0] is [NaN]. *)
Definition inf_times (pos : bool) (q : Q) : float64 :=
  match (Qnum q ?= 0)%Z with
  | Eq => NaN
  | Gt => if pos then PInf else NInf
  | Lt => if pos then NInf else PInf
  end.

Definition fmul (x y : float64) : float64 :=
  match x, y with
  | NaN, _ | _, NaN => NaN
  | Fin a, Fin b => Fin (a * b)
  | PInf, Fin b | Fin b, PInf => inf_times true b
  | NInf, Fin b | Fin b, NInf => inf_times false b
  | PInf, PInf | NInf, NInf => PInf
  | PInf, NInf | NInf, PInf => NInf
  end.

(** Division as numpy does it on arrays: no exception, [x/0] is a signed
    infinity, [0/0] is [NaN]. *)
Definition fdiv (x y : float64) : float64 :=
  match x, y with
  | NaN, _ | _, NaN => NaN
  | Fin a, Fin b =>
      if Qeq_bool b 0 then
        match (Qnum a ?= 0)%Z with
        | Eq => NaN
        | Gt => PInf
        | Lt => NInf
        end
      else Fin (a / b)
  | Fin _, PInf | Fin _, NInf => Fin 0
  | PInf, Fin b => if Qle_bool 0 b then PInf else NInf
  | NInf, Fin b => if Qle_bool 0 b then NInf else PInf
  | _, _ => NaN
  end.

(** [x > y]; every comparison with [NaN] is false. *)
Definition fgtb (x y : float64) : bool :=
  match x, y with
  | Fin a, Fin b => Qlt_bool b a
  | PInf, Fin _ | PInf, NInf | Fin _, NInf => true
  | _, _ => false
  end.

Definition is_nan (x : float64) : bool :=
  match x with NaN => true | _ => false end.

Definition is_finite (x : float64) : bool :=
  match x with Fin _ => true | _ => false end.

(** Finite and [>= 0]. *)
Definition finite_nonneg (x : float64) : bool :=
  match x with Fin q => Qle_bool 0 q | _ => false end.

(** Equality of float values up to the representation of the rational. *)
Definition feqb (x y : float64) : bool :=
  match x, y with
  | Fin a, Fin b => Qeq_bool a b
  | PInf, PInf | NInf, NInf | NaN, NaN => true
  | _, _ => false
  end.

Definition Qsum (l : list Q) : Q := fold_right Qplus 0 l.

(** The length of a list, as a rational. *)
Definition Qcount {A} (l : list A) : Q := inject_Z (Z.of_nat (List.length l)).

(** A missing cell after a left join reads as [NaN]. *)
Definition of_cell (c : option Q) : float64 :=
  match c with Some q => Fin q | None => NaN end.

(** [Series.sum/min/max/mean] skip [NaN]. *)
Definition dropna (l : list float64) : list float64 :=
  filter (fun x => negb (is_nan x)) l.

Definition fsum (l : list float64) : float64 := fold_left fadd l (Fin 0).

Definition fmin2 (x y : float64) : float64 := if fgtb x y then y else x.
Definition fmax2 (x y : float64) : float64 := if fgtb y x then y else x.

Definition series_min (l : list float64) : float64 :=
  match dropna l with
  | [] => NaN
  | x :: xs => fold_left fmin2 xs x
  end.

Definition series_max (l : list float64) : float64 :=
  match dropna l with
  | [] => NaN
  | x :: xs => fold_left fmax2 xs x
  end.

Definition series_mean (l : list float64) : float64 :=
  match dropna l with
  | [] => NaN
  | xs => fdiv (fsum xs) (Fin (Qcount xs))
  end.

(* ================================================================== *)
(** * Incident records and data frames *)
(* ================================================================== *)

Record Incident : Type := {
  index : nat;
  state_code : string;
  company_name : string;
  date_of_incident : Z;
  type_of_incident : string;
  time_started_work : Q;
  time_of_incident : Q;
  establishment_type : string;
  incident_outcome : string;
  soc_description_1 : string;
  soc_description_2 : string;
  naics_description_5 : string;
  death : Q;
  dafw_num_away : Q;
  djtr_num_tr : Q;
  case_number : Z;
  annual_average_employees : Q;
  total_hours_worked : Q
}.

(** The text columns a frame can be grouped by. *)
Inductive Col : Type :=
| col_state_code
| col_company_name
| col_type_of_incident
| col_establishment_type
| col_incident_outcome
| col_soc_description_1
| col_soc_description_2
| col_naics_description_5.

Definition all_cols : list Col :=
  [col_state_code; col_company_name; col_type_of_incident;
   col_establishment_type; col_incident_outcome; col_soc_description_1;
   col_soc_description_2; col_naics_description_5].

Definition get (c : Col) (r : Incident) : string :=
  match c with
  | col_state_code => state_code r
  | col_company_name => company_name r
  | col_type_of_incident => type_of_incident r
  | col_establishment_type => establishment_type r
  | col_incident_outcome => incident_outcome r
  | col_soc_description_1 => soc_description_1 r
  | col_soc_description_2 => soc_description_2 r
  | col_naics_description_5 => naics_description_5 r
  end.

(** The contents of a frame: the dtype of each text column ([Some levels]
    for a categorical, [None] for plain strings) and its rows. *)
Record DataFrame : Type := {
  levels : Col -> option (list string);
  rows : list Incident
}.

(** A frame as a Python object: contents together with the identity that
    [is] compares.  Only [filter_data] and [prepare_radar_data] look at it. *)
Record FrameObj : Type := {
  oid : nat;
  frame : DataFrame
}.

(** Row selection ([df[mask]], [query], [drop_duplicates], [loc]) builds a
    frame with the same dtypes. *)
Definition with_rows (df : DataFrame) (rs : list Incident) : DataFrame :=
  {| levels := levels df; rows := rs |}.

Definition mem_str (s : string) (l : list string) : bool :=
  existsb (String.eqb s) l.

Fixpoint distinctb (l : list string) : bool :=
  match l with
  | [] => true
  | x :: l' => negb (mem_str x l') && distinctb l'
  end.

(** Invariant of pandas categoricals: levels are distinct and every value
    of the column is one of them. *)
Definition wf_col (df : DataFrame) (c : Col) : bool :=
  match levels df c with
  | None => true
  | Some cats =>
      distinctb cats && forallb (fun r => mem_str (get c r) cats) (rows df)
  end.

Definition wf_frame (df : DataFrame) : bool := forallb (wf_col df) all_cols.

(* ================================================================== *)
(** * groupby, drop_duplicates, merge *)
(* ================================================================== *)

Definition key : Type := list string.

Fixpoint key_eqb (a b : key) : bool :=
  match a, b with
  | [], [] => true
  | x :: a', y :: b' => String.eqb x y && key_eqb a' b'
  | _, _ => false
  end.

Definition row_key (cols : list Col) (r : Incident) : key :=
  map (fun c => get c r) cols.

Fixpoint insert_sorted (s : string) (l : list string) : list string :=
  match l with
  | [] => [s]
  | x :: l' => if String.leb s x then s :: l else x :: insert_sorted s l'
  end.

Definition sort_strings (l : list string) : list string :=
  fold_right insert_sorted [] l.

(** Sorted distinct values of a plain column ([Series.unique] then sort). *)
Definition uniques (c : Col) (rs : list Incident) : list string :=
  sort_strings (nodup string_dec (map (get c) rs)).

(** The group labels one grouper contributes, in output order. *)
Definition col_levels (df : DataFrame) (c : Col) : list string :=
  match levels df c with
  | Some cats => cats
  | None => uniques c (rows df)
  end.

Definition is_categorical (df : DataFrame) (c : Col) : bool :=
  match levels df c with Some _ => true | None => false end.

Fixpoint product (ls : list (list string)) : list key :=
  match ls with
  | [] => [[]]
  | l :: ls' => flat_map (fun x => map (cons x) (product ls')) l
  end.

Definition in_group (cols : list Col) (k : key) (r : Incident) : bool :=
  key_eqb (row_key cols r) k.

(** [df.groupby(cols, observed=...)]: group keys in sorted order.  With
    [observed=False] and a categorical grouper every combination of levels
    is a group, also the empty ones; otherwise only the combinations that
    occur in the frame. *)
Definition group_keys (observed : bool) (df : DataFrame) (cols : list Col)
  : list key :=
  let every := product (map (col_levels df) cols) in
  if negb observed && existsb (is_categorical df) cols then every
  else filter (fun k => existsb (in_group cols k) (rows df)) every.

Definition groupby (observed : bool) (df : DataFrame) (cols : list Col)
  : list (key * list Incident) :=
  map (fun k => (k, filter (in_group cols k) (rows df)))
      (group_keys observed df cols).

(** [.agg(...)] followed by [reset_index()]. *)
Definition agg {A} (f : list Incident -> A) (g : list (key * list Incident))
  : list (key * A) :=
  map (fun kg => (fst kg, f (snd kg))) g.

Definition same_company (a b : string * string) : bool :=
  String.eqb (fst a) (fst b) && String.eqb (snd a) (snd b).

Fixpoint drop_dup_from (seen : list (string * string)) (rs : list Incident)
  : list Incident :=
  match rs with
  | [] => []
  | r :: rs' =>
      let k := (state_code r, company_name r) in
      if existsb (same_company k) seen then drop_dup_from seen rs'
      else r :: drop_dup_from (k :: seen) rs'
  end.

(** [df.drop_duplicates(subset=["state_code", "company_name"])]: the first
    row of every (state, company) pair, in frame order. *)
Definition drop_duplicates (df : DataFrame) : DataFrame :=
  with_rows df (drop_dup_from [] (rows df)).

(** [left.merge(right, on=keys, how="left")]: every left row once per
    matching right row, or once with a missing right side. *)
Definition merge_left {A B} (l : list (key * A)) (r : list (key * B))
  : list (key * (A * option B)) :=
  flat_map
    (fun ka =>
       match filter (fun kb => key_eqb (fst kb) (fst ka)) r with
       | [] => [(fst ka, (snd ka, None))]
       | ms => map (fun kb => (fst ka, (snd ka, Some (snd kb)))) ms
       end) l.

(** [pd.merge(left, right, how="inner")]. *)
Definition merge_inner {A B} (l : list (key * A)) (r : list (key * B))
  : list (key * (A * B)) :=
  flat_map
    (fun ka =>
       map (fun kb => (fst ka, (snd ka, snd kb)))
           (filter (fun kb => key_eqb (fst kb) (fst ka)) r)) l.

(* ================================================================== *)
(** * Metric functions *)
(* ================================================================== *)

(** The result of a single-metric function: one row per group key with the
    value of the metric column. *)
Definition MetricTable : Type := list (key * float64).

Definition agg_cols (column : option Col) : list Col :=
  match column with
  | Some c => [col_state_code; c]
  | None => [col_state_code]
  end.

(** [("case_number", "count")]: the column has no missing value, so the
    count is the size of the group. *)
Definition count_rows (g : list Incident) : Q := Qcount g.

Definition sum_of (f : Incident -> Q) (g : list Incident) : Q :=
  Qsum (map f g).

Definition e5 : Q := 100000 # 1.
Definition e4 : Q := 10000 # 1.
Definition e2 : Q := 100 # 1.

(** [np.where(cond, a, b)] on one row. *)
Definition np_where (c : bool) (a b : float64) : float64 := if c then a else b.

Definition compute_agg_incident_rate (df : DataFrame) (column : option Col)
  : MetricTable :=
  let deduplicated := drop_duplicates df in
  let cols := agg_cols column in
  let injury_data := agg count_rows (groupby false df cols) in
  let company_data :=
    agg (sum_of total_hours_worked) (groupby false deduplicated cols) in
  let temp := merge_left injury_data company_data in
  map (fun t =>
         let case_number := Fin (fst (snd t)) in
         let hours := of_cell (snd (snd t)) in
         (fst t,
          np_where (fgtb hours (Fin 0))
                   (fmul (fdiv case_number hours) (Fin e5))
                   (Fin 0)))
      temp.

Definition compute_agg_fatality_rate (df : DataFrame) (column : option Col)
  : MetricTable :=
  let cols := agg_cols column in
  let temp :=
    agg (fun g => (sum_of death g, count_rows g)) (groupby false df cols) in
  map (fun t =>
         let deaths := Fin (fst (snd t)) in
         let case_number := Fin (snd (snd t)) in
         (fst t,
          np_where (fgtb case_number (Fin 0))
                   (fmul (fdiv deaths case_number) (Fin e4))
                   (Fin 0)))
      temp.

Definition compute_agg_lost_workday_rate (df : DataFrame)
  (column : option Col) : MetricTable :=
  let cols := agg_cols column in
  let injury_data :=
    agg (fun g => (sum_of dafw_num_away g, sum_of djtr_num_tr g, count_rows g))
        (groupby false df cols) in
  map (fun t =>
         let '(away, restricted, cases) := snd t in
         let total_lost_days := fadd (Fin away) (Fin restricted) in
         let case_number := Fin cases in
         (fst t,
          np_where (fgtb case_number (Fin 0))
                   (fdiv total_lost_days case_number)
                   (Fin 0)))
      injury_data.

Definition compute_workforce_exposure (df : DataFrame) (column : option Col)
  : MetricTable :=
  let deduplicated := drop_duplicates df in
  let cols := agg_cols column in
  let injury_data := agg count_rows (groupby false df cols) in
  let company_data :=
    agg (sum_of annual_average_employees) (groupby false deduplicated cols) in
  let temp := merge_left injury_data company_data in
  map (fun t =>
         let case_number := Fin (fst (snd t)) in
         let employees := of_cell (snd (snd t)) in
         (fst t,
          np_where (fgtb case_number (Fin 0))
                   (fmul (fdiv case_number employees) (Fin e2))
                   (Fin 0)))
      temp.

(** A table with named value columns, stored by column: the key of every
    row, then each value column in frame order.  [state_code] (and the
    secondary column, when there is one) make up the key. *)
Record Table : Type := {
  tkeys : list key;
  tcols : list (string * list float64)
}.

Definition single_column (name : string) (t : MetricTable) : Table :=
  {| tkeys := map fst t; tcols := [(name, map snd t)] |}.

Definition of_missing (c : option float64) : float64 :=
  match c with Some x => x | None => NaN end.

Definition danger_score_of (ir fr lw we : float64) : float64 :=
  fadd (fadd (fadd (fmul (Fin (238 # 100)) ir) (fmul (Fin (333 # 100)) fr))
             (fmul (Fin (37 # 100)) lw))
       (fmul (Fin (14 # 10)) we).

Definition compute_agg_safety_score (df : DataFrame) (column : option Col)
  : Table :=
  let stats := compute_agg_incident_rate df column in
  let stats := merge_left stats (compute_agg_fatality_rate df column) in
  let stats := merge_left stats (compute_agg_lost_workday_rate df column) in
  let stats := merge_left stats (compute_workforce_exposure df column) in
  let ir t := fst (fst (fst (snd t))) in
  let fr t := of_missing (snd (fst (fst (snd t)))) in
  let lw t := of_missing (snd (fst (snd t))) in
  let we t := of_missing (snd (snd t)) in
  {| tkeys := map fst stats;
     tcols :=
       [("incident_rate", map ir stats);
        ("fatality_rate", map fr stats);
        ("lost_workday_rate", map lw stats);
        ("workforce_exposure", map we stats);
        ("danger_score",
         map (fun t => danger_score_of (ir t) (fr t) (lw t) (we t)) stats)] |}.

(** A Python [dict] with string keys, in insertion order. *)
Fixpoint dict_get {A} (d : list (string * A)) (k : string) : option A :=
  match d with
  | [] => None
  | (k', v) :: d' => if String.eqb k k' then Some v else dict_get d' k
  end.

Definition kpi_name_function_mapping
  : list (string * (DataFrame -> option Col -> Table)) :=
  [("incident_rate",
    fun df c => single_column "incident_rate" (compute_agg_incident_rate df c));
   ("fatality_rate",
    fun df c => single_column "fatality_rate" (compute_agg_fatality_rate df c));
   ("lost_workday_rate",
    fun df c =>
      single_column "lost_workday_rate" (compute_agg_lost_workday_rate df c));
   ("workforce_exposure",
    fun df c =>
      single_column "workforce_exposure" (compute_workforce_exposure df c));
   ("danger_score", compute_agg_safety_score)].

(* ================================================================== *)
(** * Module state: base dataset, score table, global statistics *)
(* ================================================================== *)

Notation "x <- e ;; k" :=
  (match e with Some x => k | None => None end)
    (at level 61, e at next level, right associativity).

Fixpoint mapM {A B} (f : A -> option B) (l : list A) : option (list B) :=
  match l with
  | [] => Some []
  | a :: l' => b <- f a ;; bs <- mapM f l' ;; Some (b :: bs)
  end.

Definition Dict : Type := list (string * float64).

(** The module-level names of [data.py].  [region_safety_score] is the one
    object that functions below may alias. *)
Record Globals : Type := {
  next_oid : nat;
  data : FrameObj;
  region_safety_score : Table;
  min_metric_values : Dict;
  max_metric_values : Dict;
  mean_metric_values : Dict
}.

(** [t[name]]; a missing column is a [KeyError]. *)
Definition tcolumn (t : Table) (name : string) : option (list float64) :=
  dict_get (tcols t) name.

(** The loop of lines 201-205, over the keys of the dispatch table. *)
Fixpoint metric_statistics (t : Table) (metrics : list string)
  : option (Dict * Dict * Dict) :=
  match metrics with
  | [] => Some ([], [], [])
  | metric :: rest =>
      column_data <- tcolumn t metric ;;
      s <- metric_statistics t rest ;;
      let '(mins, maxs, means) := s in
      Some ((metric, series_min column_data) :: mins,
            (metric, series_max column_data) :: maxs,
            (metric, series_mean column_data) :: means)
  end.

(** Module initialisation on a loaded dataset. *)
Definition load_module (d : DataFrame) : option Globals :=
  let region := compute_agg_safety_score d None in
  s <- metric_statistics region (map fst kpi_name_function_mapping) ;;
  let '(mins, maxs, means) := s in
  Some {| next_oid := 1;
          data := {| oid := 0; frame := d |};
          region_safety_score := region;
          min_metric_values := mins;
          max_metric_values := maxs;
          mean_metric_values := means |}.

(* ================================================================== *)
(** * Filter engine *)
(* ================================================================== *)

(** [Series.min()] / [Series.max()] of the date column; [None] is [NaT]. *)
Definition date_min (rs : list Incident) : option Z :=
  match map date_of_incident rs with
  | [] => None
  | d :: ds => Some (fold_left Z.min ds d)
  end.

Definition date_max (rs : list Incident) : option Z :=
  match map date_of_incident rs with
  | [] => None
  | d :: ds => Some (fold_left Z.max ds d)
  end.

Definition date_is (d : Z) (o : option Z) : bool :=
  match o with Some d' => Z.eqb d d' | None => false end.

Definition in_date_range (start_date end_date : Z) (r : Incident) : bool :=
  Z.leb start_date (date_of_incident r) && Z.leb (date_of_incident r) end_date.

Definition is_empty {A} (l : list A) : bool :=
  match l with [] => true | _ => false end.

(** A new frame object; the counter is the allocator. *)
Definition new_frame (d : DataFrame) (next : nat) : FrameObj * nat :=
  ({| oid := next; frame := d |}, S next).

Definition filter_data (df : FrameObj) (start_date end_date : Z)
  (filter_incident_types : list string) (next : nat) : FrameObj * nat :=
  let use_precomputed :=
    date_is start_date (date_min (rows (frame df)))
    && date_is end_date (date_max (rows (frame df))) in
  if use_precomputed && is_empty filter_incident_types then (df, next)
  else
    let '(filtered_data, next) :=
      new_frame
        (with_rows (frame df)
           (filter (in_date_range start_date end_date) (rows (frame df))))
        next in
    if negb (is_empty filter_incident_types) then
      new_frame
        (with_rows (frame filtered_data)
           (filter (fun r => mem_str (type_of_incident r) filter_incident_types)
                   (rows (frame filtered_data))))
        next
    else (filtered_data, next).

(* ================================================================== *)
(** * Radar preparer *)
(* ================================================================== *)

(** [t[name] = value]: the scalar is broadcast over the rows; an existing
    column is overwritten in place, a new one is appended. *)
Fixpoint assign_column (cols : list (string * list float64)) (name : string)
  (c : list float64) : list (string * list float64) :=
  match cols with
  | [] => [(name, c)]
  | (n, c') :: cols' =>
      if String.eqb name n then (n, c) :: cols'
      else (n, c') :: assign_column cols' name c
  end.

Definition set_scalar (t : Table) (name : string) (v : float64) : Table :=
  {| tkeys := tkeys t;
     tcols := assign_column (tcols t) name (repeat v (List.length (tkeys t))) |}.

(** Works on the table it is given: the result is that same object with
    the [mean_*] columns added.  [iloc[:, 1:]] skips [state_code], the one
    key column of the tables that reach this function. *)
Definition prepare_mean_radar_data (radar_region_safety_score : Table)
  : Table :=
  let mean_values :=
    map (fun c => (fst c, series_mean (snd c)))
        (tcols radar_region_safety_score) in
  fold_left (fun t mv => set_scalar t ("mean_" ++ fst mv) (snd mv))
            mean_values radar_region_safety_score.

(** The scaling expression of lines 281-285 and 320-325. *)
Definition scale (vmin vmax value : float64) : float64 :=
  if fgtb vmax vmin then fdiv (fsub value vmin) (fsub vmax vmin) else Fin 0.

Definition calculate_mean_values (min_metric_values max_metric_values : Dict)
  (metrics : list string) (mean_values : list float64)
  : option (list float64) :=
  mapM (fun mm =>
          let '(metric, mean_value) := mm in
          vmax <- dict_get max_metric_values metric ;;
          vmin <- dict_get min_metric_values metric ;;
          Some (scale vmin vmax mean_value))
       (combine metrics mean_values).

Record RadarRow : Type := {
  kpi : string;
  value : float64;
  scaled_value : float64;
  mean_value : float64;
  scaled_mean_value : float64
}.

Definition radar_metrics : list string :=
  ["incident_rate"; "fatality_rate"; "lost_workday_rate";
   "workforce_exposure"; "danger_score"].

Definition key_state (k : key) : option string := hd_error k.

Definition is_state (state : string) (k : key) : bool :=
  match key_state k with Some s => String.eqb s state | None => false end.

(** Positions of the rows whose [state_code] is [state]. *)
Fixpoint positions_from (i : nat) (state : string) (ks : list key) : list nat :=
  match ks with
  | [] => []
  | k :: ks' =>
      if is_state state k then i :: positions_from (S i) state ks'
      else positions_from (S i) state ks'
  end.

Definition state_positions (state : string) (t : Table) : list nat :=
  positions_from 0 state (tkeys t).

Fixpoint zip_radar (ks : list string) (vs ss ms sms : list float64)
  : list RadarRow :=
  match ks, vs, ss, ms, sms with
  | k :: ks', v :: vs', s :: ss', m :: ms', sm :: sms' =>
      {| kpi := k; value := v; scaled_value := s; mean_value := m;
         scaled_mean_value := sm |} :: zip_radar ks' vs' ss' ms' sms'
  | _, _, _, _, _ => []
  end.

(** The rows of the radar table, read off a table that already carries its
    [mean_*] columns.  [squeeze()] gives one value per metric only when
    exactly one row is selected; the later [tolist()] fails otherwise. *)
Definition radar_rows (g : Globals) (radar : Table) (state : string)
  : option (list RadarRow) :=
  match state_positions state radar with
  | [i] =>
      metric_values <-
        mapM (fun metric => c <- tcolumn radar metric ;; nth_error c i)
             radar_metrics ;;
      scaled_values <-
        mapM (fun mv =>
                let '(metric, v) := mv in
                vmax <- dict_get (max_metric_values g) metric ;;
                vmin <- dict_get (min_metric_values g) metric ;;
                Some (scale vmin vmax v))
             (combine radar_metrics metric_values) ;;
      mean_values <-
        mapM (fun metric => c <- tcolumn radar ("mean_" ++ metric) ;;
                            hd_error c)
             radar_metrics ;;
      scaled_mean_values <-
        calculate_mean_values (min_metric_values g) (max_metric_values g)
                              radar_metrics mean_values ;;
      Some (zip_radar radar_metrics metric_values scaled_values mean_values
                      scaled_mean_values)
  | _ => None
  end.

Definition set_region (g : Globals) (t : Table) : Globals :=
  {| next_oid := next_oid g;
     data := data g;
     region_safety_score := t;
     min_metric_values := min_metric_values g;
     max_metric_values := max_metric_values g;
     mean_metric_values := mean_metric_values g |}.

(** Returns the radar table ([None] when an exception escapes) and the
    module state afterwards.  When [df is data] the table handed to
    [prepare_mean_radar_data] is the module-level [region_safety_score]
    itself, so what that function adds stays in the module state. *)
Definition prepare_radar_data (g : Globals) (df : FrameObj) (state : string)
  : option (list RadarRow) * Globals :=
  if Nat.eqb (oid df) (oid (data g)) then
    let radar := prepare_mean_radar_data (region_safety_score g) in
    let g' := set_region g radar in
    (radar_rows g' radar state, g')
  else
    let radar :=
      prepare_mean_radar_data (compute_agg_safety_score (frame df) None) in
    (radar_rows g radar state, g).

(* ================================================================== *)
(** * State, treemap, scatter and stacked-bar preparers *)
(* ================================================================== *)

(** Group mean: [NaN] on an empty group. *)
Definition group_mean (f : Incident -> Q) (g : list Incident) : float64 :=
  match g with
  | [] => NaN
  | _ => Fin (sum_of f g / count_rows g)
  end.

(** The rows of a table, each with its values in column order. *)
Fixpoint table_rows_of (ks : list key) (cols : list (list float64))
  : list (key * list float64) :=
  match ks with
  | [] => []
  | k :: ks' =>
      (k, flat_map (firstn 1) cols) :: table_rows_of ks' (map (@tl _) cols)
  end.

Definition table_rows (t : Table) : list (key * list float64) :=
  table_rows_of (tkeys t) (map snd (tcols t)).

Record CompanyAgg : Type := {
  annual_average_employees_median : float64;
  annual_average_employees_sum : Q;
  mean_total_hours_worked : float64
}.

Record InjuryAgg : Type := {
  mean_dafw_num_away : float64;
  mean_djtr_num_tr : float64;
  mean_death : float64;
  n_case_number : Q
}.

Record StateRow : Type := {
  state_key : key;
  company_part : CompanyAgg;
  injury_part : InjuryAgg;
  injury_density : float64;
  kpi_columns : list string;
  kpi_values : list float64
}.

Definition prepare_state_data (df : DataFrame) (kpi_name : string)
  : option (list StateRow) :=
  let deduplicated := drop_duplicates df in
  let company_data :=
    agg (fun g =>
           {| annual_average_employees_median :=
                group_mean annual_average_employees g;
              annual_average_employees_sum := sum_of annual_average_employees g;
              mean_total_hours_worked := group_mean total_hours_worked g |})
        (groupby false deduplicated [col_state_code]) in
  let injury_data :=
    agg (fun g =>
           {| mean_dafw_num_away := group_mean dafw_num_away g;
              mean_djtr_num_tr := group_mean djtr_num_tr g;
              mean_death := group_mean death g;
              n_case_number := count_rows g |})
        (groupby false df [col_state_code]) in
  let aggregated_data := merge_inner company_data injury_data in
  metric_function <- dict_get kpi_name_function_mapping kpi_name ;;
  let kpi_table := metric_function df None in
  Some
    (map (fun t =>
            let c := fst (fst (snd t)) in
            let i := snd (fst (snd t)) in
            {| state_key := fst t;
               company_part := c;
               injury_part := i;
               injury_density :=
                 np_where (fgtb (annual_average_employees_median c) (Fin 0))
                          (fdiv (Fin (n_case_number i))
                                (Fin (annual_average_employees_sum c)))
                          (Fin 0);
               kpi_columns := map fst (tcols kpi_table);
               kpi_values := snd (snd t) |})
         (merge_inner aggregated_data (table_rows kpi_table))).

(** [temp.loc[labels]]: for every label, the rows of [temp] carrying it. *)
Definition loc (temp : DataFrame) (labels : list nat) : DataFrame :=
  with_rows temp
    (flat_map (fun l => filter (fun r => Nat.eqb (index r) l) (rows temp))
              labels).

Fixpoint last_error {A} (l : list A) : option A :=
  match l with
  | [] => None
  | [a] => Some a
  | _ :: l' => last_error l'
  end.

(** [t.query("state_code == '<state>'").iloc[0, -1]]: first selected row,
    last column; an [IndexError] when no row is selected. *)
Definition query_state_iloc_0_last (t : Table) (state : string)
  : option float64 :=
  i <- hd_error (state_positions state t) ;;
  c <- last_error (tcols t) ;;
  nth_error (snd c) i.

Record TreemapRow : Type := {
  soc_key : key;
  count : Q;
  metric : float64
}.

Definition assigned_occupation (r : Incident) : bool :=
  negb (String.eqb (soc_description_1 r) "Insufficient info")
  && negb (String.eqb (soc_description_1 r) "Not assigned").

Definition prepare_treemap_data (df : DataFrame) (state : string)
  (kpi_name : string) : option (list TreemapRow) :=
  let temp :=
    with_rows df (filter (fun r => String.eqb (state_code r) state) (rows df)) in
  metric_function <- dict_get kpi_name_function_mapping kpi_name ;;
  mapM (fun kg =>
          let group_index := map index (snd kg) in
          m <- query_state_iloc_0_last
                 (metric_function (loc temp group_index) None) state ;;
          Some {| soc_key := fst kg; count := count_rows (snd kg); metric := m |})
       (groupby true
                (with_rows temp (filter assigned_occupation (rows temp)))
                [col_soc_description_1; col_soc_description_2]).

Definition count_str (s : string) (l : list string) : nat :=
  List.length (filter (String.eqb s) l).

(** [x.mode().iloc[0]]: the first, in sorted order, of the most frequent
    values; an [IndexError] when there is none. *)
Fixpoint mode_first (candidates values : list string) : option string :=
  match candidates with
  | [] => None
  | c :: cs =>
      match mode_first cs values with
      | None => Some c
      | Some b =>
          if Nat.leb (count_str b values) (count_str c values)
          then Some c else Some b
      end
  end.

(** [strftime("%H:%M")] of a time given in seconds: hour and minute. *)
Definition strftime_HM (t : float64) : option (Z * Z) :=
  match t with
  | Fin q => let s := Qfloor q in Some (((s / 3600) mod 24)%Z, ((s / 60) mod 60)%Z)
  | _ => None
  end.

Record ScatterRow : Type := {
  naics_key : key;
  sc_case_number : Q;
  sc_time_started_work : float64;
  sc_time_of_incident : float64;
  sc_establishment_type : string;
  time_started_work_str : option (Z * Z);
  time_of_incident_str : option (Z * Z)
}.

Definition prepare_scatter_plot (df : DataFrame) (state : string)
  : option (list ScatterRow) :=
  let in_state :=
    with_rows df (filter (fun r => String.eqb (state_code r) state) (rows df)) in
  mapM (fun kg =>
          let g := snd kg in
          let types := map establishment_type g in
          e <- mode_first
                 (filter (fun v => mem_str v types)
                         (col_levels in_state col_establishment_type))
                 types ;;
          let started := group_mean time_started_work g in
          let incident := group_mean time_of_incident g in
          Some {| naics_key := fst kg;
                  sc_case_number := count_rows g;
                  sc_time_started_work := started;
                  sc_time_of_incident := incident;
                  sc_establishment_type := e;
                  time_started_work_str := strftime_HM started;
                  time_of_incident_str := strftime_HM incident |})
       (groupby true in_state [col_naics_description_5]).

Fixpoint lookup_key {A} (k : key) (l : list (key * A)) : option A :=
  match l with
  | [] => None
  | (k', a) :: l' => if key_eqb k' k then Some a else lookup_key k l'
  end.

(** The stacked-bar table: the establishment types that head its value
    columns and, per incident outcome, one proportion per column.  The
    value columns are listed in level order and every cell sits under its
    own column; the order in which pandas' [pivot] lists the columns is
    not modelled, and no statement depends on it. *)
Record BarTable : Type := {
  bar_columns : list string;
  bar_rows : list (string * list float64)
}.

Definition valid_establishment (state : string) (r : Incident) : bool :=
  String.eqb (state_code r) state
  && negb (String.eqb (establishment_type r) "Not Stated")
  && negb (String.eqb (establishment_type r) "Invalid Entry").

(** [pivot(...).fillna(0)] on one cell. *)
Definition pivot_cell (aggregated : list (key * Q)) (o e : string) : float64 :=
  match lookup_key [o; e] aggregated with
  | Some n => Fin n
  | None => Fin 0
  end.

Definition prepare_stacked_bar_chart (df : DataFrame) (state : string)
  : BarTable :=
  let filtered_data :=
    with_rows df (filter (valid_establishment state) (rows df)) in
  let aggregated_data :=
    agg count_rows
        (groupby true filtered_data
                 [col_incident_outcome; col_establishment_type]) in
  let outcomes :=
    filter (fun o => existsb (fun kn => is_state o (fst kn)) aggregated_data)
           (col_levels filtered_data col_incident_outcome) in
  let types :=
    filter (fun e =>
              existsb (fun kn => key_eqb (tl (fst kn)) [e]) aggregated_data)
           (col_levels filtered_data col_establishment_type) in
  {| bar_columns := types;
     bar_rows :=
       map (fun o =>
              let pivot_row := map (pivot_cell aggregated_data o) types in
              let total := fsum (dropna pivot_row) in
              (o, map (fun c => fdiv c total) pivot_row))
           outcomes |}.

(* ================================================================== *)
(** * Click handlers of [application.py] *)
(* ================================================================== *)

(** Event payloads as the UI delivers them. *)
#[local] Set Warnings "-register-all".
Inductive json : Type :=
| JNull
| JBool (b : bool)
| JNum (n : Z)
| JStr (s : string)
| JList (l : list json)
| JDict (d : list (string * json)).

Inductive exn : Type :=
| IndexError
| KeyError
| TypeError
| PreventUpdate.

Inductive outcome (A : Type) : Type :=
| Return (a : A)
| Raise (e : exn).

Arguments Return {A} a.
Arguments Raise {A} e.

Definition bind {A B} (m : outcome A) (f : A -> outcome B) : outcome B :=
  match m with
  | Return a => f a
  | Raise e => Raise e
  end.

(** [j[0]] *)
Definition item0 (j : json) : outcome json :=
  match j with
  | JList (x :: _) => Return x
  | JList [] => Raise IndexError
  | JStr (String c _) => Return (JStr (String c EmptyString))
  | JStr EmptyString => Raise IndexError
  | JDict _ => Raise KeyError
  | _ => Raise TypeError
  end.

(** [j[k]] for a string [k] *)
Definition getitem (j : json) (k : string) : outcome json :=
  match j with
  | JDict d =>
      match dict_get d k with
      | Some v => Return v
      | None => Raise KeyError
      end
  | _ => Raise TypeError
  end.

Definition has_key (d : list (string * json)) (k : string) : bool :=
  match dict_get d k with Some _ => true | None => false end.

Definition dropdown_options_rev : list (string * string) :=
  [("Incident Rate", "incident_rate");
   ("Fatality Rate", "fatality_rate");
   ("Lost Workday Rate", "lost_workday_rate");
   ("Workforce Exposure", "workforce_exposure");
   ("Danger Score", "danger_score")].

(** What a callback writes to an output: a value, or [no_update]. *)
Inductive update (A : Type) : Type :=
| Set_to (a : A)
| no_update.

Arguments Set_to {A} a.
Arguments no_update {A}.

(** [dropdown_options_rev.get(theta, no_update)]; a list or a dict is not
    hashable. *)
Definition rev_label_get (theta : json) : outcome (update string) :=
  match theta with
  | JStr s =>
      match dict_get dropdown_options_rev s with
      | Some k => Return (Set_to k)
      | None => Return no_update
      end
  | JList _ | JDict _ => Raise TypeError
  | _ => Return no_update
  end.

(** [click_data] is [None] or a dict.  The result goes to the value of the
    KPI dropdown. *)
Definition update_on_radar_click (click_data : option (list (string * json)))
  : outcome (update string) :=
  match click_data with
  | Some ((_ :: _) as d) =>
      if has_key d "points" then
        bind (getitem (JDict d) "points") (fun points =>
        bind (item0 points) (fun point =>
        bind (getitem point "theta") rev_label_get))
      else Return no_update
  | _ => Return no_update
  end.

(** Equality of a stored selection with a clicked value. *)
Definition same_selection (a b : json) : bool :=
  match a, b with
  | JStr x, JStr y => String.eqb x y
  | JNum x, JNum y => Z.eqb x y
  | JBool x, JBool y => Bool.eqb x y
  | JNull, JNull => true
  | _, _ => false
  end.

Definition outcome_is (clicked : json) (r : Incident) : bool :=
  match clicked with
  | JStr s => String.eqb (incident_outcome r) s
  | _ => false
  end.

Definition of_option {A} (o : option A) (e : exn) : outcome A :=
  match o with Some a => Return a | None => Raise e end.

(** The three outputs of the bar-click callback: the data behind the
    treemap and scatter figures (rendering is external) and the value
    written to the [bar-selected-data] store ([JNull] is [None]). *)
Definition update_graphs_on_barchart_click (g : Globals)
  (barchart_clickData : option (list (string * json)))
  (start_date end_date : Z) (incident_types : list string)
  (selected_state : string) (selected_data : json)
  : outcome (list TreemapRow * list ScatterRow * json) :=
  match barchart_clickData with
  | Some ((_ :: _) as d) =>
      let filtered_data :=
        frame (fst (filter_data (data g) start_date end_date incident_types
                                (next_oid g))) in
      bind
        (if has_key d "points" then
           bind (getitem (JDict d) "points") (fun points =>
           bind (item0 points) (fun point =>
           bind (getitem point "y") (fun clicked_outcome =>
           if same_selection selected_data clicked_outcome
           then Return (filtered_data, JNull)
           else Return
                  (with_rows filtered_data
                     (filter (outcome_is clicked_outcome) (rows filtered_data)),
                   clicked_outcome))))
         else Return (filtered_data, JNull))
        (fun fo =>
           let '(filtered_data, new_outcome) := fo in
           bind (of_option
                   (prepare_treemap_data filtered_data selected_state
                                         "incident_rate") IndexError)
                (fun treemap_data =>
           bind (of_option (prepare_scatter_plot filtered_data selected_state)
                           IndexError)
                (fun scatter_plot_data =>
           Return (treemap_data, scatter_plot_data, new_outcome))))
  | _ => Raise PreventUpdate
  end.
#[local] Set Warnings "register-all".

(* ================================================================== *)
(** * Module constants, layout defaults and the remaining callbacks *)
(* ================================================================== *)

(** [sorted(data[column].unique())], lines 10-11 of [data.py]. *)
Definition incident_types (d : DataFrame) : list string :=
  uniques col_type_of_incident (rows d).

Definition state_codes (d : DataFrame) : list string :=
  uniques col_state_code (rows d).

(** The initial values of the controls in [layouts.py]: the first state
    code (an [IndexError] on a dataset without rows), the KPI
    "incident_rate", the full date range, no incident type. *)
Record Controls : Type := {
  ctl_state : string;
  ctl_kpi : string;
  ctl_start_date : option Z;
  ctl_end_date : option Z;
  ctl_incident_types : list string
}.

Definition initial_controls (d : DataFrame) : option Controls :=
  s <- hd_error (state_codes d) ;;
  Some {| ctl_state := s;
          ctl_kpi := "incident_rate";
          ctl_start_date := date_min (rows d);
          ctl_end_date := date_max (rows d);
          ctl_incident_types := [] |}.

(** [mappings.py] *)
Definition dropdown_options : list (string * string) :=
  [("incident_rate", "Incident Rate");
   ("fatality_rate", "Fatality Rate");
   ("lost_workday_rate", "Lost Workday Rate");
   ("workforce_exposure", "Workforce Exposure");
   ("danger_score", "Danger Score")].

(** The map-click callback: its result goes to the state dropdown. *)
Definition update_selected_state (click_data : option (list (string * json)))
  (current_state : json) : outcome json :=
  match click_data with
  | Some ((_ :: _) as d) =>
      bind (getitem (JDict d) "points") (fun points =>
      bind (item0 points) (fun point =>
      bind (getitem point "location") (fun clicked_state =>
      Return (if same_selection clicked_state current_state
              then current_state else clicked_state))))
  | _ => Return current_state
  end.

(** Python truthiness of a payload value. *)
Definition truthy (j : json) : bool :=
  match j with
  | JNull => false
  | JBool b => b
  | JNum n => negb (Z.eqb n 0)
  | JStr s => negb (String.eqb s "")
  | JList l => negb (is_empty l)
  | JDict d => negb (is_empty d)
  end.

(** [j != "<s>"] *)
Definition differs_from (j : json) (s : string) : bool :=
  match j with
  | JStr x => negb (String.eqb x s)
  | _ => true
  end.

(** [column == j] on one row. *)
Definition text_is (j : json) (v : string) : bool :=
  match j with
  | JStr s => String.eqb v s
  | _ => false
  end.

(** [point.get("parent", None)]; the point is a dict when this is reached. *)
Definition get_or_none (j : json) (k : string) : json :=
  match j with
  | JDict d => match dict_get d k with Some v => v | None => JNull end
  | _ => JNull
  end.

(** Not a list and not a dict. *)
Definition scalar (j : json) : bool :=
  match j with
  | JList _ | JDict _ => false
  | _ => true
  end.

(** The rows a treemap click leaves of the filtered frame.  A column
    compared with a scalar that is not one of its strings matches no row.
    Comparing a column with a list- or dict-valued label or parent, which
    plotly does not send, is outside the model: the result is [None]. *)
Definition treemap_selection (filtered_data : DataFrame)
  (treemap_clickData : list (string * json)) : option (outcome DataFrame) :=
  if has_key treemap_clickData "points" then
    match getitem (JDict treemap_clickData) "points" with
    | Raise e => Some (Raise e)
    | Return points =>
        match item0 points with
        | Raise e => Some (Raise e)
        | Return point =>
            match getitem point "label" with
            | Raise e => Some (Raise e)
            | Return clicked_label =>
                let clicked_parent := get_or_none point "parent" in
                if truthy clicked_parent
                   && differs_from clicked_parent "US Market" then
                  if scalar clicked_parent && scalar clicked_label then
                    Some (Return
                            (with_rows filtered_data
                               (filter
                                  (fun r =>
                                     text_is clicked_parent (soc_description_1 r)
                                     && text_is clicked_label
                                                (soc_description_2 r))
                                  (rows filtered_data))))
                  else None
                else if differs_from clicked_label "US Market" then
                  if scalar clicked_label then
                    Some (Return
                            (with_rows filtered_data
                               (filter
                                  (fun r =>
                                     text_is clicked_label (soc_description_1 r))
                                  (rows filtered_data))))
                  else None
                else Some (Return filtered_data)
            end
        end
    end
  else Some (Return filtered_data).

(** The treemap-click callback: the data behind the stacked-bar and the
    scatter figure; [None] where [treemap_selection] is. *)
Definition update_graphs_with_treemap_click (g : Globals)
  (treemap_clickData : option (list (string * json)))
  (start_date end_date : Z) (incident_types : list string)
  (selected_state : string)
  : option (outcome (BarTable * list ScatterRow)) :=
  match treemap_clickData with
  | Some ((_ :: _) as d) =>
      let filtered_data :=
        frame (fst (filter_data (data g) start_date end_date incident_types
                                (next_oid g))) in
      selection <- treemap_selection filtered_data d ;;
      Some
        (bind selection (fun filtered_data =>
         let stacked_bar_data :=
           prepare_stacked_bar_chart filtered_data selected_state in
         bind (of_option (prepare_scatter_plot filtered_data selected_state)
                         IndexError)
              (fun scatter_plot_data =>
         Return (stacked_bar_data, scatter_plot_data))))
  | _ => Some (Raise PreventUpdate)
  end.

(** [update_stacked_bar_figure], [update_scatter_figure] and
    [update_treemap_figure]: the first store that holds a figure. *)
Definition update_figure {A} (figure_dict1 figure_dict2 : option A)
  : outcome A :=
  match figure_dict1, figure_dict2 with
  | None, None => Raise PreventUpdate
  | Some f, _ => Return f
  | None, Some f => Return f
  end.

(** What [update_tab_contents] puts on the page: the "No data" notice, or
    the tables behind the charts of the selected tab. *)
Inductive TabContents : Type :=
| NoData
| StateAnalysis (map_data : list StateRow) (radar_chart_data : list RadarRow)
| MetricAnalysis (scatter_plot_data : list ScatterRow)
                 (treemap_data : list TreemapRow)
                 (stacked_bar_chart : BarTable)
| NoContent.

(** [update_tab_contents]: the tables it hands to the renderers and the
    module state afterwards; [None] when an exception escapes.
    [start_date] and [end_date] are [None] when the picker is cleared, and
    [filter_data] then fails on [datetime.fromisoformat(None)]. *)
Definition update_tab_contents (g : Globals) (tab_name : string)
  (start_date end_date : option Z) (incident_types : list string)
  (kpi_name : string) (dropdown_state : string)
  : option TabContents * Globals :=
  match start_date, end_date with
  | Some sd, Some ed =>
      let '(filtered_data, next) :=
        filter_data (data g) sd ed incident_types (next_oid g) in
      let g :=
        {| next_oid := next;
           data := data g;
           region_safety_score := region_safety_score g;
           min_metric_values := min_metric_values g;
           max_metric_values := max_metric_values g;
           mean_metric_values := mean_metric_values g |} in
      if is_empty (rows (frame filtered_data)) then (Some NoData, g)
      else if String.eqb tab_name "state_analysis_tab" then
        match prepare_state_data (frame filtered_data) kpi_name with
        | None => (None, g)
        | Some map_data =>
            let '(radar, g) :=
              prepare_radar_data g filtered_data dropdown_state in
            (radar_chart_data <- radar ;;
             Some (StateAnalysis map_data radar_chart_data), g)
        end
      else if String.eqb tab_name "metric_analysis_tab" then
        (scatter_plot_data <-
           prepare_scatter_plot (frame filtered_data) dropdown_state ;;
         treemap_data <-
           prepare_treemap_data (frame filtered_data) dropdown_state
                                "incident_rate" ;;
         Some (MetricAnalysis scatter_plot_data treemap_data
                 (prepare_stacked_bar_chart (frame filtered_data)
                                            dropdown_state)), g)
      else (Some NoContent, g)
  | _, _ => (None, g)
  end.

(* ================================================================== *)
(** * Reference formulas and auxiliary definitions *)
(* ================================================================== *)

(** The rows of one state, one per company: the first row of each. *)
Fixpoint first_per_company (rs : list Incident) : list Incident :=
  match rs with
  | [] => []
  | r :: rs' =>
      r :: filter (fun r' => negb (String.eqb (company_name r') (company_name r)))
                  (first_per_company rs')
  end.

Definition state_rows (df : DataFrame) (s : string) : list Incident :=
  filter (fun r => String.eqb (state_code r) s) (rows df).

Definition companies_once (df : DataFrame) (s : string) : list Incident :=
  first_per_company (state_rows df s).

(** count / (hours summed once per company) * 1e5, and 0 when the
    denominator is not positive. *)
Definition incident_rate_formula (df : DataFrame) (s : string) : float64 :=
  let n := Qcount (state_rows df s) in
  let d := Qsum (map total_hours_worked (companies_once df s)) in
  if Qlt_bool 0 d then Fin (n / d * e5) else Fin 0.

Definition company_key (r : Incident) : string * string :=
  (state_code r, company_name r).

(** First row of every (state, company) pair, without an accumulator. *)
Fixpoint first_per_key (rs : list Incident) : list Incident :=
  match rs with
  | [] => []
  | r :: rs' =>
      r :: filter (fun r' => negb (same_company (company_key r') (company_key r)))
                  (first_per_key rs')
  end.

Definition unseen (seen : list (string * string)) (r : Incident) : bool :=
  negb (existsb (same_company (company_key r)) seen).

Definition mem_key (k : key) (ks : list key) : bool := existsb (key_eqb k) ks.

(** The rows [filter_data] keeps. *)
Definition keeps (start_date end_date : Z) (types : list string)
  (r : Incident) : bool :=
  in_date_range start_date end_date r
  && (is_empty types || mem_str (type_of_incident r) types).

(** Rows of one (outcome, establishment type) cell. *)
Definition in_cell (o e : string) (r : Incident) : bool :=
  String.eqb (incident_outcome r) o && String.eqb (establishment_type r) e.

Definition bar_cols : list Col :=
  [col_incident_outcome; col_establishment_type].

Definition scaled_by (g : Globals) (r : RadarRow) : Prop :=
  exists vmin vmax,
    dict_get (min_metric_values g) (kpi r) = Some vmin
    /\ dict_get (max_metric_values g) (kpi r) = Some vmax
    /\ scaled_value r = scale vmin vmax (value r)
    /\ scaled_mean_value r = scale vmin vmax (mean_value r).

(** The rows the stacked-bar chart is built from, and its cross-tabulation. *)
Definition valid_rows (df : DataFrame) (state : string) : list Incident :=
  filter (valid_establishment state) (rows df).

Definition valid_frame (df : DataFrame) (state : string) : DataFrame :=
  with_rows df (valid_rows df state).

Definition bar_aggregated (df : DataFrame) (state : string) : list (key * Q) :=
  agg count_rows (groupby true (valid_frame df state) bar_cols).

Definition cell_count (df : DataFrame) (state o e : string) : Q :=
  Qcount (filter (in_cell o e) (valid_rows df state)).

Definition outcome_count (df : DataFrame) (state o : string) : Q :=
  Qcount (filter (fun r => String.eqb (incident_outcome r) o)
                 (valid_rows df state)).

Definition bar_types (df : DataFrame) (state : string) : list string :=
  filter (fun e =>
            existsb (fun kn => key_eqb (tl (fst kn)) [e])
                    (bar_aggregated df state))
         (col_levels (valid_frame df state) col_establishment_type).

Definition bar_outcomes (df : DataFrame) (state : string) : list string :=
  filter (fun o =>
            existsb (fun kn => is_state o (fst kn)) (bar_aggregated df state))
         (col_levels (valid_frame df state) col_incident_outcome).

(* ================================================================== *)
(** * Reference formulas of the other metrics *)
(* ================================================================== *)

(** sum(death) / count * 1e4 over the rows of a state. *)
Definition fatality_rate_formula (df : DataFrame) (s : string) : float64 :=
  let n := Qcount (state_rows df s) in
  if Qlt_bool 0 n
  then Fin (sum_of death (state_rows df s) / n * e4)
  else Fin 0.

(** (sum(days away) + sum(days restricted)) / count over the rows of a
    state. *)
Definition lost_workday_rate_formula (df : DataFrame) (s : string) : float64 :=
  let n := Qcount (state_rows df s) in
  if Qlt_bool 0 n
  then Fin ((sum_of dafw_num_away (state_rows df s)
             + sum_of djtr_num_tr (state_rows df s)) / n)
  else Fin 0.

(** count / (employees summed once per company) * 1e2, guarded on the
    count; the division is the floating-point one. *)
Definition workforce_exposure_formula (df : DataFrame) (s : string) : float64 :=
  let n := Qcount (state_rows df s) in
  let d := sum_of annual_average_employees (companies_once df s) in
  if Qlt_bool 0 n then fmul (fdiv (Fin n) (Fin d)) (Fin e2) else Fin 0.

(** The grouping columns of the treemap. *)
Definition soc_cols : list Col :=
  [col_soc_description_1; col_soc_description_2].

(** The module state after a series of radar calls. *)
Fixpoint after_radar_calls (g : Globals) (calls : list (FrameObj * string))
  : Globals :=
  match calls with
  | [] => g
  | (df, state) :: rest =>
      after_radar_calls (snd (prepare_radar_data g df state)) rest
  end.

(** A finite value between 0 and 1. *)
Definition unit_float (x : float64) : Prop :=
  exists q, x = Fin q /\ 0 <= q <= 1.

(** Every value of the five metric columns is finite. *)
Definition all_finite_metrics (t : Table) : bool :=
  forallb (fun metric =>
             match tcolumn t metric with
             | Some c => forallb is_finite c
             | None => false
             end)
          radar_metrics.

(** The mean the loop of [prepare_mean_radar_data] leaves in column [k]:
    the one assigned last. *)
Fixpoint last_assigned (mean_values : list (string * float64)) (k : string)
  : option float64 :=
  match mean_values with
  | [] => None
  | mv :: rest =>
      match last_assigned rest k with
      | Some v => Some v
      | None => if String.eqb k ("mean_" ++ fst mv) then Some (snd mv) else None
      end
  end.

(** One assignment of the loop of [prepare_mean_radar_data]. *)
Definition mean_step (t : Table) (mv : string * float64) : Table :=
  set_scalar t ("mean_" ++ fst mv) (snd mv).

(** The shape of the score table: distinct column names, and the five
    metric columns, one cell per key. *)
Definition table_shape (t : Table) : Prop :=
  NoDup (map fst (tcols t))
  /\ forall m, In m radar_metrics ->
       exists c, tcolumn t m = Some c
                 /\ List.length c = List.length (tkeys t).

(** What radar calls keep of the freshly loaded module [g0]. *)
Definition radar_inv (g0 g : Globals) : Prop :=
  data g = data g0
  /\ min_metric_values g = min_metric_values g0
  /\ max_metric_values g = max_metric_values g0
  /\ mean_metric_values g = mean_metric_values g0
  /\ tkeys (region_safety_score g) = tkeys (region_safety_score g0)
  /\ NoDup (map fst (tcols (region_safety_score g)))
  /\ forall m, In m radar_metrics ->
       tcolumn (region_safety_score g) m = tcolumn (region_safety_score g0) m.

(** The module state the tab callback hands to the preparers. *)
Definition with_next_oid (g : Globals) (next : nat) : Globals :=
  {| next_oid := next;
     data := data g;
     region_safety_score := region_safety_score g;
     min_metric_values := min_metric_values g;
     max_metric_values := max_metric_values g;
     mean_metric_values := mean_metric_values g |}.

Definition cell_or_nan (t : Table) (name : string) (i : nat) : float64 :=
  match tcolumn t name with
  | Some c => nth i c NaN
  | None => NaN
  end.

Definition stat_or_nan (d : Dict) (metric : string) : float64 :=
  match dict_get d metric with
  | Some v => v
  | None => NaN
  end.

(** The radar row of one metric, read at row [i] of a table that carries
    its [mean_*] columns. *)
Definition radar_row_at (g : Globals) (t : Table) (i : nat) (metric : string)
  : RadarRow :=
  let vmin := stat_or_nan (min_metric_values g) metric in
  let vmax := stat_or_nan (max_metric_values g) metric in
  {| kpi := metric;
     value := cell_or_nan t metric i;
     scaled_value := scale vmin vmax (cell_or_nan t metric i);
     mean_value := cell_or_nan t ("mean_" ++ metric) 0;
     scaled_mean_value := scale vmin vmax (cell_or_nan t ("mean_" ++ metric) 0) |}.

(** Element-wise combination of four columns. *)
Fixpoint map4 {A} (f : A -> A -> A -> A -> A) (a b c d : list A) : list A :=
  match a, b, c, d with
  | x :: a', y :: b', z :: c', w :: d' => f x y z w :: map4 f a' b' c' d'
  | _, _, _, _ => []
  end.

(* ================================================================== *)
(** * Sample record sets *)
(* ================================================================== *)

Definition incident (i : nat) (st co : string) (date : Z)
  (ty oc et s1 s2 na : string) (d emp hrs : Q) : Incident :=
  {| index := i; state_code := st; company_name := co;
     date_of_incident := date; type_of_incident := ty;
     time_started_work := 30600; time_of_incident := 36000;
     establishment_type := et; incident_outcome := oc;
     soc_description_1 := s1; soc_description_2 := s2;
     naics_description_5 := na;
     death := d; dafw_num_away := 2; djtr_num_tr := 1;
     case_number := Z.of_nat i;
     annual_average_employees := emp; total_hours_worked := hrs |}.

(** Two states; company "x" of CA has two incident rows. *)
Definition sample_rows : list Incident :=
  [incident 0 "TX" "t" 1 "Fall" "Injury" "Private" "A" "B" "N1" 0 10 1000;
   incident 1 "CA" "x" 2 "Fall" "Injury" "Private" "A" "B" "N1" 0 20 2000;
   incident 2 "CA" "x" 3 "Burn" "Death" "State" "A" "C" "N2" 1 20 2000;
   incident 3 "CA" "y" 4 "Fall" "Injury" "Not Stated" "Not assigned" "Z" "N2"
            0 5 500].

(** All text columns plain strings. *)
Definition sample : DataFrame :=
  {| levels := fun _ => None; rows := sample_rows |}.

(** [state_code] categorical, with a level that has no row. *)
Definition sample_categorical : DataFrame :=
  {| levels := fun c =>
                 match c with
                 | col_state_code => Some ["AK"; "CA"; "TX"]
                 | _ => None
                 end;
     rows := sample_rows |}.

(** One incident at a company that reports no employees and no hours. *)
Definition idle_company : DataFrame :=
  {| levels := fun _ => None;
     rows := [incident 0 "CA" "z" 1 "Fall" "Injury" "Private" "A" "B" "N1"
                       0 0 0] |}.

(** The module state after loading a dataset. *)
Definition globals_of (d : DataFrame) : Globals :=
  match load_module d with
  | Some g => g
  | None =>
      {| next_oid := 1;
         data := {| oid := 0; frame := d |};
         region_safety_score := compute_agg_safety_score d None;
         min_metric_values := [];
         max_metric_values := [];
         mean_metric_values := [] |}
  end.

Definition sample_globals : Globals := globals_of sample.

(** The radar table of CA on the base dataset, and the state it leaves. *)
Definition sample_radar : option (list RadarRow) * Globals :=
  prepare_radar_data sample_globals (data sample_globals) "CA".

(** The sample restricted to the dates 3..3: a single CA row, a death. *)
Definition sample_day3 : FrameObj :=
  fst (filter_data (data sample_globals) 3 3 [] (next_oid sample_globals)).

(** The sample restricted to dates without any incident. *)
Definition sample_no_rows (d : DataFrame) : FrameObj :=
  fst (filter_data (data (globals_of d)) 100 200 [] (next_oid (globals_of d))).

(** The treemap table of CA on the sample, and its first leaf. *)
Definition sample_treemap : list TreemapRow :=
  match prepare_treemap_data sample_categorical "CA" "incident_rate" with
  | Some out => out
  | None => []
  end.

Definition sample_leaf : TreemapRow :=
  hd {| soc_key := []; count := 0; metric := NaN |} sample_treemap.

(** Click payloads as plotly sends them. *)
Definition click_on (field : string) (v : json) : list (string * json) :=
  [("points", JList [JDict [(field, v)]])].

Definition sample_leaf_click : list (string * json) :=
  [("points", JList [JDict [("label", JStr "B"); ("parent", JStr "A")]])].

(* ================================================================== *)
(** * Basic facts: keys, sorting, products *)
(* ================================================================== *)

Lemma key_eqb_eq (a b : key) : key_eqb a b = true <-> a = b.
Proof.
  revert b; induction a as [|x a IH]; intros [|y b]; simpl;
    try (split; [discriminate | congruence]); try tauto.
  rewrite andb_true_iff, String.eqb_eq, IH.
  split; [intros [-> ->]; reflexivity | intros H; inversion H; auto].
Qed.

Lemma key_eqb_refl (a : key) : key_eqb a a = true.
Proof. apply key_eqb_eq; reflexivity. Qed.

Lemma in_group_iff cols k r : in_group cols k r = true <-> row_key cols r = k.
Proof. apply key_eqb_eq. Qed.

Lemma mem_str_In s l : mem_str s l = true <-> In s l.
Proof.
  unfold mem_str. rewrite existsb_exists. split.
  - intros (x & Hx & E). apply String.eqb_eq in E. subst. exact Hx.
  - intros H. exists s. split; [exact H | apply String.eqb_refl].
Qed.

Lemma distinctb_NoDup l : distinctb l = true <-> NoDup l.
Proof.
  induction l as [|x l IH]; simpl.
  - split; [constructor | reflexivity].
  - rewrite andb_true_iff, negb_true_iff, IH. split.
    + intros [Hx Hl]. constructor; [|exact Hl].
      intros Hin. apply mem_str_In in Hin. congruence.
    + intros H. inversion H; subst. split; [|assumption].
      destruct (mem_str x l) eqn:E; [|reflexivity].
      apply mem_str_In in E. contradiction.
Qed.

Lemma insert_sorted_In s x l : In x (insert_sorted s l) <-> x = s \/ In x l.
Proof.
  induction l as [|y l IH]; simpl.
  - intuition.
  - destruct (String.leb s y); simpl; [intuition | rewrite IH; intuition].
Qed.

Lemma sort_strings_In x l : In x (sort_strings l) <-> In x l.
Proof.
  induction l as [|y l IH]; simpl; [tauto|].
  rewrite insert_sorted_In, IH. intuition.
Qed.

Lemma insert_sorted_NoDup s l :
  NoDup l -> ~ In s l -> NoDup (insert_sorted s l).
Proof.
  induction l as [|y l IH]; simpl; intros Hl Hs.
  - constructor; [tauto | constructor].
  - destruct (String.leb s y).
    + constructor; [simpl; tauto | exact Hl].
    + inversion Hl; subst. constructor.
      * rewrite insert_sorted_In. intros [->|H]; [apply Hs; now left | tauto].
      * apply IH; [assumption | tauto].
Qed.

Lemma sort_strings_NoDup l : NoDup l -> NoDup (sort_strings l).
Proof.
  induction 1 as [|x l Hx Hl IH]; simpl; [constructor|].
  apply insert_sorted_NoDup; [exact IH | now rewrite sort_strings_In].
Qed.

Lemma uniques_In c rs x : In x (uniques c rs) <-> In x (map (get c) rs).
Proof. unfold uniques. now rewrite sort_strings_In, nodup_In. Qed.

Lemma uniques_NoDup c rs : NoDup (uniques c rs).
Proof. apply sort_strings_NoDup, NoDup_nodup. Qed.

Lemma product_In k ls : In k (product ls) <-> Forall2 (@In string) k ls.
Proof.
  revert k; induction ls as [|l ls IH]; intros k; simpl.
  - split; [intros [<-|[]]; constructor | intros H; inversion H; now left].
  - rewrite in_flat_map. split.
    + intros (x & Hx & Hk). apply in_map_iff in Hk as (k' & <- & Hk').
      constructor; [exact Hx | now apply IH].
    + intros H. inversion H as [|x l' k' ls' Hx Hk']; subst.
      exists x. split; [exact Hx | apply in_map, IH, Hk'].
Qed.

Lemma NoDup_map_cons (x : string) (l : list key) :
  NoDup l -> NoDup (map (cons x) l).
Proof.
  intros H. apply Injective_map_NoDup; [|exact H].
  intros a b E. now inversion E.
Qed.

Lemma NoDup_flat_map_disjoint {A B} (f : A -> list B) (l : list A) :
  NoDup l ->
  (forall a, In a l -> NoDup (f a)) ->
  (forall a b y, In a l -> In b l -> In y (f a) -> In y (f b) -> a = b) ->
  NoDup (flat_map f l).
Proof.
  induction 1 as [|a l Ha Hl IH]; simpl; intros Hf Hd; [constructor|].
  apply NoDup_app.
  - apply Hf. now left.
  - apply IH; [intros; apply Hf; now right|].
    intros x y z Hx Hy. apply Hd; now right.
  - intros y Hy Hy'. apply in_flat_map in Hy' as (b & Hb & Hyb).
    assert (a = b) by (apply (Hd a b y); simpl; auto). subst. contradiction.
Qed.

Lemma product_NoDup ls : Forall (@NoDup string) ls -> NoDup (product ls).
Proof.
  induction 1 as [|l ls Hl Hls IH]; simpl.
  - constructor; [intros [] | constructor].
  - apply NoDup_flat_map_disjoint; [exact Hl | |].
    + intros. now apply NoDup_map_cons.
    + intros a b y _ _ Ha Hb.
      apply in_map_iff in Ha as (? & <- & _).
      apply in_map_iff in Hb as (? & E & _). now inversion E.
Qed.

(* ================================================================== *)
(** * Well-formed frames and group keys *)
(* ================================================================== *)

Lemma all_cols_complete c : In c all_cols.
Proof. destruct c; simpl; tauto. Qed.

Lemma wf_frame_col df c : wf_frame df = true -> wf_col df c = true.
Proof.
  unfold wf_frame. rewrite forallb_forall. intros H. apply H, all_cols_complete.
Qed.

Lemma wf_levels df c cats :
  wf_frame df = true -> levels df c = Some cats ->
  NoDup cats /\ forall r, In r (rows df) -> In (get c r) cats.
Proof.
  intros Hwf Hc. apply wf_frame_col with (c := c) in Hwf.
  unfold wf_col in Hwf. rewrite Hc in Hwf.
  apply andb_true_iff in Hwf as [Hn Hr].
  split; [now apply distinctb_NoDup|]. rewrite forallb_forall in Hr.
  intros r Hin. apply mem_str_In, Hr, Hin.
Qed.

Lemma wf_with_rows df rs :
  wf_frame df = true -> incl rs (rows df) -> wf_frame (with_rows df rs) = true.
Proof.
  intros Hwf Hsub. unfold wf_frame. apply forallb_forall. intros c _.
  unfold wf_col. simpl. destruct (levels df c) as [cats|] eqn:E; [|reflexivity].
  destruct (wf_levels df c Hwf E) as [Hnd Hin].
  rewrite (proj2 (distinctb_NoDup cats) Hnd). simpl.
  apply forallb_forall. intros r Hr. apply mem_str_In, Hin, Hsub, Hr.
Qed.

Lemma col_levels_NoDup df c : wf_frame df = true -> NoDup (col_levels df c).
Proof.
  intros Hwf. unfold col_levels. destruct (levels df c) eqn:E.
  - apply (wf_levels df c Hwf E).
  - apply uniques_NoDup.
Qed.

Lemma col_levels_In df c r :
  wf_frame df = true -> In r (rows df) -> In (get c r) (col_levels df c).
Proof.
  intros Hwf Hr. unfold col_levels. destruct (levels df c) eqn:E.
  - now apply (wf_levels df c Hwf E).
  - apply uniques_In, in_map, Hr.
Qed.

Lemma group_keys_product obs df cols k :
  In k (group_keys obs df cols) -> In k (product (map (col_levels df) cols)).
Proof.
  unfold group_keys.
  destruct (negb obs && existsb (is_categorical df) cols); [tauto|].
  now rewrite filter_In.
Qed.

Lemma group_keys_NoDup obs df cols :
  wf_frame df = true -> NoDup (group_keys obs df cols).
Proof.
  intros Hwf.
  assert (H : NoDup (product (map (col_levels df) cols))).
  { apply product_NoDup, Forall_forall. intros l Hl.
    apply in_map_iff in Hl as (c & <- & _). now apply col_levels_NoDup. }
  unfold group_keys.
  destruct (negb obs && existsb (is_categorical df) cols);
    [exact H | now apply NoDup_filter].
Qed.

Lemma row_key_in_product df cols r :
  wf_frame df = true -> In r (rows df) ->
  In (row_key cols r) (product (map (col_levels df) cols)).
Proof.
  intros Hwf Hr. apply product_In. unfold row_key.
  induction cols as [|c cols IH]; simpl; constructor;
    [now apply col_levels_In | exact IH].
Qed.

(** Under the categorical invariant every row falls in one of the groups. *)
Lemma row_key_in_group_keys obs df cols r :
  wf_frame df = true -> In r (rows df) ->
  In (row_key cols r) (group_keys obs df cols).
Proof.
  intros Hwf Hr. unfold group_keys.
  destruct (negb obs && existsb (is_categorical df) cols).
  - now apply row_key_in_product.
  - apply filter_In. split; [now apply row_key_in_product|].
    apply existsb_exists. exists r. split; [exact Hr | now apply in_group_iff].
Qed.

(** An observed-only grouping has no empty group. *)
Lemma group_keys_observed df cols k :
  In k (group_keys true df cols) ->
  exists r, In r (rows df) /\ row_key cols r = k.
Proof.
  unfold group_keys. simpl. rewrite filter_In, existsb_exists.
  intros (_ & r & Hr & E). exists r. split; [exact Hr | now apply in_group_iff].
Qed.

Lemma groupby_In obs df cols k g :
  In (k, g) (groupby obs df cols) <->
  In k (group_keys obs df cols) /\ g = filter (in_group cols k) (rows df).
Proof.
  unfold groupby. rewrite in_map_iff. split.
  - intros (k' & E & Hk). inversion E; subst. auto.
  - intros [Hk ->]. exists k. auto.
Qed.

Lemma groupby_keys obs df cols :
  map fst (groupby obs df cols) = group_keys obs df cols.
Proof. unfold groupby. rewrite map_map. simpl. apply map_id. Qed.

Lemma agg_keys {A} (f : list Incident -> A) g : map fst (agg f g) = map fst g.
Proof. unfold agg. rewrite map_map. reflexivity. Qed.

Lemma agg_In {A} (f : list Incident -> A) gs k a :
  In (k, a) (agg f gs) <-> exists g, In (k, g) gs /\ a = f g.
Proof.
  unfold agg. rewrite in_map_iff. split.
  - intros ([k' g] & E & H). simpl in E. inversion E; subst. eauto.
  - intros (g & H & ->). exists (k, g). auto.
Qed.

(* ================================================================== *)
(** * drop_duplicates *)
(* ================================================================== *)

Lemma same_company_eq a b : same_company a b = true <-> a = b.
Proof.
  destruct a, b. unfold same_company. simpl.
  rewrite andb_true_iff, !String.eqb_eq. split; [intros [-> ->] | intros E; inversion E]; auto.
Qed.

Lemma filter_filter {A} (f g : A -> bool) l :
  filter f (filter g l) = filter (fun x => g x && f x) l.
Proof.
  induction l as [|x l IH]; simpl; [reflexivity|].
  destruct (g x); simpl; [destruct (f x)|]; now rewrite IH.
Qed.

Lemma drop_dup_from_spec seen rs :
  drop_dup_from seen rs = filter (unseen seen) (first_per_key rs).
Proof.
  revert seen; induction rs as [|r rs IH]; intros seen; simpl; [reflexivity|].
  fold (company_key r). unfold unseen at 1.
  destruct (existsb (same_company (company_key r)) seen) eqn:E; simpl;
    rewrite IH, filter_filter; [|f_equal]; apply filter_ext_in; intros x _.
  - unfold unseen.
    destruct (same_company (company_key x) (company_key r)) eqn:Ex; simpl;
      [|reflexivity].
    apply same_company_eq in Ex. rewrite Ex, E. reflexivity.
  - unfold unseen. simpl.
    destruct (same_company (company_key x) (company_key r)); reflexivity.
Qed.

Lemma drop_duplicates_rows df :
  rows (drop_duplicates df) = first_per_key (rows df).
Proof.
  simpl. rewrite drop_dup_from_spec. unfold unseen. simpl.
  induction (first_per_key (rows df)); simpl; congruence.
Qed.

Lemma first_per_key_incl rs : incl (first_per_key rs) rs.
Proof.
  induction rs as [|r rs IH]; simpl; [apply incl_refl|].
  intros x [<-|Hx]; [now left|]. right. apply IH.
  now apply filter_In in Hx.
Qed.

(** Restricting the de-duplicated frame to one state gives that state's
    rows de-duplicated by company. *)
Lemma first_per_key_state s rs :
  filter (fun r => String.eqb (state_code r) s) (first_per_key rs)
  = first_per_company (filter (fun r => String.eqb (state_code r) s) rs).
Proof.
  induction rs as [|r rs IH]; simpl; [reflexivity|].
  destruct (String.eqb (state_code r) s) eqn:E; simpl.
  - f_equal. rewrite <- IH, !filter_filter. apply filter_ext. intros x.
    unfold same_company, company_key. simpl.
    destruct (String.eqb (state_code x) s) eqn:Ex; simpl;
      [|now rewrite andb_false_r].
    apply String.eqb_eq in E, Ex. subst s. rewrite Ex, String.eqb_refl.
    simpl. now rewrite andb_true_r.
  - rewrite <- IH, filter_filter. apply filter_ext. intros x.
    unfold same_company, company_key. simpl.
    destruct (String.eqb (state_code x) s) eqn:Ex; simpl;
      [|now rewrite andb_false_r].
    apply String.eqb_eq in Ex. subst s.
    destruct (String.eqb (state_code x) (state_code r)) eqn:Exr; simpl;
      [|reflexivity].
    apply String.eqb_eq in Exr. rewrite Exr, String.eqb_refl in E. discriminate.
Qed.

Lemma first_per_company_NoDup rs : NoDup (map company_name (first_per_company rs)).
Proof.
  induction rs as [|r rs IH]; simpl; constructor.
  - rewrite in_map_iff. intros (x & E & Hx). apply filter_In in Hx as [_ Hx].
    rewrite E, String.eqb_refl in Hx. discriminate.
  - clear -IH. induction (first_per_company rs) as [|x l IHl]; simpl;
      [constructor|].
    inversion IH; subst.
    destruct (negb (String.eqb (company_name x) (company_name r))); simpl; auto.
    constructor; auto. rewrite in_map_iff in *. intros (y & E & Hy).
    apply filter_In in Hy as [Hy _]. eauto.
Qed.

Lemma first_per_company_companies rs c :
  In c (map company_name rs) <-> In c (map company_name (first_per_company rs)).
Proof.
  induction rs as [|r rs IH]; simpl; [tauto|].
  rewrite IH, !in_map_iff. split.
  - intros [<-|(x & <- & Hx)]; [now left|].
    destruct (String.eqb (company_name x) (company_name r)) eqn:E.
    + left. apply String.eqb_eq in E. congruence.
    + right. exists x. split; [reflexivity|]. apply filter_In. now rewrite E.
  - intros [<-|(x & <- & Hx)]; [now left|].
    right. exists x. apply filter_In in Hx as [Hx _]. auto.
Qed.

(* ================================================================== *)
(** * Joins *)
(* ================================================================== *)

Lemma merge_left_In {A B} (l : list (key * A)) (r : list (key * B)) k a ob :
  In (k, (a, ob)) (merge_left l r) <->
  In (k, a) l /\
  match ob with
  | None => forall k' b, In (k', b) r -> key_eqb k' k = false
  | Some b => exists k', In (k', b) r /\ key_eqb k' k = true
  end.
Proof.
  unfold merge_left. rewrite in_flat_map. split.
  - intros ([k0 a0] & Hl & H). cbn [fst snd] in H.
    remember (filter (fun kb => key_eqb (fst kb) k0) r) as ms eqn:E.
    destruct ms as [|m ms].
    + destruct H as [H|[]]. inversion H; subst. split; [exact Hl|].
      intros k' b Hb. destruct (key_eqb k' k) eqn:Ek; [|reflexivity].
      assert (Hin : In (k', b) (filter (fun kb => key_eqb (fst kb) k) r))
        by (apply filter_In; auto).
      rewrite <- E in Hin. destruct Hin.
    + apply in_map_iff in H as ([k' b] & H & Hb).
      inversion H; subst. rewrite E in Hb.
      apply filter_In in Hb as [Hb Ek]. simpl in *.
      split; [exact Hl | eauto].
  - intros [Hl H]. exists (k, a). split; [exact Hl|]. cbn [fst snd].
    remember (filter (fun kb => key_eqb (fst kb) k) r) as ms eqn:E.
    destruct ob as [b|].
    + destruct H as (k' & Hb & Ek).
      assert (Hin : In (k', b) ms) by (rewrite E; apply filter_In; auto).
      destruct ms as [|m ms]; [destruct Hin|].
      apply in_map_iff. exists (k', b). auto.
    + destruct ms as [|[k' b] ms]; [now left|].
      assert (Hin : In (k', b) (filter (fun kb => key_eqb (fst kb) k) r))
        by (rewrite <- E; now left).
      apply filter_In in Hin as [Hin Ek]. simpl in Ek.
      rewrite (H k' b Hin) in Ek. discriminate.
Qed.

Lemma filter_key_NoDup {B} (r : list (key * B)) k :
  NoDup (map fst r) ->
  (List.length (filter (fun kb => key_eqb (fst kb) k) r) <= 1)%nat.
Proof.
  induction r as [|[k' b] r IH]; simpl; intros H; [lia|].
  inversion H; subst.
  destruct (key_eqb k' k) eqn:E; simpl; [|auto].
  apply key_eqb_eq in E. subst k'.
  assert (filter (fun kb => key_eqb (fst kb) k) r = []) as ->; [|simpl; lia].
  destruct (filter (fun kb => key_eqb (fst kb) k) r) as [|[k' b'] ms] eqn:E;
    [reflexivity|].
  assert (Hin : In (k', b') (filter (fun kb => key_eqb (fst kb) k) r))
    by (rewrite E; now left).
  apply filter_In in Hin as [Hin Ek]. apply key_eqb_eq in Ek. simpl in Ek.
  subst. exfalso. apply H2. apply in_map_iff. exists (k, b'). auto.
Qed.

(** Against a right side with distinct keys a left join keeps the rows of
    the left side, one for one. *)
Lemma merge_left_keys {A B} (l : list (key * A)) (r : list (key * B)) :
  NoDup (map fst r) -> map fst (merge_left l r) = map fst l.
Proof.
  intros Hr. unfold merge_left.
  induction l as [|[k a] l IH]; [reflexivity|].
  match goal with
  | |- context [flat_map ?f ((k, a) :: l)] =>
      change (flat_map f ((k, a) :: l)) with (f (k, a) ++ flat_map f l)%list
  end.
  rewrite map_app, IH. cbn [fst snd].
  pose proof (filter_key_NoDup r k Hr) as Hlen.
  destruct (filter (fun kb => key_eqb (fst kb) k) r) as [|m [|m' ms]];
    simpl in *; [reflexivity | reflexivity | lia].
Qed.

(* ================================================================== *)
(** * Incident rate per state *)
(* ================================================================== *)

Lemma group_keys_single obs df c k :
  In k (group_keys obs df [c]) -> exists s, k = [s] /\ In s (col_levels df c).
Proof.
  intros H. apply group_keys_product, product_In in H. simpl in H.
  inversion H as [|s l k' ls Hs Hk']; subst. inversion Hk'; subst. eauto.
Qed.

Lemma in_group_state s r :
  in_group [col_state_code] [s] r = String.eqb (state_code r) s.
Proof. unfold in_group. simpl. apply andb_true_r. Qed.

Lemma state_group_rows (rs : list Incident) s :
  filter (in_group [col_state_code] [s]) rs
  = filter (fun r => String.eqb (state_code r) s) rs.
Proof. apply filter_ext. intros r. apply in_group_state. Qed.

(** The de-duplicated frame still has a row for every state of the frame. *)
Lemma state_survives_dedup df r :
  In r (rows df) ->
  exists r', In r' (rows (drop_duplicates df))
             /\ state_code r' = state_code r.
Proof.
  intros Hr. rewrite drop_duplicates_rows.
  pose proof (first_per_key_state (state_code r) (rows df)) as E.
  assert (Hin : In r (filter (fun x => String.eqb (state_code x) (state_code r))
                             (rows df)))
    by (apply filter_In; split; [exact Hr | apply String.eqb_refl]).
  destruct (filter (fun x => String.eqb (state_code x) (state_code r)) (rows df))
    as [|r0 rs0] eqn:Ef; [destruct Hin|].
  simpl in E.
  assert (H0 : In r0 (filter (fun x => String.eqb (state_code x) (state_code r))
                             (first_per_key (rows df))))
    by (rewrite E; now left).
  apply filter_In in H0 as [H0 E0]. apply String.eqb_eq in E0. eauto.
Qed.

(** A state key of the frame is a state key of the de-duplicated frame. *)
Lemma state_key_survives_dedup df s :
  In [s] (group_keys false df [col_state_code]) ->
  state_rows df s <> [] ->
  In [s] (group_keys false (drop_duplicates df) [col_state_code]).
Proof.
  intros Hk Hne. unfold group_keys in *. simpl in *.
  unfold is_categorical, col_levels in *. simpl in *.
  destruct (levels df col_state_code) as [cats|]; simpl in *; [exact Hk|].
  destruct (state_rows df s) as [|r rs] eqn:E; [contradiction|].
  assert (Hr : In r (state_rows df s)) by (rewrite E; now left).
  apply filter_In in Hr as [Hr Es]. apply String.eqb_eq in Es.
  destruct (state_survives_dedup df r Hr) as (r' & Hr' & Es').
  simpl in Hr'. apply filter_In. split.
  - apply in_flat_map. exists s. split; [|now left].
    apply uniques_In. apply in_map_iff. exists r'.
    simpl. split; [congruence | exact Hr'].
  - apply existsb_exists. exists r'. split; [exact Hr'|].
    rewrite in_group_state. apply String.eqb_eq. congruence.
Qed.

Lemma Qlt_bool_iff a b : Qlt_bool a b = true <-> a < b.
Proof.
  unfold Qlt_bool. rewrite negb_true_iff.
  split.
  - intros H. apply Qnot_le_lt. intros Hle. apply Qle_bool_iff in Hle. congruence.
  - intros H. destruct (Qle_bool b a) eqn:E; [|reflexivity].
    apply Qle_bool_iff in E. exfalso. apply (Qlt_not_le _ _ H E).
Qed.

Lemma Qeq_bool_pos d : 0 < d -> Qeq_bool d 0 = false.
Proof.
  intros H. destruct (Qeq_bool d 0) eqn:E; [|reflexivity].
  apply Qeq_bool_iff in E. rewrite E in H. exfalso. apply (Qlt_irrefl _ H).
Qed.

(** The guarded ratio of the incident rate, on a joined row. *)
Lemma incident_rate_cell n d :
  np_where (fgtb (Fin d) (Fin 0)) (fmul (fdiv (Fin n) (Fin d)) (Fin e5)) (Fin 0)
  = if Qlt_bool 0 d then Fin (n / d * e5) else Fin 0.
Proof.
  unfold np_where, fgtb. destruct (Qlt_bool 0 d) eqn:E; [|reflexivity].
  apply Qlt_bool_iff in E. unfold fdiv. now rewrite (Qeq_bool_pos E).
Qed.

Lemma incident_rate_row df k v :
  In (k, v) (compute_agg_incident_rate df None) ->
  exists s, k = [s] /\ v = incident_rate_formula df s.
Proof.
  unfold compute_agg_incident_rate. intros H.
  apply in_map_iff in H as ([k' [n oh]] & E & H). simpl in E.
  inversion E; subst k' v; clear E.
  apply merge_left_In in H as [Hl Hr].
  apply agg_In in Hl as (g & Hg & ->).
  apply groupby_In in Hg as [Hk ->].
  destruct (group_keys_single _ _ _ _ Hk) as (s & -> & _).
  exists s. split; [reflexivity|].
  unfold incident_rate_formula, companies_once, count_rows.
  rewrite state_group_rows. fold (state_rows df s).
  destruct oh as [h|]; simpl of_cell.
  - destruct Hr as (k' & Hh & Ek). apply key_eqb_eq in Ek. subst k'.
    apply agg_In in Hh as (g & Hg & ->).
    apply groupby_In in Hg as [_ ->].
    rewrite state_group_rows, drop_duplicates_rows, first_per_key_state.
    apply incident_rate_cell.
  - assert (Hnone : state_rows df s = []).
    { destruct (state_rows df s) as [|r rs] eqn:Es; [reflexivity|].
      exfalso.
      assert (Hin : In [s] (group_keys false (drop_duplicates df)
                                       [col_state_code])).
      { apply state_key_survives_dedup; [exact Hk|]. rewrite Es. discriminate. }
      specialize (Hr [s] (sum_of total_hours_worked
                            (filter (in_group [col_state_code] [s])
                                    (rows (drop_duplicates df))))).
      rewrite key_eqb_refl in Hr. discriminate Hr.
      apply agg_In. eexists. split; [|reflexivity].
      apply groupby_In. auto. }
    rewrite Hnone. reflexivity.
Qed.

Lemma lookup_key_In {A} k (l : list (key * A)) a :
  lookup_key k l = Some a -> In (k, a) l.
Proof.
  induction l as [|[k' a'] l IH]; simpl; [discriminate|].
  destruct (key_eqb k' k) eqn:E.
  - intros H. inversion H; subst. apply key_eqb_eq in E. subst. now left.
  - intros H. right. now apply IH.
Qed.

Lemma lookup_key_some {A} k (l : list (key * A)) :
  In k (map fst l) -> exists a, lookup_key k l = Some a.
Proof.
  induction l as [|[k' a'] l IH]; simpl; [tauto|].
  intros [->|H].
  - rewrite key_eqb_refl. eauto.
  - destruct (key_eqb k' k); eauto.
Qed.

Lemma incident_rate_keys_cover df s :
  In [s] (group_keys false df [col_state_code]) ->
  In [s] (map fst (compute_agg_incident_rate df None)).
Proof.
  intros Hk. unfold compute_agg_incident_rate. rewrite map_map. simpl.
  set (inj := agg count_rows (groupby false df [col_state_code])).
  set (com := agg (sum_of total_hours_worked)
                  (groupby false (drop_duplicates df) [col_state_code])).
  assert (Hin : In [s] (map fst inj)).
  { unfold inj. now rewrite agg_keys, groupby_keys. }
  apply in_map_iff in Hin as ([k n] & E & Hin). simpl in E. subst k.
  apply in_map_iff.
  destruct (filter (fun kb => key_eqb (fst kb) [s]) com) as [|[k' h] ms] eqn:Ef.
  - exists ([s], (n, None)). split; [reflexivity|].
    apply merge_left_In. split; [exact Hin|].
    intros k' b Hb. destruct (key_eqb k' [s]) eqn:Ek; [|reflexivity].
    assert (H : In (k', b) (filter (fun kb => key_eqb (fst kb) [s]) com))
      by (apply filter_In; auto).
    rewrite Ef in H. destruct H.
  - exists ([s], (n, Some h)). split; [reflexivity|].
    apply merge_left_In. split; [exact Hin|].
    assert (H : In (k', h) (filter (fun kb => key_eqb (fst kb) [s]) com))
      by (rewrite Ef; now left).
    apply filter_In in H as [H Ek]. eauto.
Qed.

(** C1.  Grouped by state alone, [compute_agg_incident_rate] gives every
    state of the record set the number of its incident rows divided by its
    total hours worked, each company counted once, times 1e5, and 0 when
    that denominator is not positive; every row of the result is such a
    state row; and the denominator runs over the companies of the state
    without repetition, so two incident rows of one company add its hours
    once. *)
Theorem incident_rate_by_state (df : DataFrame) (s : string)
  (Hwf : wf_frame df = true) (Hs : In s (map state_code (rows df))) :
  lookup_key [s] (compute_agg_incident_rate df None)
    = Some (incident_rate_formula df s)
  /\ (forall k v, In (k, v) (compute_agg_incident_rate df None) ->
        exists s', k = [s'] /\ v = incident_rate_formula df s')
  /\ NoDup (map company_name (companies_once df s))
  /\ (forall c, In c (map company_name (state_rows df s)) <->
                In c (map company_name (companies_once df s))).
Proof.
  split; [|split; [|split]].
  - apply in_map_iff in Hs as (r & <- & Hr).
    assert (Hk : In [state_code r] (group_keys false df [col_state_code]))
      by apply (row_key_in_group_keys false df [col_state_code] r Hwf Hr).
    destruct (lookup_key_some _ _ (incident_rate_keys_cover df _ Hk)) as (v & Hv).
    rewrite Hv. f_equal.
    destruct (incident_rate_row df _ _ (lookup_key_In _ _ Hv)) as (s' & E & ->).
    now inversion E.
  - apply incident_rate_row.
  - apply first_per_company_NoDup.
  - apply first_per_company_companies.
Qed.

(* ================================================================== *)
(** * Keys of the metric tables *)
(* ================================================================== *)

Lemma drop_duplicates_incl df : incl (rows (drop_duplicates df)) (rows df).
Proof. rewrite drop_duplicates_rows. apply first_per_key_incl. Qed.

Lemma wf_drop_duplicates df :
  wf_frame df = true -> wf_frame (drop_duplicates df) = true.
Proof. intros H. apply wf_with_rows; [exact H | apply drop_duplicates_incl]. Qed.

Lemma drop_duplicates_keys df cols :
  wf_frame df = true ->
  NoDup (map fst (agg (sum_of total_hours_worked)
                      (groupby false (drop_duplicates df) cols))).
Proof.
  intros H. rewrite agg_keys, groupby_keys.
  apply group_keys_NoDup, wf_drop_duplicates, H.
Qed.

Lemma incident_rate_keys df column :
  wf_frame df = true ->
  map fst (compute_agg_incident_rate df column)
  = group_keys false df (agg_cols column).
Proof.
  intros H. unfold compute_agg_incident_rate. rewrite map_map. simpl.
  change (fun x : key * (Q * option Q) => fst x) with (@fst key (Q * option Q)).
  rewrite merge_left_keys, agg_keys, groupby_keys; [reflexivity|].
  rewrite agg_keys, groupby_keys.
  apply group_keys_NoDup, wf_drop_duplicates, H.
Qed.

Lemma workforce_exposure_keys df column :
  wf_frame df = true ->
  map fst (compute_workforce_exposure df column)
  = group_keys false df (agg_cols column).
Proof.
  intros H. unfold compute_workforce_exposure. rewrite map_map. simpl.
  change (fun x : key * (Q * option Q) => fst x) with (@fst key (Q * option Q)).
  rewrite merge_left_keys, agg_keys, groupby_keys; [reflexivity|].
  rewrite agg_keys, groupby_keys.
  apply group_keys_NoDup, wf_drop_duplicates, H.
Qed.

Lemma fatality_rate_keys df column :
  map fst (compute_agg_fatality_rate df column)
  = group_keys false df (agg_cols column).
Proof.
  unfold compute_agg_fatality_rate. rewrite map_map. simpl.
  change (fun x : key * (Q * Q) => fst x) with (@fst key (Q * Q)).
  now rewrite agg_keys, groupby_keys.
Qed.

Lemma lost_workday_rate_keys df column :
  map fst (compute_agg_lost_workday_rate df column)
  = group_keys false df (agg_cols column).
Proof.
  unfold compute_agg_lost_workday_rate. rewrite map_map.
  rewrite <- (groupby_keys false df (agg_cols column)).
  rewrite <- (agg_keys
                (fun g => (sum_of dafw_num_away g, sum_of djtr_num_tr g,
                           count_rows g))).
  apply map_ext. intros [k [[a b] c]]. reflexivity.
Qed.

Lemma safety_score_keys df column :
  wf_frame df = true ->
  tkeys (compute_agg_safety_score df column)
  = group_keys false df (agg_cols column).
Proof.
  intros H. unfold compute_agg_safety_score. cbn [tkeys].
  rewrite !merge_left_keys.
  - now apply incident_rate_keys.
  - rewrite fatality_rate_keys. now apply group_keys_NoDup.
  - rewrite lost_workday_rate_keys. now apply group_keys_NoDup.
  - rewrite workforce_exposure_keys by exact H. now apply group_keys_NoDup.
Qed.

(* ================================================================== *)
(** * Company-level fields are counted once *)
(* ================================================================== *)

Lemma first_per_key_NoDup rs : NoDup (map company_key (first_per_key rs)).
Proof.
  induction rs as [|r rs IH]; simpl; constructor.
  - rewrite in_map_iff. intros (x & E & Hx). apply filter_In in Hx as [_ Hx].
    rewrite E in Hx. rewrite (proj2 (same_company_eq _ _) eq_refl) in Hx.
    discriminate.
  - clear -IH. induction (first_per_key rs) as [|x l IHl]; simpl;
      [constructor|].
    inversion IH; subst.
    destruct (negb (same_company (company_key x) (company_key r))); simpl; auto.
    constructor; auto. rewrite in_map_iff in *. intros (y & E & Hy).
    apply filter_In in Hy as [Hy _]. eauto.
Qed.

Lemma NoDup_map_inj {A B} (f : A -> B) l a b :
  NoDup (map f l) -> In a l -> In b l -> f a = f b -> a = b.
Proof.
  induction l as [|x l IH]; simpl; [tauto|].
  intros H Ha Hb E. inversion H as [|? ? Hx Hl]; subst.
  destruct Ha as [->|Ha], Hb as [->|Hb]; auto.
  - exfalso. apply Hx. rewrite E. now apply in_map.
  - exfalso. apply Hx. rewrite <- E. now apply in_map.
Qed.

Lemma NoDup_map_filter {A B} (f : A -> B) (p : A -> bool) l :
  NoDup (map f l) -> NoDup (map f (filter p l)).
Proof.
  induction l as [|x l IH]; simpl; [auto|].
  intros H. inversion H; subst. destruct (p x); simpl; auto.
  constructor; auto. rewrite in_map_iff in *. intros (y & E & Hy).
  apply filter_In in Hy as [Hy _]. eauto.
Qed.

Lemma mem_key_In k ks : mem_key k ks = true <-> In k ks.
Proof.
  unfold mem_key. rewrite existsb_exists. split.
  - intros (x & Hx & E). apply key_eqb_eq in E. now subst.
  - intros H. exists k. split; [exact H | apply key_eqb_refl].
Qed.

Lemma Qsum_filter_split (f : Incident -> Q) (p q : Incident -> bool) rs :
  (forall r, In r rs -> p r = true -> q r = false) ->
  sum_of f (filter (fun r => p r || q r) rs)
  == sum_of f (filter p rs) + sum_of f (filter q rs).
Proof.
  unfold sum_of. induction rs as [|r rs IH]; intros H; simpl; [reflexivity|].
  assert (IH' := IH (fun x Hx => H x (or_intror Hx))).
  destruct (p r) eqn:Ep; simpl.
  - rewrite (H r (or_introl eq_refl) Ep). simpl. rewrite IH'. ring.
  - destruct (q r); simpl; rewrite IH'; ring.
Qed.

(** Summing group by group is summing over the rows the groups cover. *)
Lemma Qsum_groups (f : Incident -> Q) cols (ks : list key) rs :
  NoDup ks ->
  Qsum (map (fun k => sum_of f (filter (in_group cols k) rs)) ks)
  == sum_of f (filter (fun r => mem_key (row_key cols r) ks) rs).
Proof.
  induction 1 as [|k ks Hk Hks IH]; simpl.
  - unfold sum_of. induction rs; simpl; auto. reflexivity.
  - rewrite IH.
    rewrite <- Qsum_filter_split.
    + unfold sum_of. apply Qeq_refl.
    + intros r _ Hr. apply in_group_iff in Hr.
      destruct (mem_key (row_key cols r) ks) eqn:E; [|reflexivity].
      apply mem_key_In in E. congruence.
Qed.

Lemma is_state_row_key s column r :
  is_state s (row_key (agg_cols column) r) = String.eqb (state_code r) s.
Proof. destruct column; reflexivity. Qed.

Lemma filter_map_comm {A B} (p : B -> bool) (g : A -> B) l :
  filter p (map g l) = map g (filter (fun a => p (g a)) l).
Proof.
  induction l as [|a l IH]; simpl; [reflexivity|].
  destruct (p (g a)); simpl; now rewrite IH.
Qed.

Lemma state_groups_cover df column s r :
  wf_frame df = true -> In r (rows df) ->
  mem_key (row_key (agg_cols column) r)
          (filter (is_state s) (group_keys false df (agg_cols column)))
  = String.eqb (state_code r) s.
Proof.
  intros Hwf Hr.
  destruct (String.eqb (state_code r) s) eqn:E.
  - apply mem_key_In, filter_In. split.
    + now apply row_key_in_group_keys.
    + now rewrite is_state_row_key.
  - destruct (mem_key _ _) eqn:M; [|reflexivity].
    apply mem_key_In, filter_In in M as [_ M].
    rewrite is_state_row_key in M. congruence.
Qed.

Lemma filter_all {A} (p : A -> bool) l :
  (forall x, In x l -> p x = true) -> filter p l = l.
Proof.
  induction l as [|x l IH]; simpl; intros H; [reflexivity|].
  rewrite (H x (or_introl eq_refl)). f_equal. apply IH. auto.
Qed.

(** Every group key starts with the state. *)
Lemma group_key_state obs df column k :
  In k (group_keys obs df (agg_cols column)) -> exists s k', k = s :: k'.
Proof.
  intros H. apply group_keys_product, product_In in H.
  destruct column; inversion H; subst; eauto.
Qed.

Lemma in_group_state_first column s k' r :
  in_group (agg_cols column) (s :: k') r
  = String.eqb (state_code r) s && in_group (agg_cols column) (s :: k') r.
Proof.
  destruct column; unfold in_group, row_key; simpl;
    now destruct (String.eqb (state_code r) s).
Qed.

(** The de-duplicated rows of a group are the rows of the group among the
    state's companies taken once. *)
Lemma dedup_group_rows df column s k' :
  filter (in_group (agg_cols column) (s :: k')) (rows (drop_duplicates df))
  = filter (in_group (agg_cols column) (s :: k')) (companies_once df s).
Proof.
  rewrite drop_duplicates_rows. unfold companies_once, state_rows.
  rewrite <- first_per_key_state, filter_filter.
  apply filter_ext. intros r. apply in_group_state_first.
Qed.

(** A row of the left join that the two company-level metrics compute on:
    the count of the group, and the company-level field summed over the
    de-duplicated rows of the group; the right side is missing only when
    no de-duplicated row lies in the group. *)
Lemma company_join_row df column (f : Incident -> Q) k n oh :
  wf_frame df = true ->
  In (k, (n, oh))
     (merge_left
        (agg count_rows (groupby false df (agg_cols column)))
        (agg (sum_of f)
             (groupby false (drop_duplicates df) (agg_cols column)))) ->
  In k (group_keys false df (agg_cols column))
  /\ n = Qcount (filter (in_group (agg_cols column) k) (rows df))
  /\ match oh with
     | Some h =>
         h = sum_of f (filter (in_group (agg_cols column) k)
                              (rows (drop_duplicates df)))
     | None =>
         filter (in_group (agg_cols column) k) (rows (drop_duplicates df)) = []
     end.
Proof.
  intros Hwf H. apply merge_left_In in H as [Hl Hr].
  apply agg_In in Hl as (g & Hg & ->).
  apply groupby_In in Hg as [Hk ->].
  split; [exact Hk|]. split; [reflexivity|].
  destruct oh as [h|].
  - destruct Hr as (k' & Hh & Ek). apply key_eqb_eq in Ek. subst k'.
    apply agg_In in Hh as (g & Hg & ->).
    now apply groupby_In in Hg as [_ ->].
  - destruct (filter (in_group (agg_cols column) k)
                     (rows (drop_duplicates df))) as [|r rs] eqn:E;
      [reflexivity|].
    exfalso.
    assert (Hr' : In r (filter (in_group (agg_cols column) k)
                               (rows (drop_duplicates df))))
      by (rewrite E; now left).
    apply filter_In in Hr' as [Hin Hg]. apply in_group_iff in Hg.
    assert (Hkey : In k (group_keys false (drop_duplicates df)
                                    (agg_cols column))).
    { rewrite <- Hg. apply row_key_in_group_keys; [|exact Hin].
      now apply wf_drop_duplicates. }
    specialize (Hr k (sum_of f (filter (in_group (agg_cols column) k)
                                       (rows (drop_duplicates df))))).
    rewrite key_eqb_refl in Hr. discriminate Hr.
    apply agg_In. eexists. split; [|reflexivity].
    apply groupby_In. auto.
Qed.

Lemma Qcount_cons_pos {A} (x : A) l : 0 < Qcount (x :: l).
Proof. unfold Qcount, Qlt. simpl. lia. Qed.

Lemma Qcount_cons_inf {A} (x : A) l :
  fmul (fdiv (Fin (Qcount (x :: l))) (Fin 0)) (Fin e2) = PInf.
Proof. reflexivity. Qed.

(** The incident rate of a group, with or without a secondary column. *)
Lemma incident_rate_group df column k v :
  wf_frame df = true ->
  In (k, v) (compute_agg_incident_rate df column) ->
  exists s k',
    k = s :: k'
    /\ let hours :=
         sum_of total_hours_worked
                (filter (in_group (agg_cols column) k) (companies_once df s)) in
       v = if Qlt_bool 0 hours
           then Fin (Qcount (filter (in_group (agg_cols column) k) (rows df))
                     / hours * e5)
           else Fin 0.
Proof.
  intros Hwf H. unfold compute_agg_incident_rate in H.
  apply in_map_iff in H as ([k0 [n oh]] & E & H). simpl in E.
  inversion E; subst k0 v; clear E.
  apply (@company_join_row df column _ k n oh Hwf) in H as (Hk & -> & Hoh).
  destruct (@group_key_state _ _ _ _ Hk) as (s & k' & ->).
  exists s, k'. split; [reflexivity|]. cbv zeta.
  rewrite dedup_group_rows in Hoh.
  destruct oh as [h|]; simpl of_cell.
  - subst h. apply incident_rate_cell.
  - rewrite Hoh. reflexivity.
Qed.

(** The workforce exposure of a group, with or without a secondary
    column. *)
Lemma workforce_exposure_group df column k v :
  wf_frame df = true ->
  In (k, v) (compute_workforce_exposure df column) ->
  exists s k',
    k = s :: k'
    /\ let group := filter (in_group (agg_cols column) k) (rows df) in
       let once :=
         filter (in_group (agg_cols column) k) (companies_once df s) in
       let employees := sum_of annual_average_employees once in
       (group = [] -> v = Fin 0)
       /\ (once <> [] ->
           v = fmul (fdiv (Fin (Qcount group)) (Fin employees)) (Fin e2))
       /\ (0 < employees -> v = Fin (Qcount group / employees * e2))
       /\ (group <> [] -> once = [] -> v = NaN \/ v = PInf).
Proof.
  intros Hwf H. unfold compute_workforce_exposure in H.
  apply in_map_iff in H as ([k0 [n oh]] & E & H).
  assert (Ek : k0 = k) by (simpl in E; now inversion E).
  assert (Ev : v = np_where (fgtb (Fin n) (Fin 0))
                            (fmul (fdiv (Fin n) (of_cell oh)) (Fin e2))
                            (Fin 0))
    by (simpl in E; inversion E; reflexivity).
  clear E. subst k0 v.
  apply (@company_join_row df column _ k n oh Hwf) in H as (Hk & -> & Hoh).
  destruct (@group_key_state _ _ _ _ Hk) as (s & k' & ->).
  exists s, k'. split; [reflexivity|]. cbv zeta.
  assert (Hsub : forall r,
             In r (filter (in_group (agg_cols column) (s :: k'))
                          (companies_once df s)) ->
             In r (filter (in_group (agg_cols column) (s :: k')) (rows df))).
  { intros r Hr. rewrite <- dedup_group_rows in Hr.
    apply filter_In in Hr as [Hr Hg]. apply filter_In. split; [|exact Hg].
    now apply drop_duplicates_incl. }
  rewrite dedup_group_rows in Hoh.
  set (group := filter (in_group (agg_cols column) (s :: k')) (rows df)) in *.
  set (once := filter (in_group (agg_cols column) (s :: k'))
                      (companies_once df s)) in *.
  assert (Hguard : group <> [] ->
            np_where (fgtb (Fin (Qcount group)) (Fin 0))
                     (fmul (fdiv (Fin (Qcount group)) (of_cell oh)) (Fin e2))
                     (Fin 0)
            = fmul (fdiv (Fin (Qcount group)) (of_cell oh)) (Fin e2)).
  { intros Hne. destruct group as [|r g]; [congruence|].
    unfold np_where, fgtb.
    now rewrite (proj2 (Qlt_bool_iff 0 _) (Qcount_cons_pos r g)). }
  assert (Honce : once <> [] ->
            group <> [] /\ oh = Some (sum_of annual_average_employees once)).
  { intros Hne. split.
    - destruct once as [|r o] eqn:Eo; [congruence|].
      intros Eg. specialize (Hsub r (or_introl eq_refl)).
      rewrite Eg in Hsub. destruct Hsub.
    - destruct oh as [h|]; [now subst h | congruence]. }
  split; [|split; [|split]].
  - intros Eg. rewrite Eg. reflexivity.
  - intros Hne. destruct (Honce Hne) as (Hg & ->).
    now rewrite (Hguard Hg).
  - intros Hpos.
    assert (Hne : once <> []).
    { intros Eo. rewrite Eo in Hpos. apply (Qlt_irrefl _ Hpos). }
    destruct (Honce Hne) as (Hg & ->). rewrite (Hguard Hg).
    simpl of_cell. unfold fdiv. rewrite (Qeq_bool_pos Hpos). reflexivity.
  - intros Hg Eo. rewrite (Hguard Hg).
    destruct oh as [h|]; simpl of_cell.
    + right. subst h. rewrite Eo.
      destruct group as [|r g]; [congruence|]. apply Qcount_cons_inf.
    + left. reflexivity.
Qed.

(** The groups of a state split the state's companies, each taken once. *)
Lemma state_groups_partition df column s (f : Incident -> Q) :
  wf_frame df = true ->
  Qsum (map (fun k => sum_of f (filter (in_group (agg_cols column) k)
                                       (companies_once df s)))
            (filter (is_state s) (group_keys false df (agg_cols column))))
  == sum_of f (companies_once df s).
Proof.
  intros Hwf.
  rewrite Qsum_groups by (apply NoDup_filter, group_keys_NoDup, Hwf).
  rewrite filter_all; [reflexivity|].
  intros r Hr. unfold companies_once in Hr.
  assert (Hin : In r (state_rows df s)).
  { unfold state_rows in *. rewrite <- first_per_key_state in Hr.
    apply filter_In in Hr as [Hr Hs]. apply filter_In. split; [|exact Hs].
    now apply first_per_key_incl. }
  apply filter_In in Hin as [Hin Hs].
  now rewrite state_groups_cover.
Qed.

(** C3.  With or without a secondary grouping column, each of the five
    metric functions returns at most one row per grouping key, and a row
    for the key of every record.  The value of every row of the two
    metrics that read a company-level field is computed from that field
    summed over the companies of the state taken once and restricted to
    the group: the incident rate is count / hours * 1e5 when those hours
    are positive and 0 otherwise; the workforce exposure is count /
    employees * 1e2 whenever a company taken once lies in the group.  A
    company of a state is taken once and lies in one group only, and the
    shares of the rows of a state add up to the state's total with every
    company counted once. *)
Theorem metric_rows_unique_companies_once (df : DataFrame)
  (column : option Col) (Hwf : wf_frame df = true) :
  let cols := agg_cols column in
  let group k := filter (in_group cols k) (rows df) in
  let once s k := filter (in_group cols k) (companies_once df s) in
  (NoDup (map fst (compute_agg_incident_rate df column))
   /\ NoDup (map fst (compute_agg_fatality_rate df column))
   /\ NoDup (map fst (compute_agg_lost_workday_rate df column))
   /\ NoDup (map fst (compute_workforce_exposure df column))
   /\ NoDup (tkeys (compute_agg_safety_score df column)))
  /\ (forall r,
        In r (rows df) ->
        In (row_key cols r) (map fst (compute_agg_incident_rate df column))
        /\ In (row_key cols r) (map fst (compute_agg_fatality_rate df column))
        /\ In (row_key cols r)
              (map fst (compute_agg_lost_workday_rate df column))
        /\ In (row_key cols r) (map fst (compute_workforce_exposure df column))
        /\ In (row_key cols r) (tkeys (compute_agg_safety_score df column)))
  /\ (forall k v,
        In (k, v) (compute_agg_incident_rate df column) ->
        exists s k',
          k = s :: k'
          /\ v = if Qlt_bool 0 (sum_of total_hours_worked (once s k))
                 then Fin (Qcount (group k)
                           / sum_of total_hours_worked (once s k) * e5)
                 else Fin 0)
  /\ (forall k v,
        In (k, v) (compute_workforce_exposure df column) ->
        exists s k',
          k = s :: k'
          /\ (group k = [] -> v = Fin 0)
          /\ (once s k <> [] ->
              v = fmul (fdiv (Fin (Qcount (group k)))
                             (Fin (sum_of annual_average_employees (once s k))))
                       (Fin e2))
          /\ (0 < sum_of annual_average_employees (once s k) ->
              v = Fin (Qcount (group k)
                       / sum_of annual_average_employees (once s k) * e2))
          /\ (group k <> [] -> once s k = [] -> v = NaN \/ v = PInf))
  /\ (forall s,
        NoDup (map company_name (companies_once df s))
        /\ forall r k1 k2,
             In r (companies_once df s) ->
             In r (once s k1) -> In r (once s k2) -> k1 = k2)
  /\ (forall s (f : Incident -> Q),
        Qsum (map (fun k => sum_of f (once s k))
                  (filter (is_state s)
                          (map fst (compute_agg_incident_rate df column))))
        == sum_of f (companies_once df s)
        /\ Qsum (map (fun k => sum_of f (once s k))
                     (filter (is_state s)
                             (map fst (compute_workforce_exposure df column))))
           == sum_of f (companies_once df s)).
Proof.
  intros cols group once.
  pose proof (group_keys_NoDup false df (agg_cols column) Hwf) as Hkeys.
  split; [|split; [|split; [|split; [|split]]]].
  - rewrite incident_rate_keys, fatality_rate_keys, lost_workday_rate_keys,
      workforce_exposure_keys, safety_score_keys by exact Hwf.
    tauto.
  - intros r Hr.
    pose proof (row_key_in_group_keys false df (agg_cols column) r Hwf Hr)
      as Hin.
    rewrite incident_rate_keys, fatality_rate_keys, lost_workday_rate_keys,
      workforce_exposure_keys, safety_score_keys by exact Hwf.
    tauto.
  - intros k v H. exact (@incident_rate_group df column k v Hwf H).
  - intros k v H. exact (@workforce_exposure_group df column k v Hwf H).
  - intros s. split; [apply first_per_company_NoDup|].
    intros r k1 k2 _ H1 H2.
    apply filter_In in H1 as [_ H1]. apply filter_In in H2 as [_ H2].
    apply in_group_iff in H1, H2. congruence.
  - intros s f.
    rewrite incident_rate_keys, workforce_exposure_keys by exact Hwf.
    split; now apply state_groups_partition.
Qed.

(* ================================================================== *)
(** * Filter engine *)
(* ================================================================== *)

Lemma fold_min_le (l : list Z) (a : Z) :
  (fold_left Z.min l a <= a)%Z /\ forall x, In x l -> (fold_left Z.min l a <= x)%Z.
Proof.
  revert a; induction l as [|y l IH]; intros a; simpl.
  - split; [lia | tauto].
  - destruct (IH (Z.min a y)) as [H1 H2]. split; [lia|].
    intros x [<-|Hx]; [lia | auto].
Qed.

Lemma fold_max_ge (l : list Z) (a : Z) :
  (a <= fold_left Z.max l a)%Z /\ forall x, In x l -> (x <= fold_left Z.max l a)%Z.
Proof.
  revert a; induction l as [|y l IH]; intros a; simpl.
  - split; [lia | tauto].
  - destruct (IH (Z.max a y)) as [H1 H2]. split; [lia|].
    intros x [<-|Hx]; [lia | auto].
Qed.

Lemma date_min_lower rs m r :
  date_min rs = Some m -> In r rs -> (m <= date_of_incident r)%Z.
Proof.
  unfold date_min. intros H Hr. apply (in_map date_of_incident) in Hr.
  destruct (map date_of_incident rs) as [|d ds]; [discriminate|].
  inversion H; subst. destruct (fold_min_le ds d) as [H1 H2].
  destruct Hr as [<-|Hr]; auto.
Qed.

Lemma date_max_upper rs m r :
  date_max rs = Some m -> In r rs -> (date_of_incident r <= m)%Z.
Proof.
  unfold date_max. intros H Hr. apply (in_map date_of_incident) in Hr.
  destruct (map date_of_incident rs) as [|d ds]; [discriminate|].
  inversion H; subst. destruct (fold_max_ge ds d) as [H1 H2].
  destruct Hr as [<-|Hr]; auto.
Qed.

Lemma date_is_true d o : date_is d o = true <-> o = Some d.
Proof.
  destruct o as [d'|]; simpl; [|split; discriminate].
  rewrite Z.eqb_eq. split; [intros ->; reflexivity | intros H; now inversion H].
Qed.

Lemma filter_data_rows df start_date end_date types next :
  rows (frame (fst (filter_data df start_date end_date types next)))
  = filter (keeps start_date end_date types) (rows (frame df)).
Proof.
  unfold filter_data.
  destruct (date_is start_date (date_min (rows (frame df)))
            && date_is end_date (date_max (rows (frame df)))
            && is_empty types) eqn:E.
  - apply andb_true_iff in E as [E Et]. apply andb_true_iff in E as [E1 E2].
    apply date_is_true in E1, E2. simpl. symmetry. apply filter_all.
    intros r Hr. unfold keeps, in_date_range. rewrite Et. simpl.
    rewrite andb_true_r, andb_true_iff, !Z.leb_le.
    split; [eapply date_min_lower | eapply date_max_upper]; eauto.
  - simpl. destruct (is_empty types) eqn:Et; simpl.
    + apply filter_ext. intros r. unfold keeps. rewrite Et. simpl.
      now rewrite andb_true_r.
    + rewrite filter_filter. apply filter_ext. intros r. unfold keeps.
      now rewrite Et.
Qed.

Lemma filter_data_levels df start_date end_date types next :
  levels (frame (fst (filter_data df start_date end_date types next)))
  = levels (frame df).
Proof.
  unfold filter_data.
  destruct (_ && is_empty types); [reflexivity|]. simpl.
  destruct (is_empty types); reflexivity.
Qed.

(** C4.  When the given dates are the minimum and maximum incident date of
    the record set and no incident type is selected, [filter_data] returns
    the frame object it was given, and allocates nothing.  In every case
    the rows of the result are exactly the rows with
    [start_date <= date_of_incident <= end_date], restricted to the
    selected incident types when there are any, in their original order;
    when no row matches the result is an empty frame. *)
Theorem filter_data_contract (df : FrameObj) (start_date end_date : Z)
  (types : list string) (next : nat) :
  (date_min (rows (frame df)) = Some start_date ->
   date_max (rows (frame df)) = Some end_date ->
   types = [] ->
   filter_data df start_date end_date types next = (df, next))
  /\ rows (frame (fst (filter_data df start_date end_date types next)))
     = filter (keeps start_date end_date types) (rows (frame df))
  /\ levels (frame (fst (filter_data df start_date end_date types next)))
     = levels (frame df)
  /\ (forall r,
        In r (rows (frame (fst (filter_data df start_date end_date types next))))
        <-> In r (rows (frame df))
            /\ (start_date <= date_of_incident r <= end_date)%Z
            /\ (types = [] \/ In (type_of_incident r) types))
  /\ ((forall r, In r (rows (frame df)) ->
                 keeps start_date end_date types r = false) ->
      rows (frame (fst (filter_data df start_date end_date types next))) = []).
Proof.
  split; [|split; [|split; [|split]]].
  - intros Hmin Hmax ->. unfold filter_data.
    rewrite Hmin, Hmax. simpl. now rewrite !Z.eqb_refl.
  - apply filter_data_rows.
  - apply filter_data_levels.
  - intros r. rewrite filter_data_rows, filter_In. unfold keeps, in_date_range.
    rewrite !andb_true_iff, orb_true_iff, !Z.leb_le, mem_str_In.
    destruct types; simpl; intuition; discriminate.
  - intros H. rewrite filter_data_rows.
    induction (rows (frame df)) as [|r rs IH]; simpl; [reflexivity|].
    rewrite (H r (or_introl eq_refl)). apply IH. intros; apply H; now right.
Qed.

(* ================================================================== *)
(** * Treemap preparer *)
(* ================================================================== *)

Lemma mapM_total {A B} (f : A -> option B) l :
  (forall a, In a l -> exists b, f a = Some b) ->
  exists bs, mapM f l = Some bs /\ List.length bs = List.length l.
Proof.
  induction l as [|a l IH]; simpl; intros H; [eauto|].
  destruct (H a (or_introl eq_refl)) as (b & ->).
  destruct IH as (bs & -> & Hlen); [intros; apply H; now right|].
  exists (b :: bs). simpl. auto.
Qed.

Lemma positions_none n s ks :
  (forall k, In k ks -> is_state s k = false) -> positions_from n s ks = [].
Proof.
  revert n; induction ks as [|k ks IH]; intros n H; simpl; [reflexivity|].
  rewrite (H k (or_introl eq_refl)). apply IH. intros; apply H; now right.
Qed.

Lemma is_state_single s x : is_state s [x] = String.eqb x s.
Proof. reflexivity. Qed.

Lemma positions_single n s ks :
  NoDup ks -> (forall k, In k ks -> exists x, k = [x]) -> In [s] ks ->
  exists i, positions_from n s ks = [i] /\ (n <= i < n + List.length ks)%nat.
Proof.
  revert n; induction ks as [|k ks IH]; intros n Hnd Hsh Hin; simpl in *;
    [contradiction|].
  inversion Hnd as [|? ? Hk Hks]; subst.
  destruct (Hsh k (or_introl eq_refl)) as (x & ->).
  rewrite is_state_single. destruct (String.eqb x s) eqn:E.
  - apply String.eqb_eq in E. subst x. exists n. split; [|lia].
    rewrite positions_none; [reflexivity|].
    intros k Hk'. destruct (Hsh k (or_intror Hk')) as (y & ->).
    rewrite is_state_single. apply String.eqb_neq. intros ->. contradiction.
  - destruct Hin as [Hin|Hin].
    + inversion Hin; subst. rewrite String.eqb_refl in E. discriminate.
    + destruct (IH (S n) Hks (fun k H => Hsh k (or_intror H)) Hin)
        as (i & -> & Hi).
      exists i. split; [reflexivity | lia].
Qed.

(** What the treemap needs from a table of the dispatch table: state keys,
    and a last column as long as the table. *)
Lemma mapping_tables df name f :
  wf_frame df = true ->
  dict_get kpi_name_function_mapping name = Some f ->
  tkeys (f df None) = group_keys false df [col_state_code]
  /\ exists c, last_error (tcols (f df None)) = Some c
               /\ List.length (snd c) = List.length (tkeys (f df None)).
Proof.
  intros Hwf. unfold kpi_name_function_mapping. simpl.
  repeat match goal with
         | |- context [String.eqb name ?s] => destruct (String.eqb name s)
         end; intros H; inversion H; subst; clear H.
  - split; [apply (incident_rate_keys df None Hwf)|].
    eexists. split; [reflexivity|]. simpl. now rewrite !length_map.
  - split; [apply (fatality_rate_keys df None)|].
    eexists. split; [reflexivity|]. simpl. now rewrite !length_map.
  - split; [apply (lost_workday_rate_keys df None)|].
    eexists. split; [reflexivity|]. simpl. now rewrite !length_map.
  - split; [apply (workforce_exposure_keys df None Hwf)|].
    eexists. split; [reflexivity|]. simpl. now rewrite !length_map.
  - split; [apply (safety_score_keys df None Hwf)|].
    eexists. split; [reflexivity|]. simpl. now rewrite !length_map.
Qed.

Lemma mapping_known name :
  In name (map fst kpi_name_function_mapping) ->
  exists f, dict_get kpi_name_function_mapping name = Some f.
Proof.
  simpl. intros H.
  repeat destruct H as [<-|H]; simpl; eauto. contradiction.
Qed.

(** A frame whose rows all belong to one state, and which has a row, gets
    exactly one row in each table of the dispatch table. *)
Lemma one_state_table df state name f :
  wf_frame df = true ->
  rows df <> [] ->
  (forall r, In r (rows df) -> state_code r = state) ->
  dict_get kpi_name_function_mapping name = Some f ->
  (exists i, state_positions state (f df None) = [i])
  /\ exists m, query_state_iloc_0_last (f df None) state = Some m.
Proof.
  intros Hwf Hne Hst Hf.
  destruct (mapping_tables df name Hwf Hf) as (Hkeys & c & Hlast & Hlen).
  assert (Hin : In [state] (group_keys false df [col_state_code])).
  { assert (Hex : exists r, In r (rows df))
      by (destruct (rows df) as [|r rs]; [contradiction | exists r; now left]).
    destruct Hex as (r & Hr). rewrite <- (Hst r Hr).
    apply (row_key_in_group_keys false df [col_state_code] r Hwf Hr). }
  destruct (@positions_single 0 state (group_keys false df [col_state_code]))
    as (i & Hpos & Hi).
  - now apply group_keys_NoDup.
  - intros k Hk. destruct (group_keys_single _ _ _ _ Hk) as (x & -> & _). eauto.
  - exact Hin.
  - unfold query_state_iloc_0_last, state_positions. rewrite Hkeys, Hpos.
    split; [eauto|]. simpl. rewrite Hlast.
    destruct (nth_error (snd c) i) eqn:En; [eauto|].
    apply nth_error_None in En. rewrite Hlen, Hkeys in En.
    exfalso. unfold key in *. lia.
Qed.

Lemma loc_rows temp labels r :
  In r (rows (loc temp labels)) <-> In r (rows temp) /\ In (index r) labels.
Proof.
  simpl. rewrite in_flat_map. split.
  - intros (l & Hl & Hr). apply filter_In in Hr as [Hr E].
    apply Nat.eqb_eq in E. subst. auto.
  - intros [Hr Hl]. exists (index r). split; [exact Hl|].
    apply filter_In. split; [exact Hr | apply Nat.eqb_refl].
Qed.

(** C10.  For a KPI of the dispatch table, the per-group recomputation in
    [prepare_treemap_data] never fails: every group is non-empty, the rows
    selected for it all belong to the focal state, the recomputed metric
    table has exactly one row for that state, and reading the last column
    of its first row yields a value; so the preparer returns a table with
    one row per group. *)
Theorem treemap_metric_total (df : DataFrame) (state kpi_name : string)
  (Hwf : wf_frame df = true)
  (Hkpi : In kpi_name (map fst kpi_name_function_mapping)) :
  let temp := with_rows df (state_rows df state) in
  let groups :=
    groupby true (with_rows temp (filter assigned_occupation (rows temp)))
            [col_soc_description_1; col_soc_description_2] in
  (exists out, prepare_treemap_data df state kpi_name = Some out
               /\ List.length out = List.length groups)
  /\ forall k g f,
       In (k, g) groups ->
       dict_get kpi_name_function_mapping kpi_name = Some f ->
       let sub := loc temp (map index g) in
       g <> []
       /\ (forall r, In r (rows sub) -> state_code r = state)
       /\ (exists i, state_positions state (f sub None) = [i])
       /\ exists m, query_state_iloc_0_last (f sub None) state = Some m.
Proof.
  intros temp groups.
  assert (Hgroup : forall k g f,
             In (k, g) groups ->
             dict_get kpi_name_function_mapping kpi_name = Some f ->
             g <> []
             /\ (forall r, In r (rows (loc temp (map index g))) ->
                           state_code r = state)
             /\ (exists i, state_positions state
                             (f (loc temp (map index g)) None) = [i])
             /\ exists m, query_state_iloc_0_last
                            (f (loc temp (map index g)) None) state = Some m).
  { intros k g f Hg Hf.
    apply groupby_In in Hg as [Hk ->].
    destruct (group_keys_observed _ _ _ Hk) as (r & Hr & Ek).
    simpl in Hr.
    set (g := filter _ _).
    assert (Hrg : In r g).
    { apply filter_In. split; [exact Hr | now apply in_group_iff]. }
    assert (Hstate : forall x, In x (rows (loc temp (map index g))) ->
                               state_code x = state).
    { intros x Hx. apply loc_rows in Hx as [Hx _]. simpl in Hx.
      apply filter_In in Hx as [_ Hx]. now apply String.eqb_eq. }
    assert (Hsub : rows (loc temp (map index g)) <> []).
    { assert (Hin : In r (rows (loc temp (map index g)))).
      { apply loc_rows. split; [|now apply in_map].
        simpl. now apply filter_In in Hr as [Hr _]. }
      intros E. rewrite E in Hin. destruct Hin. }
    split; [intros E; rewrite E in Hrg; destruct Hrg|].
    split; [exact Hstate|].
    apply (@one_state_table (loc temp (map index g)) state kpi_name f);
      try assumption.
    apply wf_with_rows; [apply wf_with_rows; [exact Hwf|]|].
    - intros x Hx. now apply filter_In in Hx as [Hx _].
    - intros x Hx. apply loc_rows in Hx as [Hx _]. exact Hx. }
  split; [|intros k g f Hg Hf; now apply (Hgroup k g f)].
  unfold prepare_treemap_data.
  destruct (mapping_known Hkpi) as (f & Hf). rewrite Hf.
  fold (state_rows df state). fold temp. fold groups.
  apply mapM_total. intros [k g] Hg. cbn [fst snd].
  destruct (Hgroup k g f Hg Hf) as (_ & _ & _ & m & ->). eauto.
Qed.

(* ================================================================== *)
(** * Stacked-bar preparer *)
(* ================================================================== *)

Lemma fold_left_Qplus qs a : fold_left Qplus qs a == a + Qsum qs.
Proof.
  revert a; induction qs as [|q qs IH]; intros a; simpl.
  - ring.
  - rewrite IH. ring.
Qed.

Lemma fsum_Fin_from qs a :
  fold_left fadd (map Fin qs) (Fin a) = Fin (fold_left Qplus qs a).
Proof. revert a; induction qs as [|q qs IH]; intros a; simpl; auto. Qed.

Lemma dropna_Fin qs : dropna (map Fin qs) = map Fin qs.
Proof. induction qs; simpl; congruence. Qed.

Lemma Qsum_nonneg qs : Forall (fun q => 0 <= q) qs -> 0 <= Qsum qs.
Proof.
  induction 1 as [|q qs Hq _ IH]; simpl; [apply Qle_refl|].
  rewrite <- (Qplus_0_l 0). now apply Qplus_le_compat.
Qed.

Lemma Qsum_member_le qs q :
  Forall (fun x => 0 <= x) qs -> In q qs -> q <= Qsum qs.
Proof.
  induction 1 as [|x qs Hx Hqs IH]; simpl; [tauto|].
  pose proof (Qsum_nonneg Hqs) as Hs.
  intros [->|Hin].
  - rewrite <- (Qplus_0_r q) at 1. now apply Qplus_le_compat; [apply Qle_refl|].
  - rewrite <- (Qplus_0_l q). apply Qplus_le_compat; [exact Hx | now apply IH].
Qed.

Lemma Qsum_scaled qs T : ~ T == 0 -> Qsum (map (fun q => q / T) qs) == Qsum qs / T.
Proof.
  intros HT. induction qs as [|q qs IH]; simpl.
  - field. exact HT.
  - rewrite IH. field. exact HT.
Qed.

Lemma Qcount_nonneg {A} (l : list A) : 0 <= Qcount l.
Proof.
  unfold Qcount. change 0 with (inject_Z 0). rewrite <- Zle_Qle. lia.
Qed.

Lemma Qcount_pos {A} (l : list A) x : In x l -> 1 <= Qcount l.
Proof.
  unfold Qcount. change 1 with (inject_Z 1). rewrite <- Zle_Qle.
  destruct l; simpl; [tauto | lia].
Qed.

Lemma in_group_cell o e r : in_group bar_cols [o; e] r = in_cell o e r.
Proof. unfold in_group, in_cell. simpl. now rewrite andb_true_r. Qed.

(** With the categorical invariant, the filled pivot cell is the number of
    rows in the cell. *)
Lemma pivot_cell_count valid o e :
  wf_frame valid = true ->
  pivot_cell (agg count_rows (groupby true valid bar_cols)) o e
  = Fin (Qcount (filter (in_cell o e) (rows valid))).
Proof.
  intros Hwf. unfold pivot_cell.
  destruct (lookup_key [o; e] _) as [n|] eqn:E.
  - apply lookup_key_In, agg_In in E as (g & Hg & ->).
    apply groupby_In in Hg as [_ ->]. unfold count_rows.
    f_equal. f_equal. apply filter_ext. intros r. apply in_group_cell.
  - assert (Hnone : filter (in_cell o e) (rows valid) = []).
    { destruct (filter (in_cell o e) (rows valid)) as [|r rs] eqn:Ef;
        [reflexivity|]. exfalso.
      assert (Hr : In r (filter (in_cell o e) (rows valid)))
        by (rewrite Ef; now left).
      apply filter_In in Hr as [Hr Ec]. rewrite <- in_group_cell in Ec.
      apply in_group_iff in Ec.
      pose proof (row_key_in_group_keys true valid bar_cols r Hwf Hr) as Hk.
      rewrite Ec in Hk.
      destruct (@lookup_key_some Q [o; e]
                  (agg count_rows (groupby true valid bar_cols))) as (a & Ha).
      - now rewrite agg_keys, groupby_keys.
      - rewrite Ha in E. discriminate. }
    rewrite Hnone. reflexivity.
Qed.

Lemma Qsum_ext {A} (f g : A -> Q) l :
  (forall a, In a l -> f a == g a) -> Qsum (map f l) == Qsum (map g l).
Proof.
  induction l as [|a l IH]; simpl; intros H; [reflexivity|].
  rewrite (H a (or_introl eq_refl)), IH; [reflexivity|].
  intros; apply H; now right.
Qed.

Lemma sum_of_one (l : list Incident) : sum_of (fun _ => 1) l == Qcount l.
Proof.
  unfold sum_of, Qcount. induction l as [|a l IH]; [reflexivity|].
  cbn [map Qsum fold_right List.length]. rewrite IH, Nat2Z.inj_succ.
  unfold Z.succ. rewrite inject_Z_plus. ring.
Qed.

Section StackedBar.

Variable df : DataFrame.
Variable state : string.
Hypothesis Hwf : wf_frame df = true.

Local Abbreviation valid := (valid_rows df state).
Local Abbreviation vf := (valid_frame df state).
Local Abbreviation aggregated := (bar_aggregated df state).
Local Abbreviation cnt := (cell_count df state).
Local Abbreviation types := (bar_types df state).
Local Abbreviation outcomes := (bar_outcomes df state).

Lemma wf_valid_frame : wf_frame vf = true.
Proof.
  apply wf_with_rows; [exact Hwf|].
  intros r Hr. now apply filter_In in Hr as [Hr _].
Qed.

Lemma aggregated_observed k n :
  In (k, n) aggregated ->
  exists r, In r valid /\ k = [incident_outcome r; establishment_type r].
Proof.
  intros H. apply agg_In in H as (g & Hg & _).
  apply groupby_In in Hg as [Hk _].
  destruct (group_keys_observed _ _ _ Hk) as (r & Hr & <-). eauto.
Qed.

Lemma aggregated_covers r :
  In r valid ->
  exists n, In ([incident_outcome r; establishment_type r], n) aggregated.
Proof.
  intros Hr.
  pose proof (row_key_in_group_keys true vf bar_cols r wf_valid_frame Hr) as Hk.
  exists (count_rows (filter (in_group bar_cols (row_key bar_cols r)) valid)).
  apply agg_In. eexists. split; [|reflexivity].
  apply groupby_In. split; [exact Hk | reflexivity].
Qed.

Lemma bar_types_In e :
  In e types <-> exists r, In r valid /\ establishment_type r = e.
Proof.
  unfold bar_types. rewrite filter_In, existsb_exists. split.
  - intros (_ & [k n] & Hkn & E). apply key_eqb_eq in E. simpl in E.
    destruct (aggregated_observed _ _ Hkn) as (r & Hr & ->).
    exists r. split; [exact Hr | now inversion E].
  - intros (r & Hr & <-). split.
    + apply (col_levels_In vf col_establishment_type r wf_valid_frame Hr).
    + destruct (aggregated_covers _ Hr) as (n & Hn).
      eexists. split; [exact Hn | apply key_eqb_refl].
Qed.

Lemma bar_outcomes_In o :
  In o outcomes <-> exists r, In r valid /\ incident_outcome r = o.
Proof.
  unfold bar_outcomes. rewrite filter_In, existsb_exists. split.
  - intros (_ & [k n] & Hkn & E).
    destruct (aggregated_observed _ _ Hkn) as (r & Hr & ->).
    exists r. split; [exact Hr|]. simpl in E.
    unfold is_state in E. simpl in E. now apply String.eqb_eq in E.
  - intros (r & Hr & <-). split.
    + apply (col_levels_In vf col_incident_outcome r wf_valid_frame Hr).
    + destruct (aggregated_covers _ Hr) as (n & Hn).
      eexists. split; [exact Hn|]. unfold is_state. simpl.
      apply String.eqb_refl.
Qed.

Lemma pivot_row_counts o :
  map (pivot_cell aggregated o) types = map Fin (map (cnt o) types).
Proof.
  rewrite map_map. apply map_ext. intros e.
  apply (pivot_cell_count vf o e wf_valid_frame).
Qed.

Lemma cell_counts_nonneg o : Forall (fun q => 0 <= q) (map (cnt o) types).
Proof.
  apply Forall_forall. intros q Hq. apply in_map_iff in Hq as (e & <- & _).
  apply Qcount_nonneg.
Qed.

Lemma row_total_pos o : In o outcomes -> 1 <= Qsum (map (cnt o) types).
Proof.
  intros Ho. apply bar_outcomes_In in Ho as (r & Hr & <-).
  apply Qle_trans with (cnt (incident_outcome r) (establishment_type r)).
  - apply Qcount_pos with (x := r). apply filter_In. split; [exact Hr|].
    unfold in_cell. now rewrite !String.eqb_refl.
  - apply Qsum_member_le; [apply cell_counts_nonneg|].
    apply in_map. apply bar_types_In. eauto.
Qed.

(** Across the columns, the counts of an outcome add up to the number of
    its records. *)
Lemma cross_tab_total o :
  Qsum (map (cnt o) types) == outcome_count df state o.
Proof.
  assert (Hnd : NoDup (map (fun e => [o; e]) types)).
  { apply Injective_map_NoDup.
    - intros a b E. now inversion E.
    - unfold bar_types. apply NoDup_filter, col_levels_NoDup, wf_valid_frame. }
  pose proof (Qsum_groups (fun _ => 1) bar_cols valid Hnd) as H.
  rewrite map_map in H. rewrite sum_of_one in H.
  unfold outcome_count.
  rewrite <- (filter_ext_in
                (fun r => mem_key (row_key bar_cols r)
                                  (map (fun e => [o; e]) types))).
  - rewrite <- H. apply Qsum_ext. intros e _. unfold cell_count.
    rewrite sum_of_one.
    rewrite (filter_ext (in_group bar_cols [o; e]) (in_cell o e));
      [reflexivity | apply in_group_cell].
  - intros r Hr. destruct (String.eqb (incident_outcome r) o) eqn:E.
    + apply String.eqb_eq in E. subst o. apply mem_key_In.
      apply in_map_iff. exists (establishment_type r).
      split; [reflexivity|]. apply bar_types_In. eauto.
    + destruct (mem_key _ _) eqn:M; [|reflexivity].
      apply mem_key_In, in_map_iff in M as (e & Ee & _).
      inversion Ee; subst. rewrite String.eqb_refl in E. discriminate.
Qed.


End StackedBar.

(* ================================================================== *)
(** * Radar scaling *)
(* ================================================================== *)

Lemma mapM_cons_inv {A B} (f : A -> option B) a l bs :
  mapM f (a :: l) = Some bs ->
  exists b bs', f a = Some b /\ bs = b :: bs' /\ mapM f l = Some bs'.
Proof.
  simpl. destruct (f a) as [b|]; [|discriminate].
  destruct (mapM f l) as [bs'|]; [|discriminate].
  intros H. inversion H. eauto.
Qed.

Ltac mapM_inv :=
  repeat match goal with
         | H : mapM _ (_ :: _) = Some _ |- _ =>
             apply mapM_cons_inv in H as (? & ? & ? & -> & H)
         | H : mapM _ [] = Some _ |- _ => inversion H; subst; clear H
         end.

Ltac bind_inv H :=
  match type of H with
  | match ?x with _ => _ end = Some _ =>
      let E := fresh "E" in
      destruct x eqn:E; [|discriminate H]
  end.

Lemma radar_rows_scaled g radar state out :
  radar_rows g radar state = Some out ->
  Forall (scaled_by g) out /\ map kpi out = radar_metrics.
Proof.
  unfold radar_rows, calculate_mean_values, radar_metrics. intros H.
  destruct (state_positions state radar) as [|i [|]]; try discriminate.
  bind_inv H. mapM_inv. cbn [combine] in H.
  bind_inv H. mapM_inv.
  bind_inv H. mapM_inv. cbn [combine] in H.
  bind_inv H. mapM_inv.
  inversion H; subst; clear H.
  repeat match goal with
         | H : match ?x with _ => _ end = Some _ |- _ =>
             let E := fresh "E" in
             destruct x eqn:E; [|discriminate H]
         | H : Some _ = Some _ |- _ => inversion H; subst; clear H
         end.
  split; [|reflexivity].
  repeat constructor; unfold scaled_by; cbn [kpi value scaled_value mean_value
                                               scaled_mean_value]; eauto 10.
Qed.

Lemma scale_formula (vmin vmax v : Q) :
  vmin < vmax ->
  scale (Fin vmin) (Fin vmax) (Fin v) = Fin ((v - vmin) / (vmax - vmin)).
Proof.
  intros H. unfold scale, fgtb.
  rewrite (proj2 (Qlt_bool_iff vmin vmax) H). unfold fsub, fneg, fadd, fdiv.
  rewrite Qeq_bool_pos; [reflexivity|].
  apply (Qplus_lt_l _ _ vmin). ring_simplify. exact H.
Qed.

Lemma scale_degenerate (vmin vmax v : float64) :
  fgtb vmax vmin = false -> scale vmin vmax v = Fin 0.
Proof. unfold scale. now intros ->. Qed.

Lemma fgtb_irrefl x : fgtb x x = false.
Proof.
  destruct x; simpl; try reflexivity.
  unfold Qlt_bool. rewrite (proj2 (Qle_bool_iff q q) (Qle_refl q)). reflexivity.
Qed.

Lemma scale_unit_interval (vmin vmax v : Q) :
  vmin <= v <= vmax ->
  exists q, scale (Fin vmin) (Fin vmax) (Fin v) = Fin q /\ 0 <= q <= 1.
Proof.
  intros [Hlo Hhi].
  destruct (fgtb (Fin vmax) (Fin vmin)) eqn:E.
  - apply Qlt_bool_iff in E. rewrite (scale_formula v E).
    eexists. split; [reflexivity|].
    assert (Hd : 0 < vmax - vmin)
      by (apply (Qplus_lt_l _ _ vmin); ring_simplify; exact E).
    split.
    + apply Qle_shift_div_l; [exact Hd|]. rewrite Qmult_0_l.
      apply (Qplus_le_l _ _ vmin). ring_simplify. exact Hlo.
    + apply Qle_shift_div_r; [exact Hd|]. rewrite Qmult_1_l.
      apply (Qplus_le_l _ _ vmin). ring_simplify. exact Hhi.
  - rewrite (scale_degenerate _ _ _ E). exists 0. split; [reflexivity|].
    split; [apply Qle_refl | discriminate].
Qed.

(** X20.  Every [scaled_value] and [scaled_mean_value] of a radar table
    is [scale] applied to the row's value, respectively mean, with the
    global minimum and maximum of the row's KPI, and the rows come in the
    order of the metric list.  [scale] computes (value - min) / (max - min)
    when max > min and returns 0 otherwise, in particular when max equals
    min.  Its result lies in [0,1] whenever the value lies between the
    minimum and the maximum it is given. *)
Theorem radar_scaling (g : Globals) (df : FrameObj) (state : string)
  (out : list RadarRow) (g' : Globals)
  (H : prepare_radar_data g df state = (Some out, g')) :
  (forall r, In r out -> scaled_by g r)
  /\ map kpi out = radar_metrics
  /\ (forall vmin vmax v : Q,
        vmin < vmax ->
        scale (Fin vmin) (Fin vmax) (Fin v) = Fin ((v - vmin) / (vmax - vmin)))
  /\ (forall vmin vmax v, fgtb vmax vmin = false -> scale vmin vmax v = Fin 0)
  /\ (forall m v, scale m m v = Fin 0)
  /\ (forall vmin vmax v : Q,
        vmin <= v <= vmax ->
        exists q, scale (Fin vmin) (Fin vmax) (Fin v) = Fin q /\ 0 <= q <= 1).
Proof.
  assert (Hrows : Forall (scaled_by g) out /\ map kpi out = radar_metrics).
  { unfold prepare_radar_data in H.
    destruct (Nat.eqb (oid df) (oid (data g))); inversion H as [[Hr Hg]].
    - apply radar_rows_scaled in Hr. exact Hr.
    - apply radar_rows_scaled in Hr. subst. exact Hr. }
  destruct Hrows as [Hall Hk].
  split; [apply Forall_forall, Hall|]. split; [exact Hk|].
  split; [apply scale_formula|].
  split; [apply scale_degenerate|].
  split; [intros m v; apply scale_degenerate, fgtb_irrefl|].
  apply scale_unit_interval.
Qed.

(* ================================================================== *)
(** * Empty record sets *)
(* ================================================================== *)

Lemma filter_none {A} (l : list A) : filter (fun _ => false) l = [].
Proof. induction l; simpl; auto. Qed.

Lemma groupby_observed_empty df cols :
  rows df = [] -> groupby true df cols = [].
Proof.
  intros H. unfold groupby, group_keys. rewrite H. simpl.
  now rewrite filter_none.
Qed.

Lemma radar_rows_length g radar state out :
  radar_rows g radar state = Some out -> List.length out = 5%nat.
Proof.
  intros H. apply radar_rows_scaled in H as [_ H].
  rewrite <- (length_map kpi), H. reflexivity.
Qed.


(* ================================================================== *)
(** * The module loads; what the radar fast path leaves behind *)
(* ================================================================== *)

(** Module initialisation always succeeds: the five metric columns it
    reads are the columns of the score table. *)
Lemma load_module_total d : exists g, load_module d = Some g.
Proof. unfold load_module. simpl. eauto. Qed.

Lemma sample_globals_loaded : load_module sample = Some sample_globals.
Proof. reflexivity. Qed.

(** C7.  What the code does on its fast path.  Called with the base
    dataset object, [prepare_radar_data] hands the module-level score
    table to [prepare_mean_radar_data], and the state it leaves holds that
    table with the columns [mean_*] added: on the sample the table goes
    from five value columns to ten, and a second call adds five more.
    The base dataset and the three statistics dictionaries stay as they
    were. *)
Theorem radar_fast_path_extends_score_table :
  (forall g state,
     region_safety_score (snd (prepare_radar_data g (data g) state))
     = prepare_mean_radar_data (region_safety_score g))
  /\ map fst (tcols (region_safety_score sample_globals)) = radar_metrics
  /\ (exists out, fst sample_radar = Some out)
  /\ map fst (tcols (region_safety_score (snd sample_radar)))
     = (radar_metrics ++ map (append "mean_") radar_metrics)%list
  /\ region_safety_score (snd sample_radar)
     <> region_safety_score sample_globals
  /\ List.length
       (tcols (region_safety_score
                 (snd (prepare_radar_data (snd sample_radar)
                                          (data (snd sample_radar)) "CA"))))
     = 15%nat
  /\ data (snd sample_radar) = data sample_globals
  /\ min_metric_values (snd sample_radar) = min_metric_values sample_globals
  /\ max_metric_values (snd sample_radar) = max_metric_values sample_globals
  /\ mean_metric_values (snd sample_radar) = mean_metric_values sample_globals.
Proof.
  split.
  { intros g state. unfold prepare_radar_data. now rewrite Nat.eqb_refl. }
  split; [reflexivity|].
  split; [vm_compute; eauto|].
  split; [vm_compute; reflexivity|].
  split.
  { intros E. apply (f_equal (fun t => List.length (tcols t))) in E.
    vm_compute in E. discriminate E. }
  split; [vm_compute; reflexivity|].
  repeat split.
Qed.

(* ================================================================== *)
(** * The three rates that guard their denominator *)
(* ================================================================== *)

Lemma sum_of_nonneg (f : Incident -> Q) g :
  (forall r, In r g -> 0 <= f r) -> 0 <= sum_of f g.
Proof.
  intros H. apply Qsum_nonneg, Forall_forall. intros q Hq.
  apply in_map_iff in Hq as (r & <- & Hr). auto.
Qed.

Lemma guarded_ratio_nonneg a b c :
  0 <= a -> 0 <= c ->
  finite_nonneg (np_where (fgtb (Fin b) (Fin 0))
                          (fmul (fdiv (Fin a) (Fin b)) (Fin c)) (Fin 0))
  = true.
Proof.
  intros Ha Hc. unfold np_where, fgtb.
  destruct (Qlt_bool 0 b) eqn:E; [|reflexivity].
  apply Qlt_bool_iff in E. unfold fdiv. rewrite (Qeq_bool_pos E). simpl.
  apply Qle_bool_iff. apply Qmult_le_0_compat; [|exact Hc].
  apply Qle_shift_div_l; [exact E|]. now rewrite Qmult_0_l.
Qed.

(** X19.  Incident, fatality and lost-workday rate are finite and
    non-negative on every record set with non-negative counts, for every
    grouping: their guard is on the quantity they divide by. *)
Lemma guarded_rates_finite_nonneg (df : DataFrame) (column : option Col) :
  (forall r, In r (rows df) ->
             0 <= death r /\ 0 <= dafw_num_away r /\ 0 <= djtr_num_tr r) ->
  Forall (fun kv => finite_nonneg (snd kv) = true)
         (compute_agg_incident_rate df column)
  /\ Forall (fun kv => finite_nonneg (snd kv) = true)
            (compute_agg_fatality_rate df column)
  /\ Forall (fun kv => finite_nonneg (snd kv) = true)
            (compute_agg_lost_workday_rate df column).
Proof.
  intros Hpos.
  assert (Hgroup : forall k g,
             In (k, g) (groupby false df (agg_cols column)) ->
             forall r, In r g -> In r (rows df)).
  { intros k g Hg r Hr. apply groupby_In in Hg as [_ ->].
    now apply filter_In in Hr as [Hr _]. }
  split; [|split]; apply Forall_forall; intros [k v] Hin; cbn [snd].
  - unfold compute_agg_incident_rate in Hin.
    apply in_map_iff in Hin as ([k' [n oh]] & E & H). cbn [fst snd] in E.
    inversion E; subst k' v; clear E.
    apply merge_left_In in H as [Hl _].
    apply agg_In in Hl as (g & _ & ->).
    destruct oh as [h|]; [|reflexivity]. cbn [of_cell].
    apply guarded_ratio_nonneg; [apply Qcount_nonneg | discriminate].
  - unfold compute_agg_fatality_rate in Hin.
    apply in_map_iff in Hin as ([k' [d n]] & E & H). cbn [fst snd] in E.
    inversion E; subst k' v; clear E.
    apply agg_In in H as (g & Hg & E). inversion E; subst d n; clear E.
    apply guarded_ratio_nonneg; [|discriminate].
    apply sum_of_nonneg. intros r Hr. apply (Hpos r (Hgroup k g Hg r Hr)).
  - unfold compute_agg_lost_workday_rate in Hin.
    apply in_map_iff in Hin as ([k' [[a t] n]] & E & H). cbn [fst snd] in E.
    inversion E; subst k' v; clear E.
    apply agg_In in H as (g & Hg & E). inversion E; subst a t n; clear E.
    unfold np_where, fgtb, fadd.
    destruct (Qlt_bool 0 (count_rows g)) eqn:Ec; [|reflexivity].
    apply Qlt_bool_iff in Ec. unfold fdiv. rewrite (Qeq_bool_pos Ec). simpl.
    apply Qle_bool_iff. apply Qle_shift_div_l; [exact Ec|].
    rewrite Qmult_0_l, <- (Qplus_0_l 0).
    apply Qplus_le_compat; apply sum_of_nonneg; intros r Hr;
      apply (Hpos r (Hgroup k g Hg r Hr)).
Qed.

(* ================================================================== *)
(** * Workforce exposure with no employees on record *)
(* ================================================================== *)

(** C2.  What the code does.  [compute_workforce_exposure] guards its
    ratio with [case_number > 0] and not with the denominator: for a state
    whose companies report no employees it yields [+inf], which the danger
    score inherits; with a secondary column a group whose company was
    de-duplicated into another category has no denominator at all and
    yields [NaN].  [compute_agg_incident_rate], guarded on its denominator,
    yields 0 on the same records. *)
Theorem workforce_exposure_without_employees :
  compute_workforce_exposure idle_company None = [(["CA"], PInf)]
  /\ tcolumn (compute_agg_safety_score idle_company None) "danger_score"
     = Some [PInf]
  /\ compute_agg_incident_rate idle_company None = [(["CA"], Fin 0)]
  /\ lookup_key ["CA"; "Burn"]
       (compute_workforce_exposure sample (Some col_type_of_incident))
     = Some NaN.
Proof. repeat split; vm_compute; reflexivity. Qed.

(* ================================================================== *)
(** * Click payloads *)
(* ================================================================== *)

(** C8.  What the handlers do with payloads that lack the expected
    fields.  The radar handler ignores a missing payload, a payload
    without [points] and an unknown label, but an empty [points] list is
    an [IndexError].  The bar handler treats only a missing or empty
    payload as no update; a payload without [points] goes on to rebuild
    both charts and writes [None] over the stored outcome, and an empty
    [points] list is an [IndexError]. *)
Theorem click_payloads_without_points :
  update_on_radar_click None = Return no_update
  /\ update_on_radar_click (Some [("other", JNull)]) = Return no_update
  /\ update_on_radar_click
       (Some [("points", JList [JDict [("theta", JStr "No Such KPI")]])])
     = Return no_update
  /\ update_on_radar_click (Some [("points", JList [])]) = Raise IndexError
  /\ update_graphs_on_barchart_click sample_globals None 1 4 [] "CA"
                                     (JStr "Death")
     = Raise PreventUpdate
  /\ (exists treemap scatter,
        update_graphs_on_barchart_click sample_globals
          (Some [("other", JNull)]) 1 4 [] "CA" (JStr "Death")
        = Return (treemap, scatter, JNull))
  /\ update_graphs_on_barchart_click sample_globals
       (Some [("points", JList [])]) 1 4 [] "CA" (JStr "Death")
     = Raise IndexError.
Proof.
  repeat split; try reflexivity.
  vm_compute. eauto.
Qed.

(* ================================================================== *)
(** * Instances *)
(* ================================================================== *)

Lemma incident_rate_by_state_witness :
  wf_frame sample_categorical = true
  /\ In "CA" (map state_code (rows sample_categorical))
  /\ lookup_key ["CA"] (compute_agg_incident_rate sample_categorical None)
     = Some (incident_rate_formula sample_categorical "CA").
Proof.
  split; [reflexivity|]. split; [simpl; tauto|].
  apply (incident_rate_by_state sample_categorical "CA");
    [reflexivity | simpl; tauto].
Defined.

(** Company "x" has two rows in CA: three incidents over 2000 + 500 hours. *)
Example incident_rate_counts_company_once :
  option_map (feqb (Fin (3 / 2500 * e5)))
             (lookup_key ["CA"] (compute_agg_incident_rate sample None))
  = Some true.
Proof. vm_compute. reflexivity. Qed.

Lemma metric_rows_unique_companies_once_witness :
  wf_frame sample_categorical = true
  /\ NoDup (map fst (compute_agg_incident_rate sample_categorical
                                               (Some col_type_of_incident)))
  /\ Qsum (map (fun k =>
                  sum_of total_hours_worked
                         (filter (in_group (agg_cols (Some col_type_of_incident))
                                           k)
                                 (companies_once sample_categorical "CA")))
               (filter (is_state "CA")
                       (map fst (compute_agg_incident_rate
                                   sample_categorical
                                   (Some col_type_of_incident)))))
     == sum_of total_hours_worked (companies_once sample_categorical "CA").
Proof.
  split; [reflexivity|].
  destruct (@metric_rows_unique_companies_once sample_categorical
              (Some col_type_of_incident))
    as ((Hnd & _) & _ & _ & _ & _ & Hsum); [reflexivity|].
  split; [exact Hnd|].
  exact (proj1 (Hsum "CA" total_hours_worked)).
Defined.

(** Company "x" of CA has a fall and a burn; its hours go to the group of
    its first row, the fall, and the burn group has none: the incident
    rate of (CA, Burn) is 0, and (CA, Fall) has the 2000 + 500 hours of
    the two companies of the state. *)
Example incident_rate_company_in_one_group :
  option_map (feqb (Fin 0))
             (lookup_key ["CA"; "Burn"]
                (compute_agg_incident_rate sample (Some col_type_of_incident)))
  = Some true
  /\ option_map (feqb (Fin (2 / 2500 * e5)))
                (lookup_key ["CA"; "Fall"]
                   (compute_agg_incident_rate sample
                                              (Some col_type_of_incident)))
     = Some true.
Proof. split; vm_compute; reflexivity. Qed.

Lemma filter_data_contract_witness :
  date_min (rows sample) = Some 1%Z
  /\ date_max (rows sample) = Some 4%Z
  /\ filter_data {| oid := 0; frame := sample |} 1 4 [] 1
     = ({| oid := 0; frame := sample |}, 1%nat).
Proof.
  split; [reflexivity|]. split; [reflexivity|].
  apply (filter_data_contract {| oid := 0; frame := sample |} 1 4 [] 1);
    reflexivity.
Defined.

Lemma radar_scaling_witness :
  prepare_radar_data sample_globals (data sample_globals) "CA"
  = (match fst sample_radar with Some out => Some out | None => None end,
     snd sample_radar)
  /\ forall r, In r (match fst sample_radar with Some out => out | None => [] end)
               -> scaled_by sample_globals r.
Proof.
  split; [vm_compute; reflexivity|].
  apply (@radar_scaling sample_globals (data sample_globals) "CA"
           (match fst sample_radar with Some out => out | None => [] end)
           (snd sample_radar)).
  vm_compute. reflexivity.
Defined.

(** C5.  What the code does.  The radar preparer scales the values of a
    filtered frame with the minimum and maximum of the unfiltered dataset,
    and nothing confines them to that range.  On the sample filtered to
    day 3 the one CA row is a death at a company with 2000 hours: the
    fatality rate 10000 against the global range 0 .. 10000/3 is scaled to
    3, the incident rate 50 against 100 .. 120 to -2.5, and the scaled
    means, taken over the one state of the filtered table, are the
    same. *)
Theorem filtered_scaled_value_outside_unit_interval :
  exists ir fr rest,
    fst (prepare_radar_data sample_globals sample_day3 "CA")
    = Some (ir :: fr :: rest)
    /\ (kpi ir = "incident_rate"
        /\ feqb (value ir) (Fin 50) = true
        /\ option_map (feqb (Fin 100))
                      (dict_get (min_metric_values sample_globals)
                                "incident_rate") = Some true
        /\ option_map (feqb (Fin 120))
                      (dict_get (max_metric_values sample_globals)
                                "incident_rate") = Some true
        /\ feqb (scaled_value ir) (Fin (-5 # 2)) = true
        /\ feqb (scaled_mean_value ir) (Fin (-5 # 2)) = true
        /\ ~ unit_float (scaled_value ir)
        /\ ~ unit_float (scaled_mean_value ir))
    /\ (kpi fr = "fatality_rate"
        /\ feqb (value fr) (Fin 10000) = true
        /\ option_map (feqb (Fin 0))
                      (dict_get (min_metric_values sample_globals)
                                "fatality_rate") = Some true
        /\ option_map (feqb (Fin (10000 / 3)))
                      (dict_get (max_metric_values sample_globals)
                                "fatality_rate") = Some true
        /\ feqb (scaled_value fr) (Fin 3) = true
        /\ feqb (scaled_mean_value fr) (Fin 3) = true
        /\ ~ unit_float (scaled_value fr)
        /\ ~ unit_float (scaled_mean_value fr)).
Proof.
  do 3 eexists. split; [vm_compute; reflexivity|].
  split.
  - repeat (split; [vm_compute; reflexivity|]).
    split; intros (q & E & Hq & _); inversion E; subst q;
      vm_compute in Hq; apply Hq; reflexivity.
  - repeat (split; [vm_compute; reflexivity|]).
    split; intros (q & E & _ & Hq); inversion E; subst q;
      vm_compute in Hq; apply Hq; reflexivity.
Qed.




Lemma treemap_metric_total_witness :
  wf_frame sample_categorical = true
  /\ In "danger_score" (map fst kpi_name_function_mapping)
  /\ exists out,
       prepare_treemap_data sample_categorical "CA" "danger_score" = Some out
       /\ List.length out
          = List.length
              (groupby true
                 (with_rows (with_rows sample_categorical
                                       (state_rows sample_categorical "CA"))
                    (filter assigned_occupation
                            (state_rows sample_categorical "CA")))
                 [col_soc_description_1; col_soc_description_2]).
Proof.
  split; [reflexivity|]. split; [simpl; tauto|].
  apply (@treemap_metric_total sample_categorical "CA" "danger_score");
    [reflexivity | simpl; tauto].
Defined.

(* ================================================================== *)
(** * Sorted distinct values: module constants and plain group keys *)
(* ================================================================== *)

Lemma leb_ne_ltb a b : String.leb a b = true -> a <> b -> String.ltb a b = true.
Proof.
  unfold String.leb, String.ltb. intros H Hne.
  destruct (String.compare a b) eqn:E; try reflexivity; try discriminate.
  apply String.compare_eq_iff in E. contradiction.
Qed.

Lemma not_leb_ltb a b : String.leb a b = false -> String.ltb b a = true.
Proof.
  unfold String.leb, String.ltb. rewrite (String.compare_antisym b a).
  destruct (String.compare a b); simpl; congruence.
Qed.

Lemma insert_sorted_strict s l :
  Sorted (fun a b => String.ltb a b = true) l -> ~ In s l ->
  Sorted (fun a b => String.ltb a b = true) (insert_sorted s l).
Proof.
  induction l as [|x l IH]; simpl; intros Hs Hn.
  - repeat constructor.
  - destruct (String.leb s x) eqn:E.
    + constructor; [exact Hs|]. constructor.
      apply leb_ne_ltb; [exact E | intros ->; apply Hn; now left].
    + apply Sorted_inv in Hs as [Hs Hhd].
      constructor; [apply IH; [exact Hs | tauto]|].
      destruct l as [|y l]; simpl.
      * constructor. now apply not_leb_ltb.
      * destruct (String.leb s y); constructor;
          [now apply not_leb_ltb | now inversion Hhd].
Qed.

Lemma sort_strings_strict l :
  NoDup l -> Sorted (fun a b => String.ltb a b = true) (sort_strings l).
Proof.
  induction 1 as [|x l Hx Hl IH]; simpl; [constructor|].
  apply insert_sorted_strict; [exact IH | now rewrite sort_strings_In].
Qed.

(** X1.  The module constants [incident_types] and [state_codes] list the
    values of their column exactly, each once, in strictly ascending
    order. *)
Theorem module_constants_sorted_distinct (d : DataFrame) :
  (Sorted (fun a b => String.ltb a b = true) (state_codes d)
   /\ NoDup (state_codes d)
   /\ forall s, In s (state_codes d) <->
                exists r, In r (rows d) /\ state_code r = s)
  /\ (Sorted (fun a b => String.ltb a b = true) (incident_types d)
      /\ NoDup (incident_types d)
      /\ forall t, In t (incident_types d) <->
                   exists r, In r (rows d) /\ type_of_incident r = t).
Proof.
  unfold state_codes, incident_types.
  split; (split; [apply sort_strings_strict, NoDup_nodup|]);
    (split; [apply uniques_NoDup|]);
    intros x; rewrite uniques_In, in_map_iff; simpl;
    split; intros (r & H1 & H2); exists r; auto.
Qed.

(* ================================================================== *)
(** * Fatality, lost-workday and workforce-exposure rates per state *)
(* ================================================================== *)

Lemma guarded_ratio a n c :
  np_where (fgtb (Fin n) (Fin 0)) (fmul (fdiv (Fin a) (Fin n)) (Fin c)) (Fin 0)
  = if Qlt_bool 0 n then Fin (a / n * c) else Fin 0.
Proof.
  unfold np_where, fgtb. destruct (Qlt_bool 0 n) eqn:E; [|reflexivity].
  apply Qlt_bool_iff in E. unfold fdiv. now rewrite (Qeq_bool_pos E).
Qed.

Lemma fatality_rate_row df k v :
  In (k, v) (compute_agg_fatality_rate df None) ->
  exists s, k = [s] /\ v = fatality_rate_formula df s.
Proof.
  unfold compute_agg_fatality_rate. intros H.
  apply in_map_iff in H as ([k' [d n]] & E & H). cbn [fst snd] in E.
  inversion E; subst k' v; clear E.
  apply agg_In in H as (g & Hg & E). inversion E; subst d n; clear E.
  apply groupby_In in Hg as [Hk ->].
  destruct (group_keys_single _ _ _ _ Hk) as (s & -> & _).
  exists s. split; [reflexivity|].
  unfold fatality_rate_formula, count_rows.
  rewrite state_group_rows. fold (state_rows df s). apply guarded_ratio.
Qed.

Lemma lost_workday_rate_row df k v :
  In (k, v) (compute_agg_lost_workday_rate df None) ->
  exists s, k = [s] /\ v = lost_workday_rate_formula df s.
Proof.
  unfold compute_agg_lost_workday_rate. intros H.
  apply in_map_iff in H as ([k' [[a t] n]] & E & H). cbn [fst snd] in E.
  inversion E; subst k' v; clear E.
  apply agg_In in H as (g & Hg & E). inversion E; subst a t n; clear E.
  apply groupby_In in Hg as [Hk ->].
  destruct (group_keys_single _ _ _ _ Hk) as (s & -> & _).
  exists s. split; [reflexivity|].
  unfold lost_workday_rate_formula, count_rows.
  rewrite state_group_rows. fold (state_rows df s).
  unfold np_where, fgtb, fadd.
  destruct (Qlt_bool 0 (Qcount (state_rows df s))) eqn:E; [|reflexivity].
  apply Qlt_bool_iff in E. unfold fdiv. now rewrite (Qeq_bool_pos E).
Qed.

Lemma state_rows_count_pos df s :
  In s (map state_code (rows df)) -> Qlt_bool 0 (Qcount (state_rows df s)) = true.
Proof.
  intros H. apply in_map_iff in H as (r & <- & Hr).
  apply Qlt_bool_iff. apply Qlt_le_trans with 1; [reflexivity|].
  apply Qcount_pos with (x := r). apply filter_In.
  split; [exact Hr | apply String.eqb_refl].
Qed.

Lemma state_key_present df s :
  wf_frame df = true -> In s (map state_code (rows df)) ->
  In [s] (group_keys false df [col_state_code]).
Proof.
  intros Hwf H. apply in_map_iff in H as (r & <- & Hr).
  apply (row_key_in_group_keys false df [col_state_code] r Hwf Hr).
Qed.

(** X2.  Grouped by state alone, a state that has records gets the
    fatality rate sum(death) / count * 1e4 and the lost-workday rate
    (sum(days away) + sum(days restricted)) / count over its rows; every
    row of either table is a state row carrying its formula; the row of a
    state without records, which a categorical state column can have,
    carries 0 in both tables. *)
Theorem fatality_and_lost_workday_by_state (df : DataFrame) (s : string)
  (Hwf : wf_frame df = true) (Hs : In s (map state_code (rows df))) :
  lookup_key [s] (compute_agg_fatality_rate df None)
    = Some (Fin (sum_of death (state_rows df s) / Qcount (state_rows df s) * e4))
  /\ lookup_key [s] (compute_agg_lost_workday_rate df None)
     = Some (Fin ((sum_of dafw_num_away (state_rows df s)
                   + sum_of djtr_num_tr (state_rows df s))
                  / Qcount (state_rows df s)))
  /\ (forall k v, In (k, v) (compute_agg_fatality_rate df None) ->
        exists s', k = [s'] /\ v = fatality_rate_formula df s')
  /\ (forall k v, In (k, v) (compute_agg_lost_workday_rate df None) ->
        exists s', k = [s'] /\ v = lost_workday_rate_formula df s')
  /\ (forall s' v,
        state_rows df s' = [] ->
        In ([s'], v) (compute_agg_fatality_rate df None)
        \/ In ([s'], v) (compute_agg_lost_workday_rate df None) ->
        v = Fin 0).
Proof.
  pose proof (state_key_present df s Hwf Hs) as Hk.
  pose proof (state_rows_count_pos df s Hs) as Hn.
  split; [|split; [|split; [|split]]].
  - destruct (@lookup_key_some float64 [s] (compute_agg_fatality_rate df None))
      as (v & Hv); [now rewrite fatality_rate_keys|].
    rewrite Hv. f_equal.
    destruct (fatality_rate_row df _ _ (lookup_key_In _ _ Hv)) as (s' & E & ->).
    inversion E; subst s'. unfold fatality_rate_formula. now rewrite Hn.
  - destruct (@lookup_key_some float64 [s]
                (compute_agg_lost_workday_rate df None)) as (v & Hv);
      [now rewrite lost_workday_rate_keys|].
    rewrite Hv. f_equal.
    destruct (lost_workday_rate_row df _ _ (lookup_key_In _ _ Hv))
      as (s' & E & ->).
    inversion E; subst s'. unfold lost_workday_rate_formula. now rewrite Hn.
  - apply fatality_rate_row.
  - apply lost_workday_rate_row.
  - intros s' v He [H|H].
    + apply fatality_rate_row in H as (s'' & E & ->).
      inversion E; subst s''. unfold fatality_rate_formula.
      now rewrite He.
    + apply lost_workday_rate_row in H as (s'' & E & ->).
      inversion E; subst s''. unfold lost_workday_rate_formula.
      now rewrite He.
Qed.

Lemma workforce_exposure_row df k v :
  In (k, v) (compute_workforce_exposure df None) ->
  exists s, k = [s] /\ v = workforce_exposure_formula df s.
Proof.
  unfold compute_workforce_exposure. intros H.
  apply in_map_iff in H as ([k' [n oh]] & E & H). simpl in E.
  inversion E; subst k' v; clear E.
  apply merge_left_In in H as [Hl Hr].
  apply agg_In in Hl as (g & Hg & ->).
  apply groupby_In in Hg as [Hk ->].
  destruct (group_keys_single _ _ _ _ Hk) as (s & -> & _).
  exists s. split; [reflexivity|].
  unfold workforce_exposure_formula, companies_once, count_rows.
  rewrite state_group_rows. fold (state_rows df s).
  destruct oh as [h|]; simpl of_cell.
  - destruct Hr as (k' & Hh & Ek). apply key_eqb_eq in Ek. subst k'.
    apply agg_In in Hh as (g & Hg & ->).
    apply groupby_In in Hg as [_ ->].
    rewrite state_group_rows, drop_duplicates_rows, first_per_key_state.
    reflexivity.
  - assert (Hnone : state_rows df s = []).
    { destruct (state_rows df s) as [|r rs] eqn:Es; [reflexivity|].
      exfalso.
      assert (Hin : In [s] (group_keys false (drop_duplicates df)
                                       [col_state_code])).
      { apply state_key_survives_dedup; [exact Hk|]. rewrite Es. discriminate. }
      specialize (Hr [s] (sum_of annual_average_employees
                            (filter (in_group [col_state_code] [s])
                                    (rows (drop_duplicates df))))).
      rewrite key_eqb_refl in Hr. discriminate Hr.
      apply agg_In. eexists. split; [|reflexivity].
      apply groupby_In. auto. }
    rewrite Hnone. reflexivity.
Qed.

(** X3.  Grouped by state alone, a state that has records gets the
    workforce exposure count / (employees summed once per company) * 1e2
    when that sum is positive, and [+inf] when the sum is zero: the
    guard of this metric never replaces the ratio for a state with
    records. *)
Theorem workforce_exposure_by_state (df : DataFrame) (s : string)
  (Hwf : wf_frame df = true) (Hs : In s (map state_code (rows df))) :
  let n := Qcount (state_rows df s) in
  let d := sum_of annual_average_employees (companies_once df s) in
  lookup_key [s] (compute_workforce_exposure df None)
    = Some (fmul (fdiv (Fin n) (Fin d)) (Fin e2))
  /\ (0 < d -> lookup_key [s] (compute_workforce_exposure df None)
               = Some (Fin (n / d * e2)))
  /\ (d == 0 -> lookup_key [s] (compute_workforce_exposure df None)
                = Some PInf)
  /\ (forall k v, In (k, v) (compute_workforce_exposure df None) ->
        exists s', k = [s'] /\ v = workforce_exposure_formula df s').
Proof.
  intros n d.
  pose proof (state_key_present df s Hwf Hs) as Hk.
  pose proof (state_rows_count_pos df s Hs) as Hn.
  assert (Hlook : lookup_key [s] (compute_workforce_exposure df None)
                  = Some (fmul (fdiv (Fin n) (Fin d)) (Fin e2))).
  { destruct (@lookup_key_some float64 [s] (compute_workforce_exposure df None))
      as (v & Hv); [now rewrite workforce_exposure_keys|].
    rewrite Hv. f_equal.
    destruct (workforce_exposure_row df _ _ (lookup_key_In _ _ Hv))
      as (s' & E & ->).
    inversion E; subst s'. unfold workforce_exposure_formula. now rewrite Hn. }
  split; [exact Hlook|]. split; [|split].
  - intros Hd. rewrite Hlook. unfold fdiv. now rewrite (Qeq_bool_pos Hd).
  - intros Hd. rewrite Hlook. unfold fdiv.
    rewrite (proj2 (Qeq_bool_iff d 0) Hd).
    apply Qlt_bool_iff in Hn. fold n in Hn.
    assert (Hnum : (Qnum n ?= 0)%Z = Gt).
    { apply Z.compare_gt_iff. unfold Qlt in Hn. cbn [Qnum Qden] in Hn.
      rewrite Z.mul_0_l, Z.mul_1_r in Hn. exact Hn. }
    rewrite Hnum. reflexivity.
  - apply workforce_exposure_row.
Qed.

(* ================================================================== *)
(** * The composite score table, column by column *)
(* ================================================================== *)

Lemma merge_left_skip {A B} (l : list (key * A)) (r : list (key * B)) k b :
  ~ In k (map fst l) -> merge_left l ((k, b) :: r) = merge_left l r.
Proof.
  unfold merge_left. induction l as [|[k' a] l IH]; intros Hn; [reflexivity|].
  match goal with
  | |- flat_map ?f ((k', a) :: l) = flat_map ?g ((k', a) :: l) =>
      change (f (k', a) ++ flat_map f l = g (k', a) ++ flat_map g l)%list
  end.
  rewrite IH by (intros H; apply Hn; now right).
  f_equal. cbn [fst snd filter].
  destruct (key_eqb k k') eqn:E; [|reflexivity].
  apply key_eqb_eq in E. subst. exfalso. apply Hn. now left.
Qed.

(** Two tables with the same distinct keys in the same order join row by
    row. *)
Lemma merge_left_aligned {A B} (l : list (key * A)) (r : list (key * B)) :
  map fst l = map fst r -> NoDup (map fst r) ->
  map (fun t => fst (snd t)) (merge_left l r) = map snd l
  /\ map (fun t => snd (snd t)) (merge_left l r)
     = map (fun kb => Some (snd kb)) r.
Proof.
  revert r. induction l as [|[k a] l IH]; intros [|[k' b] r] E Hnd;
    try discriminate; [split; reflexivity|].
  simpl in E. inversion E as [[Ek El]]. subst k'.
  inversion Hnd as [|? ? Hk Hr]; subst.
  assert (Hhead : merge_left ((k, a) :: l) ((k, b) :: r)
                  = (k, (a, Some b)) :: merge_left l r).
  { unfold merge_left at 1.
    match goal with
    | |- flat_map ?f ((k, a) :: l) = _ =>
        change (f (k, a) ++ flat_map f l = (k, (a, Some b)) :: merge_left l r)%list
    end.
    cbn [fst snd filter]. rewrite key_eqb_refl.
    assert (Hf : filter (fun kb : key * B => key_eqb (fst kb) k) r = []).
    { pose proof (filter_key_NoDup ((k, b) :: r) k Hnd) as Hlen.
      cbn [filter fst] in Hlen. rewrite key_eqb_refl in Hlen.
      destruct (filter (fun kb : key * B => key_eqb (fst kb) k) r);
        [reflexivity | simpl in Hlen; lia]. }
    rewrite Hf. cbn [map app]. f_equal.
    apply (merge_left_skip l r). now rewrite El. }
  rewrite Hhead. cbn [map fst snd].
  destruct (IH r El Hr) as [H1 H2]. now rewrite H1, H2.
Qed.

Lemma map_via {A B C} (f : A -> B) (g : B -> C) (h : A -> C) l :
  (forall a, h a = g (f a)) -> map h l = map g (map f l).
Proof. intros H. rewrite map_map. apply map_ext, H. Qed.

Lemma map4_map {A B} (f : B -> B -> B -> B -> B) (a b c d : A -> B) l :
  map4 f (map a l) (map b l) (map c l) (map d l)
  = map (fun t => f (a t) (b t) (c t) (d t)) l.
Proof. induction l; simpl; congruence. Qed.


(* ================================================================== *)
(** * Chained filters *)
(* ================================================================== *)

Lemma filter_data_wf df start_date end_date types next :
  wf_frame (frame df) = true ->
  wf_frame (frame (fst (filter_data df start_date end_date types next))) = true.
Proof.
  intros Hwf.
  pose proof (filter_data_rows df start_date end_date types next) as Hr.
  pose proof (filter_data_levels df start_date end_date types next) as Hl.
  destruct (frame (fst (filter_data df start_date end_date types next)))
    as [lv rs]. simpl in *. subst lv rs.
  apply (wf_with_rows (frame df) Hwf).
  intros r Hin. now apply filter_In in Hin as [Hin _].
Qed.

(** X5.  Filtering a filtered frame keeps the rows that pass both filters,
    so filtering twice with the same arguments changes nothing and the
    order of two filters does not matter; the result keeps the dtypes of
    the frame and, with them, the categorical invariant. *)
Theorem filter_data_chained (df : FrameObj) (s1 e1 s2 e2 : Z)
  (t1 t2 : list string) (n1 n2 : nat)
  (Hwf : wf_frame (frame df) = true) :
  let once := fst (filter_data df s1 e1 t1 n1) in
  let twice := fst (filter_data once s2 e2 t2 n2) in
  rows (frame twice)
    = filter (fun r => keeps s1 e1 t1 r && keeps s2 e2 t2 r) (rows (frame df))
  /\ rows (frame (fst (filter_data once s1 e1 t1 n2))) = rows (frame once)
  /\ rows (frame twice)
     = rows (frame (fst (filter_data (fst (filter_data df s2 e2 t2 n1))
                                     s1 e1 t1 n2)))
  /\ wf_frame (frame once) = true
  /\ wf_frame (frame twice) = true.
Proof.
  intros once twice. unfold twice, once.
  split; [|split; [|split; [|split]]].
  - now rewrite !filter_data_rows, filter_filter.
  - rewrite !filter_data_rows, filter_filter. apply filter_ext.
    intros r. now destruct (keeps s1 e1 t1 r).
  - rewrite !filter_data_rows, !filter_filter. apply filter_ext.
    intros r. apply andb_comm.
  - now apply filter_data_wf.
  - now apply filter_data_wf, filter_data_wf.
Qed.

(* ================================================================== *)
(** * Treemap leaves *)
(* ================================================================== *)

Lemma mapM_Forall2 {A B} (f : A -> option B) l bs :
  mapM f l = Some bs -> Forall2 (fun a b => f a = Some b) l bs.
Proof.
  revert bs; induction l as [|a l IH]; intros bs H.
  - inversion H. constructor.
  - apply mapM_cons_inv in H as (b & bs' & Hb & -> & H).
    constructor; auto.
Qed.

Lemma Forall2_In_r {A B} (P : A -> B -> Prop) l bs b :
  Forall2 P l bs -> In b bs -> exists a, In a l /\ P a b.
Proof.
  induction 1 as [|a b' l bs Hab _ IH]; simpl; [tauto|].
  intros [<-|Hb]; [eauto|]. destruct (IH Hb) as (a' & Ha & HP). eauto.
Qed.

Lemma Forall2_map_eq {A B C} (P : A -> B -> Prop) (f : A -> C) (g : B -> C)
  l bs :
  Forall2 P l bs -> (forall a b, P a b -> f a = g b) -> map f l = map g bs.
Proof.
  induction 1 as [|a b l bs Hab _ IH]; intros H; simpl; [reflexivity|].
  rewrite (H a b Hab), IH by exact H. reflexivity.
Qed.

Lemma treemap_frame_wf df state :
  wf_frame df = true ->
  wf_frame (with_rows (with_rows df (state_rows df state))
                      (filter assigned_occupation (state_rows df state)))
  = true.
Proof.
  intros Hwf. apply wf_with_rows; [apply wf_with_rows; [exact Hwf|]|].
  - intros x Hx. now apply filter_In in Hx as [Hx _].
  - intros x Hx. now apply filter_In in Hx as [Hx _].
Qed.

(** The metric of one treemap group is always there to be read. *)
Lemma treemap_group_metric df state kpi_name f k g :
  wf_frame df = true ->
  dict_get kpi_name_function_mapping kpi_name = Some f ->
  In (k, g)
     (groupby true
        (with_rows (with_rows df (state_rows df state))
                   (filter assigned_occupation (state_rows df state)))
        soc_cols) ->
  exists m,
    query_state_iloc_0_last
      (f (loc (with_rows df (state_rows df state)) (map index g)) None) state
    = Some m.
Proof.
  intros Hwf Hf Hg.
  apply groupby_In in Hg as [Hk ->].
  destruct (group_keys_observed _ _ _ Hk) as (r & Hr & Ek).
  cbn [rows with_rows] in *.
  set (temp := with_rows df (state_rows df state)).
  set (g := filter _ _).
  assert (Hrg : In r g).
  { apply filter_In. split; [exact Hr | now apply in_group_iff]. }
  apply (@one_state_table (loc temp (map index g)) state kpi_name f).
  - apply wf_with_rows; [apply wf_with_rows; [exact Hwf|]|].
    + intros x Hx. now apply filter_In in Hx as [Hx _].
    + intros x Hx. apply loc_rows in Hx as [Hx _]. exact Hx.
  - assert (Hin : In r (rows (loc temp (map index g)))).
    { apply loc_rows. split; [|now apply in_map].
      simpl. now apply filter_In in Hr as [Hr _]. }
    intros E. rewrite E in Hin. destruct Hin.
  - intros x Hx. apply loc_rows in Hx as [Hx _]. simpl in Hx.
    apply filter_In in Hx as [_ Hx]. now apply String.eqb_eq.
  - exact Hf.
Qed.

Lemma Qcount_groups cols (ks : list key) (rs : list Incident) :
  NoDup ks ->
  (forall r, In r rs -> In (row_key cols r) ks) ->
  Qsum (map (fun k => Qcount (filter (in_group cols k) rs)) ks) == Qcount rs.
Proof.
  intros Hnd Hcov.
  apply Qeq_trans
    with (sum_of (fun _ => 1)
                 (filter (fun r => mem_key (row_key cols r) ks) rs)).
  - rewrite <- (Qsum_groups (fun _ => 1) cols rs Hnd).
    apply Qsum_ext. intros k _. symmetry. apply sum_of_one.
  - rewrite filter_all by (intros r Hr; now apply mem_key_In, Hcov).
    apply sum_of_one.
Qed.

(** The leaves of the treemap table. *)
Lemma treemap_leaves (df : DataFrame) (state kpi_name : string)
  (Hwf : wf_frame df = true)
  (Hkpi : In kpi_name (map fst kpi_name_function_mapping)) :
  let assigned := filter assigned_occupation (state_rows df state) in
  exists out,
    prepare_treemap_data df state kpi_name = Some out
    /\ NoDup (map soc_key out)
    /\ (forall r, In r assigned ->
          In [soc_description_1 r; soc_description_2 r] (map soc_key out))
    /\ (forall leaf, In leaf out ->
          exists s1 s2,
            soc_key leaf = [s1; s2]
            /\ s1 <> "Insufficient info" /\ s1 <> "Not assigned"
            /\ count leaf
               = Qcount (filter (in_group soc_cols [s1; s2]) assigned)
            /\ 1 <= count leaf)
    /\ Qsum (map count out) == Qcount assigned.
Proof.
  intros assigned.
  set (vf := with_rows (with_rows df (state_rows df state)) assigned).
  assert (Hvf : wf_frame vf = true) by now apply treemap_frame_wf.
  destruct (mapping_known Hkpi) as (f & Hf).
  set (step := fun kg : key * list Incident =>
         m <- query_state_iloc_0_last
                (f (loc (with_rows df (state_rows df state))
                        (map index (snd kg))) None) state ;;
         Some {| soc_key := fst kg; count := count_rows (snd kg);
                 metric := m |}).
  assert (Hprep : prepare_treemap_data df state kpi_name
                  = mapM step (groupby true vf soc_cols)).
  { unfold prepare_treemap_data. rewrite Hf. reflexivity. }
  destruct (@mapM_total _ _ step (groupby true vf soc_cols)) as (out & Hout & _).
  { intros [k g] Hg. unfold step. cbn [fst snd].
    destruct (@treemap_group_metric df state kpi_name f k g Hwf Hf Hg)
      as (m & ->).
    eauto. }
  exists out. split; [now rewrite Hprep|].
  apply mapM_Forall2 in Hout.
  assert (Hkeys : map soc_key out = group_keys true vf soc_cols).
  { rewrite <- (groupby_keys true vf soc_cols). symmetry.
    apply (Forall2_map_eq (@fst _ _) soc_key Hout).
    intros [k g] b Hb. unfold step in Hb. cbn [fst snd] in Hb.
    destruct (query_state_iloc_0_last _ _); [|discriminate].
    now inversion Hb. }
  assert (Hcounts : map count out
                    = map (fun k => Qcount (filter (in_group soc_cols k) assigned))
                          (group_keys true vf soc_cols)).
  { transitivity (map (fun kg : key * list Incident => count_rows (snd kg))
                        (groupby true vf soc_cols)).
    - symmetry.
      apply (Forall2_map_eq (fun kg => count_rows (snd kg)) count Hout).
      intros [k g] b Hb. unfold step in Hb. cbn [fst snd] in Hb.
      destruct (query_state_iloc_0_last _ _); [|discriminate].
      now inversion Hb.
    - unfold groupby. rewrite map_map. reflexivity. }
  split; [rewrite Hkeys; now apply group_keys_NoDup|].
  split.
  { intros r Hr. rewrite Hkeys.
    apply (row_key_in_group_keys true vf soc_cols r Hvf Hr). }
  split.
  - intros leaf Hleaf.
    destruct (@Forall2_In_r _ _ _ _ _ _ Hout Hleaf) as ([k g] & Hg & Hstep).
    unfold step in Hstep. cbn [fst snd] in Hstep.
    destruct (query_state_iloc_0_last _ _); [|discriminate].
    inversion Hstep; subst leaf; clear Hstep. cbn [soc_key count].
    apply groupby_In in Hg as [Hk ->].
    destruct (group_keys_observed _ _ _ Hk) as (r & Hr & <-).
    cbn [rows with_rows vf] in Hr |- *.
    exists (soc_description_1 r), (soc_description_2 r).
    split; [reflexivity|].
    pose proof Hr as Ha. apply filter_In in Ha as [_ Ha].
    unfold assigned_occupation in Ha.
    rewrite andb_true_iff, !negb_true_iff in Ha. destruct Ha as [H1 H2].
    apply String.eqb_neq in H1, H2.
    split; [exact H1|]. split; [exact H2|]. split; [reflexivity|].
    apply Qcount_pos with (x := r). apply filter_In.
    split; [exact Hr | now apply in_group_iff].
  - rewrite Hcounts. apply Qcount_groups.
    + now apply group_keys_NoDup.
    + intros r Hr. apply (row_key_in_group_keys true vf soc_cols r Hvf Hr).
Qed.


(* ================================================================== *)
(** * State preparer *)
(* ================================================================== *)

Lemma merge_inner_In {A B} (l : list (key * A)) (r : list (key * B)) k a b :
  In (k, (a, b)) (merge_inner l r) <->
  In (k, a) l /\ exists k', In (k', b) r /\ key_eqb k' k = true.
Proof.
  unfold merge_inner. rewrite in_flat_map. split.
  - intros ([k0 a0] & Hl & H). cbn [fst snd] in H.
    apply in_map_iff in H as ([k' b'] & E & Hb). cbn [fst snd] in E.
    inversion E; subst. apply filter_In in Hb as [Hb Ek]. eauto.
  - intros (Hl & k' & Hb & Ek). exists (k, a). split; [exact Hl|].
    cbn [fst snd]. apply in_map_iff. exists (k', b).
    split; [reflexivity|]. apply filter_In. auto.
Qed.

Lemma filter_key_single {B} (r : list (key * B)) k :
  NoDup (map fst r) -> In k (map fst r) ->
  exists b, filter (fun kb => key_eqb (fst kb) k) r = [(k, b)].
Proof.
  intros Hnd Hin. pose proof (filter_key_NoDup r k Hnd) as Hlen.
  apply in_map_iff in Hin as ([k' b] & E & Hb). cbn [fst] in E. subst k'.
  assert (H : In (k, b) (filter (fun kb => key_eqb (fst kb) k) r))
    by (apply filter_In; split; [exact Hb | apply key_eqb_refl]).
  destruct (filter (fun kb => key_eqb (fst kb) k) r) as [|x [|y l]];
    simpl in *; [tauto | | lia].
  destruct H as [->|[]]. eauto.
Qed.

(** An inner join against a right side with distinct keys that has every
    left key keeps the rows of the left side, one for one. *)
Lemma merge_inner_keys {A B} (l : list (key * A)) (r : list (key * B)) :
  NoDup (map fst r) -> (forall k, In k (map fst l) -> In k (map fst r)) ->
  map fst (merge_inner l r) = map fst l.
Proof.
  intros Hnd Hsub. unfold merge_inner.
  induction l as [|[k a] l IH]; [reflexivity|].
  match goal with
  | |- context [flat_map ?f ((k, a) :: l)] =>
      change (flat_map f ((k, a) :: l)) with (f (k, a) ++ flat_map f l)%list
  end.
  rewrite map_app, IH by (intros k' Hk'; apply Hsub; now right).
  cbn [fst snd].
  destruct (filter_key_single r k Hnd (Hsub k (or_introl eq_refl))) as (b & ->).
  reflexivity.
Qed.

Lemma table_rows_keys t : map fst (table_rows t) = tkeys t.
Proof.
  unfold table_rows. generalize (map snd (tcols t)).
  induction (tkeys t) as [|k ks IH]; intros cols; simpl; [reflexivity|].
  now rewrite IH.
Qed.

(** The keys of the de-duplicated frame are keys of the frame. *)
Lemma dedup_state_keys df k :
  wf_frame df = true ->
  In k (group_keys false (drop_duplicates df) [col_state_code]) ->
  In k (group_keys false df [col_state_code]).
Proof.
  intros Hwf. unfold group_keys.
  change (is_categorical (drop_duplicates df)) with (is_categorical df).
  destruct (negb false && existsb (is_categorical df) [col_state_code]) eqn:E.
  - simpl in E. rewrite orb_false_r in E. unfold is_categorical in E.
    unfold col_levels. simpl.
    destruct (levels df col_state_code); [tauto | discriminate].
  - rewrite !filter_In, !existsb_exists.
    intros (_ & r & Hr & Er). apply drop_duplicates_incl in Hr.
    apply in_group_iff in Er. subst k. split.
    + now apply row_key_in_product.
    + exists r. split; [exact Hr | now apply in_group_iff].
Qed.

(** The guard on the mean number of employees is a guard on their sum. *)
Lemma mean_guard_is_sum_guard (f : Incident -> Q) g :
  fgtb (group_mean f g) (Fin 0) = Qlt_bool 0 (sum_of f g).
Proof.
  destruct g as [|r g]; [reflexivity|].
  unfold group_mean, fgtb.
  set (rs := r :: g).
  assert (Hc : 0 < count_rows rs).
  { apply Qlt_le_trans with 1; [reflexivity|].
    apply Qcount_pos with (x := r). now left. }
  destruct (Qlt_bool 0 (sum_of f rs)) eqn:E.
  - apply Qlt_bool_iff in E. apply Qlt_bool_iff.
    apply Qlt_shift_div_l; [exact Hc|]. now rewrite Qmult_0_l.
  - destruct (Qlt_bool 0 (sum_of f rs / count_rows rs)) eqn:E'; [|reflexivity].
    apply Qlt_bool_iff in E'.
    assert (H : 0 < sum_of f rs).
    { setoid_replace (sum_of f rs)
        with (sum_of f rs / count_rows rs * count_rows rs).
      - rewrite <- (Qmult_0_l (count_rows rs)).
        now apply Qmult_lt_compat_r.
      - field. intros H0. rewrite H0 in Hc. apply (Qlt_irrefl _ Hc). }
    apply Qlt_bool_iff in H. congruence.
Qed.

(** The rows of the state table. *)
Lemma state_table_rows (df : DataFrame) (kpi_name : string)
  (Hwf : wf_frame df = true)
  (Hkpi : In kpi_name (map fst kpi_name_function_mapping)) :
  exists out,
    prepare_state_data df kpi_name = Some out
    /\ map state_key out
       = group_keys false (drop_duplicates df) [col_state_code]
    /\ NoDup (map state_key out)
    /\ (forall r, In r (rows df) -> In [state_code r] (map state_key out))
    /\ forall row, In row out ->
         exists s,
           state_key row = [s]
           /\ n_case_number (injury_part row) = Qcount (state_rows df s)
           /\ annual_average_employees_sum (company_part row)
              = sum_of annual_average_employees (companies_once df s)
           /\ injury_density row
              = (if Qlt_bool 0 (annual_average_employees_sum (company_part row))
                 then Fin (n_case_number (injury_part row)
                           / annual_average_employees_sum (company_part row))
                 else Fin 0).
Proof.
  destruct (mapping_known Hkpi) as (f & Hf).
  destruct (mapping_tables df kpi_name Hwf Hf) as (Hkeys & _).
  pose proof (wf_drop_duplicates df Hwf) as Hwfd.
  unfold prepare_state_data. rewrite Hf.
  set (company := agg _ (groupby false (drop_duplicates df) [col_state_code])).
  set (injury := agg _ (groupby false df [col_state_code])).
  set (kpi_rows := table_rows (f df None)).
  assert (Kc : map fst company
               = group_keys false (drop_duplicates df) [col_state_code])
    by (unfold company; now rewrite agg_keys, groupby_keys).
  assert (Ki : map fst injury = group_keys false df [col_state_code])
    by (unfold injury; now rewrite agg_keys, groupby_keys).
  assert (Kk : map fst kpi_rows = group_keys false df [col_state_code])
    by (unfold kpi_rows; now rewrite table_rows_keys).
  assert (Ka : map fst (merge_inner company injury)
               = group_keys false (drop_duplicates df) [col_state_code]).
  { rewrite merge_inner_keys; [exact Kc | |].
    - rewrite Ki. now apply group_keys_NoDup.
    - intros k Hk. rewrite Kc in Hk. rewrite Ki. now apply dedup_state_keys. }
  assert (Kf : map fst (merge_inner (merge_inner company injury) kpi_rows)
               = group_keys false (drop_duplicates df) [col_state_code]).
  { rewrite merge_inner_keys; [exact Ka | |].
    - rewrite Kk. now apply group_keys_NoDup.
    - intros k Hk. rewrite Ka in Hk. rewrite Kk. now apply dedup_state_keys. }
  eexists. split; [reflexivity|].
  rewrite map_map. cbn [state_key].
  change (fun x : key * (CompanyAgg * InjuryAgg * list float64) => fst x)
    with (@fst key (CompanyAgg * InjuryAgg * list float64)).
  rewrite Kf.
  split; [reflexivity|].
  split; [now apply group_keys_NoDup|].
  split.
  { intros r Hr. destruct (state_survives_dedup df r Hr) as (r' & Hr' & <-).
    apply (row_key_in_group_keys false (drop_duplicates df) [col_state_code]
             r' Hwfd Hr'). }
  intros row Hrow. apply in_map_iff in Hrow as ([k [[c i] vals]] & <- & Hin).
  cbn [fst snd state_key company_part injury_part injury_density].
  apply merge_inner_In in Hin as (Hin & _).
  apply merge_inner_In in Hin as (Hc & k' & Hi & Ek).
  apply key_eqb_eq in Ek. subst k'.
  unfold company in Hc. apply agg_In in Hc as (gc & Hgc & ->).
  unfold injury in Hi. apply agg_In in Hi as (gi & Hgi & ->).
  apply groupby_In in Hgc as [Hk ->]. apply groupby_In in Hgi as [_ ->].
  destruct (group_keys_single _ _ _ _ Hk) as (s & -> & _).
  exists s. cbn [n_case_number annual_average_employees_sum
                 annual_average_employees_median].
  rewrite !state_group_rows, drop_duplicates_rows, first_per_key_state.
  fold (state_rows df s). fold (companies_once df s).
  split; [reflexivity|]. split; [reflexivity|]. split; [reflexivity|].
  rewrite mean_guard_is_sum_guard. unfold np_where, count_rows.
  destruct (Qlt_bool 0 (sum_of annual_average_employees (companies_once df s)))
    eqn:E; [|reflexivity].
  apply Qlt_bool_iff in E. unfold fdiv. now rewrite (Qeq_bool_pos E).
Qed.

(** X7.  For a KPI of the dispatch table the state preparer returns one
    row per state group, none lost in its two inner joins.  A row carries
    the state's incident count and its employees summed once per company,
    and its [injury_density] is count / employees when that sum is
    positive and 0 otherwise: always a finite number, because the guard
    on the mean number of employees is positive exactly when the sum
    is. *)
Theorem state_data_rows (df : DataFrame) (kpi_name : string)
  (Hwf : wf_frame df = true)
  (Hkpi : In kpi_name (map fst kpi_name_function_mapping)) :
  exists out,
    prepare_state_data df kpi_name = Some out
    /\ map state_key out
       = group_keys false (drop_duplicates df) [col_state_code]
    /\ NoDup (map state_key out)
    /\ (forall r, In r (rows df) -> In [state_code r] (map state_key out))
    /\ forall row, In row out ->
         exists s,
           state_key row = [s]
           /\ n_case_number (injury_part row) = Qcount (state_rows df s)
           /\ annual_average_employees_sum (company_part row)
              = sum_of annual_average_employees (companies_once df s)
           /\ injury_density row
              = (if Qlt_bool 0 (annual_average_employees_sum (company_part row))
                 then Fin (n_case_number (injury_part row)
                           / annual_average_employees_sum (company_part row))
                 else Fin 0).
Proof. exact (@state_table_rows df kpi_name Hwf Hkpi). Qed.

(* ================================================================== *)
(** * Scatter preparer *)
(* ================================================================== *)

Lemma mode_first_max candidates values m :
  mode_first candidates values = Some m ->
  In m candidates
  /\ forall c, In c candidates -> (count_str c values <= count_str m values)%nat.
Proof.
  revert m; induction candidates as [|c cs IH]; intros m; simpl; [discriminate|].
  destruct (mode_first cs values) as [b|] eqn:E.
  - destruct (IH b eq_refl) as [Hb Hmax].
    destruct (Nat.leb (count_str b values) (count_str c values)) eqn:L;
      intros H; inversion H; subst m; clear H.
    + apply Nat.leb_le in L. split; [now left|].
      intros x [<-|Hx]; [lia|]. specialize (Hmax x Hx). lia.
    + apply Nat.leb_gt in L. split; [now right|].
      intros x [<-|Hx]; [lia | auto].
  - intros H. inversion H; subst m. split; [now left|].
    destruct cs; [|simpl in E; destruct (mode_first cs values);
                    [destruct (Nat.leb _ _)|]; discriminate].
    intros x [<-|[]]. lia.
Qed.

Lemma mode_first_some candidates values :
  candidates <> [] -> exists m, mode_first candidates values = Some m.
Proof.
  destruct candidates as [|c cs]; [contradiction|]. intros _. simpl.
  destruct (mode_first cs values); [destruct (Nat.leb _ _)|]; eauto.
Qed.

Lemma count_str_absent e l : ~ In e l -> count_str e l = 0%nat.
Proof.
  intros H. unfold count_str.
  rewrite (@filter_ext_in _ (String.eqb e) (fun _ => false)).
  - now rewrite filter_none.
  - intros x Hx. apply String.eqb_neq. intros ->. contradiction.
Qed.

Lemma strftime_HM_range q :
  exists h m, strftime_HM (Fin q) = Some (h, m)
              /\ (0 <= h < 24)%Z /\ (0 <= m < 60)%Z.
Proof.
  simpl. do 2 eexists. split; [reflexivity|].
  split; apply Z.mod_pos_bound; lia.
Qed.

(** The rows of the scatter table. *)
Lemma scatter_table_rows (df : DataFrame) (state : string)
  (Hwf : wf_frame df = true) :
  exists out,
    prepare_scatter_plot df state = Some out
    /\ NoDup (map naics_key out)
    /\ (forall r, In r (state_rows df state) ->
          In [naics_description_5 r] (map naics_key out))
    /\ forall row, In row out ->
         exists na,
           let g := filter (in_group [col_naics_description_5] [na])
                           (state_rows df state) in
           naics_key row = [na]
           /\ sc_case_number row = Qcount g
           /\ 1 <= Qcount g
           /\ sc_time_started_work row
              = Fin (sum_of time_started_work g / Qcount g)
           /\ sc_time_of_incident row
              = Fin (sum_of time_of_incident g / Qcount g)
           /\ (exists h m, time_started_work_str row = Some (h, m)
                           /\ (0 <= h < 24)%Z /\ (0 <= m < 60)%Z)
           /\ (exists h m, time_of_incident_str row = Some (h, m)
                           /\ (0 <= h < 24)%Z /\ (0 <= m < 60)%Z)
           /\ In (sc_establishment_type row) (map establishment_type g)
           /\ forall e,
                (count_str e (map establishment_type g)
                 <= count_str (sc_establishment_type row)
                              (map establishment_type g))%nat.
Proof.
  set (in_state := with_rows df (state_rows df state)).
  assert (Hwfs : wf_frame in_state = true).
  { apply wf_with_rows; [exact Hwf|].
    intros x Hx. now apply filter_In in Hx as [Hx _]. }
  set (step := fun kg : key * list Incident =>
         let g := snd kg in
         let types := map establishment_type g in
         e <- mode_first
                (filter (fun v => mem_str v types)
                        (col_levels in_state col_establishment_type))
                types ;;
         let started := group_mean time_started_work g in
         let incident := group_mean time_of_incident g in
         Some {| naics_key := fst kg;
                 sc_case_number := count_rows g;
                 sc_time_started_work := started;
                 sc_time_of_incident := incident;
                 sc_establishment_type := e;
                 time_started_work_str := strftime_HM started;
                 time_of_incident_str := strftime_HM incident |}).
  assert (Hprep : prepare_scatter_plot df state
                  = mapM step (groupby true in_state [col_naics_description_5]))
    by reflexivity.
  assert (Hgroup : forall k g,
             In (k, g) (groupby true in_state [col_naics_description_5]) ->
             exists na r,
               k = [na]
               /\ g = filter (in_group [col_naics_description_5] [na])
                             (state_rows df state)
               /\ In r g).
  { intros k g Hg. apply groupby_In in Hg as [Hk ->].
    destruct (group_keys_observed _ _ _ Hk) as (r & Hr & <-).
    exists (naics_description_5 r), r. split; [reflexivity|].
    split; [reflexivity|]. apply filter_In.
    split; [exact Hr | now apply in_group_iff]. }
  assert (Hcands : forall g e,
             (forall x, In x g -> In x (rows in_state)) ->
             In e (map establishment_type g) ->
             In e (filter (fun v => mem_str v (map establishment_type g))
                          (col_levels in_state col_establishment_type))).
  { intros g e Hsub He. apply filter_In. split; [|now apply mem_str_In].
    apply in_map_iff in He as (x & <- & Hx).
    apply (col_levels_In in_state col_establishment_type x Hwfs (Hsub x Hx)). }
  destruct (@mapM_total _ _ step
              (groupby true in_state [col_naics_description_5]))
    as (out & Hout & _).
  { intros [k g] Hg. destruct (Hgroup k g Hg) as (na & r & -> & Eg & Hr).
    unfold step. cbn [fst snd].
    destruct (@mode_first_some
                (filter (fun v => mem_str v (map establishment_type g))
                        (col_levels in_state col_establishment_type))
                (map establishment_type g)) as (m & ->); [|eauto].
    assert (Hin : In (establishment_type r)
                     (filter (fun v => mem_str v (map establishment_type g))
                             (col_levels in_state col_establishment_type))).
    { apply Hcands; [|now apply in_map].
      intros x Hx. rewrite Eg in Hx. now apply filter_In in Hx as [Hx _]. }
    intros E. rewrite E in Hin. destruct Hin. }
  exists out. split; [now rewrite Hprep|].
  apply mapM_Forall2 in Hout.
  assert (Hkeys : map naics_key out
                  = group_keys true in_state [col_naics_description_5]).
  { rewrite <- (groupby_keys true in_state [col_naics_description_5]).
    symmetry. apply (Forall2_map_eq (@fst _ _) naics_key Hout).
    intros [k g] b Hb. unfold step in Hb. cbn [fst snd] in Hb.
    destruct (mode_first _ _); [|discriminate]. now inversion Hb. }
  split; [rewrite Hkeys; now apply group_keys_NoDup|].
  split.
  { intros r Hr. rewrite Hkeys.
    apply (row_key_in_group_keys true in_state [col_naics_description_5]
             r Hwfs Hr). }
  intros row Hrow.
  destruct (@Forall2_In_r _ _ _ _ _ _ Hout Hrow) as ([k g] & Hg & Hstep).
  destruct (Hgroup k g Hg) as (na & r & -> & Eg & Hr).
  exists na. cbv zeta. rewrite <- Eg.
  unfold step in Hstep. cbn [fst snd] in Hstep.
  destruct (mode_first _ _) as [m|] eqn:Em; [|discriminate].
  inversion Hstep; subst row; clear Hstep.
  cbn [naics_key sc_case_number sc_time_started_work sc_time_of_incident
       sc_establishment_type time_started_work_str time_of_incident_str].
  assert (Hmean : forall f, group_mean f g = Fin (sum_of f g / Qcount g)).
  { intros f. unfold group_mean, count_rows.
    destruct g; [destruct Hr | reflexivity]. }
  rewrite !Hmean.
  split; [reflexivity|]. split; [reflexivity|].
  split; [apply Qcount_pos with (x := r); exact Hr|].
  split; [reflexivity|]. split; [reflexivity|].
  split; [apply strftime_HM_range|]. split; [apply strftime_HM_range|].
  destruct (mode_first_max _ _ Em) as [Hm Hmax].
  split.
  - apply filter_In in Hm as [_ Hm]. now apply mem_str_In.
  - intros e.
    destruct (in_dec string_dec e (map establishment_type g)) as [He|He].
    + apply Hmax, Hcands; [|exact He].
      intros x Hx. rewrite Eg in Hx. now apply filter_In in Hx as [Hx _].
    + rewrite (count_str_absent _ _ He). lia.
Qed.


(* ================================================================== *)
(** * The radar preparer on a loaded module *)
(* ================================================================== *)

Lemma dict_get_assign cols name c k :
  dict_get (assign_column cols name c) k
  = if String.eqb k name then Some c else dict_get cols k.
Proof.
  induction cols as [|[n c'] cols IH]; simpl.
  - reflexivity.
  - destruct (String.eqb name n) eqn:E; simpl.
    + apply String.eqb_eq in E. subst n. now destruct (String.eqb k name).
    + destruct (String.eqb k n) eqn:Ek.
      * apply String.eqb_eq in Ek. subst k.
        rewrite String.eqb_sym, E. reflexivity.
      * exact IH.
Qed.

Lemma assign_column_names cols name c :
  NoDup (map fst cols) -> NoDup (map fst (assign_column cols name c)).
Proof.
  induction cols as [|[n c'] cols IH]; simpl; intros H.
  - constructor; [intros [] | constructor].
  - inversion H as [|? ? Hn Hc]; subst.
    destruct (String.eqb name n) eqn:E; simpl; [now constructor|].
    constructor; [|now apply IH].
    intros Hin. apply in_map_iff in Hin as ([n' x] & En & Hin).
    simpl in En. subst n'. apply Hn.
    assert (Hg : dict_get (assign_column cols name c) n <> None).
    { clear -Hin. induction (assign_column cols name c) as [|[a b] l IHl];
        [destruct Hin|]. simpl. destruct (String.eqb n a) eqn:Ea; [discriminate|].
      destruct Hin as [Hin|Hin]; [inversion Hin; subst;
                                   rewrite String.eqb_refl in Ea; discriminate|].
      now apply IHl. }
    rewrite dict_get_assign in Hg. rewrite String.eqb_sym, E in Hg.
    clear -Hg. induction cols as [|[a b] l IHl]; simpl in *; [congruence|].
    destruct (String.eqb n a) eqn:Ea.
    + left. apply String.eqb_eq in Ea. auto.
    + right. now apply IHl.
Qed.

Lemma mean_fold_keys mvs t : tkeys (fold_left mean_step mvs t) = tkeys t.
Proof. revert t; induction mvs as [|mv mvs IH]; intros t; simpl; [|rewrite IH]; reflexivity. Qed.

Lemma mean_fold_names mvs t :
  NoDup (map fst (tcols t)) -> NoDup (map fst (tcols (fold_left mean_step mvs t))).
Proof.
  revert t; induction mvs as [|mv mvs IH]; intros t H; simpl; [exact H|].
  apply IH. simpl. now apply assign_column_names.
Qed.

Lemma mean_fold_column mvs t k :
  tcolumn (fold_left mean_step mvs t) k
  = match last_assigned mvs k with
    | Some v => Some (repeat v (List.length (tkeys t)))
    | None => tcolumn t k
    end.
Proof.
  revert t; induction mvs as [|mv mvs IH]; intros t; simpl; [reflexivity|].
  rewrite IH. destruct (last_assigned mvs k); [reflexivity|].
  unfold tcolumn, mean_step, set_scalar. cbn [tcols].
  rewrite dict_get_assign. simpl.
  now destruct (String.eqb k _).
Qed.

Lemma prepare_mean_radar_data_fold t :
  prepare_mean_radar_data t
  = fold_left mean_step
              (map (fun c => (fst c, series_mean (snd c))) (tcols t)) t.
Proof. reflexivity. Qed.

Lemma mean_name_eqb m x :
  String.eqb ("mean_" ++ m) ("mean_" ++ x) = String.eqb m x.
Proof. reflexivity. Qed.

Lemma last_assigned_cons (c : string * list float64) cols k :
  last_assigned (map (fun c => (fst c, series_mean (snd c))) (c :: cols)) k
  = match last_assigned (map (fun c => (fst c, series_mean (snd c))) cols) k with
    | Some v => Some v
    | None => if String.eqb k ("mean_" ++ fst c)
              then Some (series_mean (snd c)) else None
    end.
Proof. reflexivity. Qed.

Lemma last_assigned_absent (cols : list (string * list float64)) k :
  (forall x, String.eqb k ("mean_" ++ x) = false) ->
  last_assigned (map (fun c => (fst c, series_mean (snd c))) cols) k = None.
Proof.
  intros H. induction cols as [|c cols IH]; [reflexivity|].
  now rewrite last_assigned_cons, IH, H.
Qed.

Lemma last_assigned_unnamed (cols : list (string * list float64)) m :
  ~ In m (map fst cols) ->
  last_assigned (map (fun c => (fst c, series_mean (snd c))) cols)
                ("mean_" ++ m) = None.
Proof.
  induction cols as [|[n c] cols IH]; intros H; [reflexivity|].
  rewrite last_assigned_cons, IH by (simpl in H; tauto).
  rewrite mean_name_eqb. cbn [fst].
  destruct (String.eqb m n) eqn:E; [|reflexivity].
  apply String.eqb_eq in E. subst. simpl in H. tauto.
Qed.

Lemma dict_get_In {A} (d : list (string * A)) k v :
  dict_get d k = Some v -> In k (map fst d).
Proof.
  induction d as [|[n x] d IH]; simpl; [discriminate|].
  destruct (String.eqb k n) eqn:E; [|auto].
  intros _. left. apply String.eqb_eq in E. auto.
Qed.

Lemma last_assigned_named (cols : list (string * list float64)) m c :
  NoDup (map fst cols) -> dict_get cols m = Some c ->
  last_assigned (map (fun c => (fst c, series_mean (snd c))) cols)
                ("mean_" ++ m) = Some (series_mean c).
Proof.
  induction cols as [|[n c0] cols IH]; intros Hnd H; [discriminate|].
  rewrite last_assigned_cons, mean_name_eqb. cbn [fst snd].
  simpl in Hnd, H.
  inversion Hnd as [|? ? Hn Hc]; subst.
  destruct (String.eqb m n) eqn:E.
  - apply String.eqb_eq in E. subst n. inversion H; subst c0.
    now rewrite last_assigned_unnamed.
  - now rewrite (IH Hc H).
Qed.

(** The metric columns are not [mean_*] columns. *)
Lemma metric_not_mean m x :
  In m radar_metrics -> String.eqb m ("mean_" ++ x) = false.
Proof.
  simpl. intros H. repeat destruct H as [<-|H]; try reflexivity. contradiction.
Qed.

(** [prepare_mean_radar_data] keeps the keys and the metric columns, and
    leaves in [mean_<metric>] the mean of the metric column on every row. *)
Lemma prepare_mean_radar_data_columns t m :
  In m radar_metrics ->
  tkeys (prepare_mean_radar_data t) = tkeys t
  /\ tcolumn (prepare_mean_radar_data t) m = tcolumn t m
  /\ (NoDup (map fst (tcols t)) ->
      NoDup (map fst (tcols (prepare_mean_radar_data t))))
  /\ forall c,
       NoDup (map fst (tcols t)) -> tcolumn t m = Some c ->
       tcolumn (prepare_mean_radar_data t) ("mean_" ++ m)
       = Some (repeat (series_mean c) (List.length (tkeys t))).
Proof.
  intros Hm. rewrite prepare_mean_radar_data_fold.
  split; [apply mean_fold_keys|].
  split.
  { rewrite mean_fold_column, last_assigned_absent; [reflexivity|].
    intros x. now apply metric_not_mean. }
  split; [apply mean_fold_names|].
  intros c Hnd Hc. rewrite mean_fold_column.
  now rewrite (last_assigned_named _ _ Hnd Hc).
Qed.

Lemma safety_score_shape df column :
  NoDup (map fst (tcols (compute_agg_safety_score df column)))
  /\ forall m, In m radar_metrics ->
       exists c, tcolumn (compute_agg_safety_score df column) m = Some c
                 /\ List.length c
                    = List.length (tkeys (compute_agg_safety_score df column)).
Proof.
  split.
  - simpl. repeat constructor; simpl; intuition discriminate.
  - intros m Hm. simpl in Hm.
    repeat destruct Hm as [<-|Hm]; try contradiction;
      (eexists; split; [reflexivity|]);
      cbn [tkeys compute_agg_safety_score]; now rewrite !length_map.
Qed.

Lemma load_module_shape d g0 :
  load_module d = Some g0 ->
  data g0 = {| oid := 0; frame := d |}
  /\ region_safety_score g0 = compute_agg_safety_score d None
  /\ forall m, In m radar_metrics ->
       exists c, tcolumn (region_safety_score g0) m = Some c
                 /\ dict_get (min_metric_values g0) m = Some (series_min c)
                 /\ dict_get (max_metric_values g0) m = Some (series_max c).
Proof.
  unfold load_module. simpl. intros H. inversion H; subst; clear H.
  cbn [data region_safety_score min_metric_values max_metric_values].
  split; [reflexivity|]. split; [reflexivity|].
  intros m Hm. simpl in Hm.
  repeat destruct Hm as [<-|Hm]; try contradiction;
    (eexists; split; [reflexivity|split; reflexivity]).
Qed.

Lemma mapM_map_some {A B} (f : A -> option B) (h : A -> B) l :
  (forall a, In a l -> f a = Some (h a)) -> mapM f l = Some (map h l).
Proof.
  induction l as [|a l IH]; intros H; simpl; [reflexivity|].
  rewrite (H a) by now left. rewrite IH; [reflexivity|].
  intros b Hb. apply H. now right.
Qed.

Lemma combine_map_r {A B} (h : A -> B) l :
  combine l (map h l) = map (fun a => (a, h a)) l.
Proof. induction l; simpl; congruence. Qed.

Lemma mapM_over_map {A B C} (f : B -> option C) (k : A -> B) l :
  mapM f (map k l) = mapM (fun a => f (k a)) l.
Proof. induction l as [|a l IH]; simpl; [reflexivity|]. now rewrite IH. Qed.

Lemma zip_radar_map (v s m sm : string -> float64) l :
  zip_radar l (map v l) (map s l) (map m l) (map sm l)
  = map (fun k => {| kpi := k; value := v k; scaled_value := s k;
                     mean_value := m k; scaled_mean_value := sm k |}) l.
Proof. induction l; simpl; congruence. Qed.

(** The radar rows, once the state selects row [i] and every column and
    statistic the loop reads is there. *)
Lemma radar_rows_at g t state i :
  state_positions state t = [i] ->
  (forall m, In m radar_metrics ->
     exists c, tcolumn t m = Some c /\ (i < List.length c)%nat) ->
  (forall m, In m radar_metrics ->
     exists c, tcolumn t ("mean_" ++ m) = Some c /\ (0 < List.length c)%nat) ->
  (forall m, In m radar_metrics ->
     (exists v, dict_get (min_metric_values g) m = Some v)
     /\ exists v, dict_get (max_metric_values g) m = Some v) ->
  radar_rows g t state = Some (map (radar_row_at g t i) radar_metrics).
Proof.
  intros Hpos Hcol Hmean Hstat.
  assert (H1 : mapM (fun metric => c <- tcolumn t metric ;; nth_error c i)
                    radar_metrics
               = Some (map (fun m => cell_or_nan t m i) radar_metrics)).
  { apply mapM_map_some. intros m Hm.
    destruct (Hcol m Hm) as (c & Hc & Hi). unfold cell_or_nan. rewrite Hc.
    now apply nth_error_nth'. }
  assert (H3 : mapM (fun metric => c <- tcolumn t ("mean_" ++ metric) ;;
                                   hd_error c) radar_metrics
               = Some (map (fun m => cell_or_nan t ("mean_" ++ m) 0)
                           radar_metrics)).
  { apply mapM_map_some. intros m Hm.
    destruct (Hmean m Hm) as (c & Hc & Hi). unfold cell_or_nan. rewrite Hc.
    destruct c; [simpl in Hi; lia | reflexivity]. }
  assert (H2 : forall v : string -> float64,
             mapM (fun mv : string * float64 =>
                     let '(metric, x) := mv in
                     vmax <- dict_get (max_metric_values g) metric ;;
                     vmin <- dict_get (min_metric_values g) metric ;;
                     Some (scale vmin vmax x))
                  (combine radar_metrics (map v radar_metrics))
             = Some (map (fun m => scale (stat_or_nan (min_metric_values g) m)
                                         (stat_or_nan (max_metric_values g) m)
                                         (v m)) radar_metrics)).
  { intros v. rewrite combine_map_r, mapM_over_map.
    apply mapM_map_some. intros m Hm.
    destruct (Hstat m Hm) as ((lo & Hlo) & (hi & Hhi)).
    unfold stat_or_nan. now rewrite Hlo, Hhi. }
  unfold radar_rows, calculate_mean_values. rewrite Hpos, H1.
  rewrite (H2 (fun m => cell_or_nan t m i)), H3.
  rewrite (H2 (fun m => cell_or_nan t ("mean_" ++ m) 0)).
  apply f_equal. apply zip_radar_map.
Qed.

Lemma prepare_mean_keys t : tkeys (prepare_mean_radar_data t) = tkeys t.
Proof. rewrite prepare_mean_radar_data_fold. apply mean_fold_keys. Qed.

Lemma prepare_mean_names t :
  NoDup (map fst (tcols t)) ->
  NoDup (map fst (tcols (prepare_mean_radar_data t))).
Proof. rewrite prepare_mean_radar_data_fold. apply mean_fold_names. Qed.

Lemma radar_inv_refl g0 :
  NoDup (map fst (tcols (region_safety_score g0))) -> radar_inv g0 g0.
Proof. unfold radar_inv. intuition. Qed.

Lemma radar_inv_step g0 g df state :
  radar_inv g0 g -> radar_inv g0 (snd (prepare_radar_data g df state)).
Proof.
  intros H. unfold prepare_radar_data.
  destruct (Nat.eqb (oid df) (oid (data g))); [|exact H].
  destruct H as (Hd & Hmin & Hmax & Hmean & Hk & Hn & Hc).
  unfold radar_inv. cbn [snd set_region data min_metric_values
                         max_metric_values mean_metric_values
                         region_safety_score].
  repeat split; auto.
  - now rewrite prepare_mean_keys.
  - now apply prepare_mean_names.
  - intros m Hm.
    destruct (prepare_mean_radar_data_columns (region_safety_score g) Hm)
      as (_ & -> & _). now apply Hc.
Qed.

Lemma radar_inv_calls g0 calls g :
  radar_inv g0 g -> radar_inv g0 (after_radar_calls g calls).
Proof.
  revert g; induction calls as [|[df s] calls IH]; intros g H; simpl; [exact H|].
  apply IH. now apply radar_inv_step.
Qed.

Lemma mapM_ext_in {A B} (f f' : A -> option B) l :
  (forall a, In a l -> f a = f' a) -> mapM f l = mapM f' l.
Proof.
  induction l as [|a l IH]; intros H; simpl; [reflexivity|].
  rewrite (H a) by now left. rewrite IH; [reflexivity|].
  intros b Hb. apply H. now right.
Qed.

(** The radar rows depend on the table through its keys and the ten
    columns the loop reads, and on the module through the two dicts. *)
Lemma radar_rows_ext g g' t t' state :
  min_metric_values g = min_metric_values g' ->
  max_metric_values g = max_metric_values g' ->
  tkeys t = tkeys t' ->
  (forall m, In m radar_metrics ->
     tcolumn t m = tcolumn t' m
     /\ tcolumn t ("mean_" ++ m) = tcolumn t' ("mean_" ++ m)) ->
  radar_rows g t state = radar_rows g' t' state.
Proof.
  intros Hmin Hmax Hk Hc. unfold radar_rows, state_positions.
  rewrite Hk, Hmin, Hmax.
  destruct (positions_from 0 state (tkeys t')) as [|i [|]]; try reflexivity.
  rewrite (@mapM_ext_in _ _
             (fun metric => c <- tcolumn t metric ;; nth_error c i)
             (fun metric => c <- tcolumn t' metric ;; nth_error c i))
    by (intros m Hm; now rewrite (proj1 (Hc m Hm))).
  rewrite (@mapM_ext_in _ _
             (fun metric => c <- tcolumn t ("mean_" ++ metric) ;; hd_error c)
             (fun metric => c <- tcolumn t' ("mean_" ++ metric) ;; hd_error c))
    by (intros m Hm; now rewrite (proj2 (Hc m Hm))).
  reflexivity.
Qed.

(** Two tables of the same shape with the same keys and metric columns
    carry the same rows once their means are attached. *)
Lemma prepared_tables_agree t t' m :
  table_shape t' -> NoDup (map fst (tcols t)) ->
  tkeys t = tkeys t' ->
  (forall m, In m radar_metrics -> tcolumn t m = tcolumn t' m) ->
  In m radar_metrics ->
  tcolumn (prepare_mean_radar_data t) m
  = tcolumn (prepare_mean_radar_data t') m
  /\ tcolumn (prepare_mean_radar_data t) ("mean_" ++ m)
     = tcolumn (prepare_mean_radar_data t') ("mean_" ++ m).
Proof.
  intros (Hn' & Hs') Hn Hk Hc Hm.
  destruct (Hs' m Hm) as (c & Hc' & _).
  destruct (prepare_mean_radar_data_columns t Hm) as (_ & E1 & _ & E2).
  destruct (prepare_mean_radar_data_columns t' Hm) as (_ & E1' & _ & E2').
  split.
  - now rewrite E1, E1', Hc.
  - rewrite (E2 c Hn), (E2' c Hn' Hc'), ?Hk; [reflexivity|].
    now rewrite Hc.
Qed.

Lemma load_module_table_shape d g0 :
  load_module d = Some g0 -> table_shape (region_safety_score g0).
Proof.
  intros H. destruct (load_module_shape H) as (_ & -> & _).
  apply safety_score_shape.
Qed.

(** A module state that kept the base object, the statistics and the
    metric columns returns the radar tables of the freshly loaded one. *)
Lemma radar_inv_stable d g0 g df state :
  load_module d = Some g0 -> radar_inv g0 g ->
  fst (prepare_radar_data g df state) = fst (prepare_radar_data g0 df state).
Proof.
  intros Hload Hinv.
  pose proof (load_module_table_shape Hload) as Hshape.
  destruct Hinv as (Hd & Hmin & Hmax & _ & Hk & Hn & Hc).
  unfold prepare_radar_data. rewrite Hd.
  destruct (Nat.eqb (oid df) (oid (data g0))); cbn [fst].
  - apply radar_rows_ext; cbn [set_region min_metric_values
                                 max_metric_values]; auto.
    + now rewrite !prepare_mean_keys.
    + intros m Hm. now apply prepared_tables_agree.
  - apply radar_rows_ext; auto.
Qed.

Lemma radar_calls_inv d g0 calls :
  load_module d = Some g0 -> radar_inv g0 (after_radar_calls g0 calls).
Proof.
  intros Hload.
  apply radar_inv_calls, radar_inv_refl, (load_module_table_shape Hload).
Qed.

(** Earlier radar calls do not change what a radar call returns. *)
Lemma radar_calls_stable d g0 calls df state :
  load_module d = Some g0 ->
  fst (prepare_radar_data (after_radar_calls g0 calls) df state)
  = fst (prepare_radar_data g0 df state).
Proof.
  intros Hload. apply (radar_inv_stable df state Hload).
  now apply (@radar_calls_inv d).
Qed.

Lemma finite_column c :
  forallb is_finite c = true -> exists qs, c = map Fin qs.
Proof.
  induction c as [|x c IH]; simpl; intros H.
  - now exists [].
  - apply andb_true_iff in H as [Hx Hc]. destruct (IH Hc) as (qs & ->).
    destruct x as [q| | |]; try discriminate. now exists (q :: qs).
Qed.

Lemma fold_fmin2_Fin qs a :
  exists lo, fold_left fmin2 (map Fin qs) (Fin a) = Fin lo
             /\ lo <= a /\ forall q, In q qs -> lo <= q.
Proof.
  revert a; induction qs as [|q qs IH]; intros a; simpl.
  - exists a. split; [reflexivity|]. split; [apply Qle_refl | tauto].
  - unfold fmin2 at 2. simpl. destruct (Qlt_bool q a) eqn:E.
    + apply Qlt_bool_iff in E. destruct (IH q) as (lo & -> & Hq & Hall).
      exists lo. split; [reflexivity|]. split.
      * apply Qle_trans with q; [exact Hq | now apply Qlt_le_weak].
      * intros x [<-|Hx]; auto.
    + assert (Ha : a <= q).
      { apply Qnot_lt_le. intros Hlt. apply Qlt_bool_iff in Hlt. congruence. }
      destruct (IH a) as (lo & -> & Hlo & Hall).
      exists lo. split; [reflexivity|]. split; [exact Hlo|].
      intros x [<-|Hx]; auto. now apply Qle_trans with a.
Qed.

Lemma fold_fmax2_Fin qs a :
  exists hi, fold_left fmax2 (map Fin qs) (Fin a) = Fin hi
             /\ a <= hi /\ forall q, In q qs -> q <= hi.
Proof.
  revert a; induction qs as [|q qs IH]; intros a; simpl.
  - exists a. split; [reflexivity|]. split; [apply Qle_refl | tauto].
  - unfold fmax2 at 2. simpl. destruct (Qlt_bool a q) eqn:E.
    + apply Qlt_bool_iff in E. destruct (IH q) as (hi & -> & Hq & Hall).
      exists hi. split; [reflexivity|]. split.
      * apply Qle_trans with q; [now apply Qlt_le_weak | exact Hq].
      * intros x [<-|Hx]; auto.
    + assert (Ha : q <= a).
      { apply Qnot_lt_le. intros Hlt. apply Qlt_bool_iff in Hlt. congruence. }
      destruct (IH a) as (hi & -> & Hhi & Hall).
      exists hi. split; [reflexivity|]. split; [exact Hhi|].
      intros x [<-|Hx]; auto. now apply Qle_trans with a.
Qed.

Lemma Qcount_cons {A} (x : A) l : Qcount (x :: l) == Qcount l + 1.
Proof.
  unfold Qcount. cbn [List.length]. rewrite Nat2Z.inj_succ.
  unfold Z.succ. now rewrite inject_Z_plus.
Qed.

Lemma Qsum_between lo hi qs :
  (forall q, In q qs -> lo <= q <= hi) ->
  lo * Qcount qs <= Qsum qs <= hi * Qcount qs.
Proof.
  induction qs as [|q qs IH]; intros H.
  - unfold Qcount. simpl. split; rewrite Qmult_0_r; apply Qle_refl.
  - destruct IH as [Il Ih]; [intros x Hx; apply H; now right|].
    destruct (H q) as [Hl Hh]; [now left|].
    rewrite Qcount_cons. cbn [Qsum fold_right]. split.
    + setoid_replace (lo * (Qcount qs + 1)) with (lo + lo * Qcount qs) by ring.
      now apply Qplus_le_compat.
    + setoid_replace (hi * (Qcount qs + 1)) with (hi + hi * Qcount qs) by ring.
      now apply Qplus_le_compat.
Qed.

(** Minimum, maximum and mean of a non-empty column of finite values. *)
Lemma series_bounds qs :
  qs <> [] ->
  exists lo hi mu,
    series_min (map Fin qs) = Fin lo
    /\ series_max (map Fin qs) = Fin hi
    /\ series_mean (map Fin qs) = Fin mu
    /\ (forall q, In q qs -> lo <= q <= hi)
    /\ lo <= mu <= hi.
Proof.
  destruct qs as [|a qs]; [congruence|]. intros _.
  unfold series_min, series_max, series_mean. rewrite dropna_Fin.
  cbn [map].
  destruct (fold_fmin2_Fin qs a) as (lo & -> & Hlo & Hlos).
  destruct (fold_fmax2_Fin qs a) as (hi & -> & Hhi & Hhis).
  assert (Hall : forall q, In q (a :: qs) -> lo <= q <= hi)
    by (intros q [<-|Hq]; split; auto).
  change (Fin a :: map Fin qs) with (map Fin (a :: qs)).
  unfold fsum. rewrite fsum_Fin_from.
  assert (Hn : 0 < Qcount (map Fin (a :: qs))).
  { apply Qlt_le_trans with 1; [reflexivity|].
    apply (@Qcount_pos _ _ (Fin a)). now left. }
  cbn [fdiv]. rewrite (Qeq_bool_pos Hn).
  exists lo, hi. eexists.
  split; [reflexivity|]. split; [reflexivity|]. split; [reflexivity|].
  split; [exact Hall|]. split.
  - apply Qle_shift_div_l; [exact Hn|].
    rewrite fold_left_Qplus, Qplus_0_l.
    unfold Qcount. rewrite length_map. apply (@Qsum_between lo hi (a :: qs) Hall).
  - apply Qle_shift_div_r; [exact Hn|].
    rewrite fold_left_Qplus, Qplus_0_l.
    unfold Qcount. rewrite length_map. apply (@Qsum_between lo hi (a :: qs) Hall).
Qed.

Lemma is_state_singleton s x : is_state s [x] = String.eqb x s.
Proof. reflexivity. Qed.

Lemma positions_from_nth n s ks i :
  In i (positions_from n s ks) ->
  (n <= i)%nat
  /\ exists k, nth_error ks (i - n) = Some k /\ is_state s k = true.
Proof.
  revert n; induction ks as [|k ks IH]; intros n; simpl; [tauto|].
  intros H.
  assert (Hrest : In i (positions_from (S n) s ks) ->
                  (n <= i)%nat
                  /\ exists k', nth_error (k :: ks) (i - n) = Some k'
                                /\ is_state s k' = true).
  { intros Hin. destruct (IH _ Hin) as (Hle & k' & Hk' & Hs).
    split; [lia|]. exists k'. split; [|exact Hs].
    replace (i - n)%nat with (S (i - S n)) by lia. exact Hk'. }
  destruct (is_state s k) eqn:E; [|auto].
  destruct H as [<-|H]; [|auto].
  split; [lia|]. exists k. rewrite Nat.sub_diag. auto.
Qed.

(** The radar rows of the one selected row of a table of the shape of the
    score table. *)
Lemma radar_rows_selected g t state i :
  table_shape t ->
  (forall m, In m radar_metrics ->
     (exists v, dict_get (min_metric_values g) m = Some v)
     /\ exists v, dict_get (max_metric_values g) m = Some v) ->
  state_positions state t = [i] ->
  (i < List.length (tkeys t))%nat
  /\ radar_rows g (prepare_mean_radar_data t) state
     = Some (map (radar_row_at g (prepare_mean_radar_data t) i)
                 radar_metrics)
  /\ forall m, In m radar_metrics ->
       exists c, tcolumn t m = Some c
         /\ List.length c = List.length (tkeys t)
         /\ cell_or_nan (prepare_mean_radar_data t) m i = nth i c NaN
         /\ cell_or_nan (prepare_mean_radar_data t) ("mean_" ++ m) 0
            = series_mean c.
Proof.
  intros (Hn & Hs) Hstat Hpos.
  assert (Hi : (i < List.length (tkeys t))%nat).
  { destruct (@positions_from_nth 0 state (tkeys t) i) as (_ & k & Hnth & _).
    { unfold state_positions in Hpos. rewrite Hpos. now left. }
    rewrite Nat.sub_0_r in Hnth. apply nth_error_Some. congruence. }
  assert (Hcells : forall m, In m radar_metrics ->
            exists c, tcolumn t m = Some c
              /\ List.length c = List.length (tkeys t)
              /\ tcolumn (prepare_mean_radar_data t) m = Some c
              /\ tcolumn (prepare_mean_radar_data t) ("mean_" ++ m)
                 = Some (repeat (series_mean c) (List.length (tkeys t)))).
  { intros m Hm. destruct (Hs m Hm) as (c & Hc & Hl).
    destruct (prepare_mean_radar_data_columns t Hm) as (_ & E1 & _ & E2).
    exists c. repeat split; auto. now rewrite E1. }
  split; [exact Hi|]. split.
  - apply radar_rows_at; auto.
    + unfold state_positions. now rewrite prepare_mean_keys.
    + intros m Hm. destruct (Hcells m Hm) as (c & _ & Hl & Hc & _).
      exists c. split; [exact Hc | now rewrite Hl].
    + intros m Hm. destruct (Hcells m Hm) as (c & _ & _ & _ & Hc).
      eexists. split; [exact Hc|]. rewrite repeat_length.
      unfold key in *. lia.
  - intros m Hm. destruct (Hcells m Hm) as (c & Hc & Hl & Hc1 & Hc2).
    exists c. unfold cell_or_nan. rewrite Hc1, Hc2.
    repeat split; auto.
    destruct (tkeys t); [simpl in Hi; lia | reflexivity].
Qed.

(** On a table keyed by state alone the radar rows exist exactly when the
    state is one of the keys. *)
Lemma radar_rows_defined g t state :
  NoDup (tkeys t) ->
  (forall k, In k (tkeys t) -> exists x, k = [x]) ->
  (In [state] (tkeys t) -> exists i, state_positions state t = [i])
  /\ (~ In [state] (tkeys t) ->
      radar_rows g (prepare_mean_radar_data t) state = None).
Proof.
  intros Hnd Hone. split.
  - intros Hin.
    destruct (@positions_single 0 state (tkeys t) Hnd Hone Hin)
      as (i & Hpos & _). eauto.
  - intros Hout. unfold radar_rows, state_positions.
    rewrite prepare_mean_keys, positions_none; [reflexivity|].
    intros k Hk. destruct (Hone k Hk) as (x & ->).
    rewrite is_state_singleton. destruct (String.eqb x state) eqn:E; [|reflexivity].
    apply String.eqb_eq in E. subst x. contradiction.
Qed.

(** The table a radar call on a loaded module works on. *)
Lemma radar_call_at_load d g0 df state :
  load_module d = Some g0 ->
  (oid df = 0%nat -> df = data g0) ->
  exists g',
    (oid df <> 0%nat -> g' = g0)
    /\ min_metric_values g' = min_metric_values g0
    /\ max_metric_values g' = max_metric_values g0
    /\ prepare_radar_data g0 df state
       = (radar_rows g'
            (prepare_mean_radar_data
               (compute_agg_safety_score (frame df) None)) state, g').
Proof.
  intros Hload Hid.
  destruct (load_module_shape Hload) as (Hd & Hr & _).
  unfold prepare_radar_data. rewrite Hd. cbn [oid].
  destruct (Nat.eqb (oid df) 0) eqn:E.
  - apply Nat.eqb_eq in E. rewrite (Hid E), Hd, Hr. cbn [frame].
    eexists. split; [intros H; exfalso; apply H; reflexivity|].
    split; [|split]; [| |reflexivity]; reflexivity.
  - exists g0. repeat split; auto.
Qed.

Lemma load_module_stats d g0 m :
  load_module d = Some g0 -> In m radar_metrics ->
  (exists v, dict_get (min_metric_values g0) m = Some v)
  /\ exists v, dict_get (max_metric_values g0) m = Some v.
Proof.
  intros Hload Hm. destruct (load_module_shape Hload) as (_ & _ & H).
  destruct (H m Hm) as (c & _ & Hmin & Hmax). eauto.
Qed.

Lemma safety_score_state_keys df :
  wf_frame df = true ->
  NoDup (tkeys (compute_agg_safety_score df None))
  /\ forall k, In k (tkeys (compute_agg_safety_score df None)) ->
               exists x, k = [x].
Proof.
  intros Hwf. rewrite (@safety_score_keys df None Hwf). split.
  - now apply group_keys_NoDup.
  - intros k Hk. destruct (@group_keys_single _ _ _ _ Hk) as (x & -> & _). eauto.
Qed.

(** When a radar call returns a table, and what the table holds. *)
Lemma radar_defined (d : DataFrame) (g0 g : Globals)
  (df : FrameObj) (state : string)
  (Hload : load_module d = Some g0)
  (Hinv : radar_inv g0 g)
  (Hwf : wf_frame (frame df) = true)
  (Hid : oid df = 0%nat -> df = data g0) :
  let t := compute_agg_safety_score (frame df) None in
  (In [state] (group_keys false (frame df) [col_state_code]) ->
   exists out i,
     fst (prepare_radar_data g df state) = Some out
     /\ map kpi out = radar_metrics
     /\ nth_error (tkeys t) i = Some [state]
     /\ forall r, In r out ->
          exists c, tcolumn t (kpi r) = Some c
                    /\ nth_error c i = Some (value r)
                    /\ mean_value r = series_mean c)
  /\ (~ In [state] (group_keys false (frame df) [col_state_code]) ->
      fst (prepare_radar_data g df state) = None).
Proof.
  intros t. rewrite (radar_inv_stable df state Hload Hinv).
  destruct (radar_call_at_load state Hload Hid) as (g' & _ & Hmin & Hmax & E).
  rewrite E. cbn [fst]. fold t.
  destruct (@safety_score_state_keys (frame df) Hwf) as (Hnd & Hone).
  fold t in Hnd, Hone.
  assert (Hstat : forall m, In m radar_metrics ->
            (exists v, dict_get (min_metric_values g') m = Some v)
            /\ exists v, dict_get (max_metric_values g') m = Some v).
  { intros m Hm. rewrite Hmin, Hmax. now apply (load_module_stats Hload). }
  destruct (@radar_rows_defined g' t state Hnd Hone) as (Hyes & Hno).
  assert (Hk : tkeys t = group_keys false (frame df) [col_state_code])
    by apply (@safety_score_keys (frame df) None Hwf).
  rewrite <- Hk. split; [|exact Hno].
  intros Hin. destruct (Hyes Hin) as (i & Hpos).
  destruct (@radar_rows_selected g' t state i
              (safety_score_shape (frame df) None) Hstat Hpos)
    as (Hi & Hrows & Hcells).
  eexists. exists i. split; [exact Hrows|].
  split; [now rewrite map_map, map_id|]. split.
  - destruct (@positions_from_nth 0 state (tkeys t) i) as (_ & k & Hnth & Hs).
    { unfold state_positions in Hpos. rewrite Hpos. now left. }
    rewrite Nat.sub_0_r in Hnth. rewrite Hnth.
    destruct (Hone k (nth_error_In _ _ Hnth)) as (x & ->).
    rewrite is_state_singleton in Hs. apply String.eqb_eq in Hs. now subst.
  - intros r Hr. apply in_map_iff in Hr as (m & <- & Hm).
    destruct (Hcells m Hm) as (c & Hc & Hl & Hv & Hmean).
    exists c. cbn [kpi value mean_value radar_row_at].
    split; [exact Hc|]. split; [|exact Hmean].
    rewrite Hv. apply nth_error_nth'. rewrite Hl. exact Hi.
Qed.

(** X9.  A radar call on a loaded module, after any earlier radar calls and
    for the base object or any other well-formed frame, returns a table
    exactly when the state is a group key of the frame (a state of one of
    its records, or a level of a categorical state column).  The table
    then has one row per metric, in the order of the metric list; the
    row's value is the state's cell in the safety-score table of the
    frame, and its mean is the mean of that column over all states.  For
    any other state the call raises. *)
Theorem radar_preparer_defined (d : DataFrame) (g0 : Globals)
  (calls : list (FrameObj * string)) (df : FrameObj) (state : string)
  (Hload : load_module d = Some g0)
  (Hwf : wf_frame (frame df) = true)
  (Hid : oid df = 0%nat -> df = data g0) :
  let g := after_radar_calls g0 calls in
  let t := compute_agg_safety_score (frame df) None in
  (In [state] (group_keys false (frame df) [col_state_code]) ->
   exists out i,
     fst (prepare_radar_data g df state) = Some out
     /\ map kpi out = radar_metrics
     /\ nth_error (tkeys t) i = Some [state]
     /\ forall r, In r out ->
          exists c, tcolumn t (kpi r) = Some c
                    /\ nth_error c i = Some (value r)
                    /\ mean_value r = series_mean c)
  /\ (~ In [state] (group_keys false (frame df) [col_state_code]) ->
      fst (prepare_radar_data g df state) = None).
Proof.
  exact (@radar_defined d g0 (after_radar_calls g0 calls) df state Hload
           (@radar_calls_inv d g0 calls Hload) Hwf Hid).
Qed.

(** X10.  On the base object the radar is scaled with the statistics of
    the very columns it reads: when every value of the five metric columns
    of the score table is finite, every scaled value and every scaled mean
    of the radar table lies between 0 and 1, whatever radar calls came
    before. *)
Theorem radar_base_unit_interval (d : DataFrame) (g0 : Globals)
  (calls : list (FrameObj * string)) (state : string) (out : list RadarRow)
  (Hload : load_module d = Some g0)
  (Hfin : all_finite_metrics (region_safety_score g0) = true)
  (Hout : fst (prepare_radar_data (after_radar_calls g0 calls) (data g0) state)
          = Some out) :
  forall r, In r out ->
    unit_float (scaled_value r) /\ unit_float (scaled_mean_value r).
Proof.
  rewrite (radar_calls_stable calls (data g0) state Hload) in Hout.
  destruct (load_module_shape Hload) as (Hd & _ & Hst).
  unfold prepare_radar_data in Hout. rewrite Nat.eqb_refl in Hout.
  cbn [fst] in Hout.
  set (t := region_safety_score g0) in *.
  set (g' := set_region g0 (prepare_mean_radar_data t)) in *.
  assert (Hstat : forall m, In m radar_metrics ->
            (exists v, dict_get (min_metric_values g') m = Some v)
            /\ exists v, dict_get (max_metric_values g') m = Some v)
    by (intros m Hm; now apply (load_module_stats Hload)).
  assert (Hpos : exists i, state_positions state t = [i]).
  { unfold radar_rows, state_positions in Hout.
    rewrite prepare_mean_keys in Hout. unfold state_positions.
    destruct (positions_from 0 state (tkeys t)) as [|i [|]];
      [discriminate | eauto | discriminate]. }
  destruct Hpos as (i & Hpos).
  destruct (@radar_rows_selected g' t state i
              (load_module_table_shape Hload) Hstat Hpos)
    as (Hi & Hrows & Hcells).
  assert (Eo : out = map (radar_row_at g' (prepare_mean_radar_data t) i)
                         radar_metrics) by congruence.
  subst out. clear Hout.
  intros r Hr. apply in_map_iff in Hr as (m & <- & Hm).
  destruct (Hcells m Hm) as (c & Hc & Hl & Hv & Hmean).
  destruct (Hst m Hm) as (c' & Hc' & Hmin & Hmax).
  fold t in Hc'. rewrite Hc in Hc'. inversion Hc'; subst c'; clear Hc'.
  assert (Hcf : forallb is_finite c = true).
  { unfold all_finite_metrics in Hfin. rewrite forallb_forall in Hfin.
    specialize (Hfin m Hm). fold t in Hfin. now rewrite Hc in Hfin. }
  destruct (finite_column _ Hcf) as (qs & ->).
  assert (Hne : qs <> []).
  { intros ->. simpl in Hl. unfold key in *. lia. }
  destruct (series_bounds Hne) as (lo & hi & mu & Elo & Ehi & Emu & Hall & Hmu).
  cbn [scaled_value scaled_mean_value radar_row_at].
  unfold stat_or_nan.
  change (min_metric_values g') with (min_metric_values g0).
  change (max_metric_values g') with (max_metric_values g0).
  rewrite Hmin, Hmax, Hv, Hmean, Elo, Ehi, Emu.
  rewrite length_map in Hl.
  assert (Hnth : nth i (map Fin qs) NaN = Fin (nth i qs 0)).
  { rewrite <- (map_nth Fin). apply nth_indep. rewrite length_map.
    unfold key in *. lia. }
  rewrite Hnth. split; apply scale_unit_interval; [|exact Hmu].
  apply Hall, nth_In. unfold key in *. lia.
Qed.

(** X11.  Radar calls on the base object leave their [mean_*] columns in
    the module-level score table, yet no later radar call can tell: after
    any series of radar calls a call returns what it returns on the
    freshly loaded module, and the base object and the three statistics
    dicts are the ones of the load. *)
Theorem radar_calls_leave_results_unchanged (d : DataFrame) (g0 : Globals)
  (calls : list (FrameObj * string)) (df : FrameObj) (state : string)
  (Hload : load_module d = Some g0) :
  let g := after_radar_calls g0 calls in
  fst (prepare_radar_data g df state) = fst (prepare_radar_data g0 df state)
  /\ data g = data g0
  /\ min_metric_values g = min_metric_values g0
  /\ max_metric_values g = max_metric_values g0
  /\ mean_metric_values g = mean_metric_values g0.
Proof.
  intros g. split; [now apply (radar_calls_stable calls df state Hload)|].
  assert (Hinv : radar_inv g0 g)
    by (apply radar_inv_calls, radar_inv_refl,
          (load_module_table_shape Hload)).
  destruct Hinv as (Hd & Hmin & Hmax & Hmean & _). auto.
Qed.

(* ================================================================== *)
(** * Click handlers on well-formed payloads *)
(* ================================================================== *)

Lemma rev_label_key label k :
  dict_get dropdown_options_rev label = Some k ->
  dict_get dropdown_options k = Some label.
Proof.
  unfold dropdown_options_rev. cbn [dict_get].
  repeat match goal with
         | |- context [String.eqb label ?x] =>
             let E := fresh "E" in
             destruct (String.eqb label x) eqn:E;
             [apply String.eqb_eq in E; subst label; intros H; inversion H; reflexivity|]
         end.
  discriminate.
Qed.

Lemma label_rev_key label k :
  dict_get dropdown_options k = Some label ->
  dict_get dropdown_options_rev label = Some k.
Proof.
  unfold dropdown_options. cbn [dict_get].
  repeat match goal with
         | |- context [String.eqb k ?x] =>
             let E := fresh "E" in
             destruct (String.eqb k x) eqn:E;
             [apply String.eqb_eq in E; subst k; intros H; inversion H; reflexivity|]
         end.
  discriminate.
Qed.

Lemma label_known k label :
  dict_get dropdown_options k = Some label ->
  In k (map fst kpi_name_function_mapping).
Proof.
  unfold dropdown_options. cbn [dict_get].
  repeat match goal with
         | |- context [String.eqb k ?x] =>
             let E := fresh "E" in
             destruct (String.eqb k x) eqn:E;
             [apply String.eqb_eq in E; subst k; intros _; simpl; tauto|]
         end.
  discriminate.
Qed.

Lemma has_key_get d k v : dict_get d k = Some v -> has_key d k = true.
Proof. unfold has_key. now intros ->. Qed.

(** X12.  The radar-click handler writes to the KPI dropdown only keys of
    the metric dispatch table: whatever the payload, a value it sets is
    the key whose label was clicked.  The two label tables of
    [mappings.py] are inverse to each other, so clicking the label of a
    KPI selects that KPI. *)
Theorem radar_click_selects_kpi :
  (forall click_data k,
     update_on_radar_click click_data = Return (Set_to k) ->
     In k (map fst kpi_name_function_mapping)
     /\ exists d point rest label,
          click_data = Some d
          /\ dict_get d "points" = Some (JList (point :: rest))
          /\ getitem point "theta" = Return (JStr label)
          /\ dict_get dropdown_options k = Some label)
  /\ (forall k label,
        dict_get dropdown_options k = Some label
        <-> dict_get dropdown_options_rev label = Some k)
  /\ (forall d pd rest k label,
        dict_get d "points" = Some (JList (JDict pd :: rest)) ->
        dict_get pd "theta" = Some (JStr label) ->
        dict_get dropdown_options k = Some label ->
        update_on_radar_click (Some d) = Return (Set_to k)).
Proof.
  split; [|split].
  - intros click_data k H. unfold update_on_radar_click in H.
    destruct click_data as [[|e d]|]; try discriminate.
    destruct (has_key (e :: d) "points") eqn:Hk; [|discriminate].
    unfold getitem at 1 in H. unfold has_key in Hk.
    destruct (dict_get (e :: d) "points") as [points|] eqn:Hp; [|discriminate].
    cbn [bind] in H.
    destruct (item0 points) as [point|] eqn:Hi; [|discriminate].
    cbn [bind] in H.
    destruct (getitem point "theta") as [theta|] eqn:Ht; [|discriminate].
    cbn [bind] in H. unfold rev_label_get in H.
    destruct theta as [| | |label| |]; try discriminate.
    destruct (dict_get dropdown_options_rev label) as [k'|] eqn:Hr;
      [|discriminate].
    inversion H; subst k'. apply rev_label_key in Hr.
    split; [now apply (label_known _ Hr)|].
    destruct points as [| | |s|l|]; try discriminate.
    + destruct s; [discriminate|]. inversion Hi; subst. discriminate.
    + destruct l as [|x rest]; [discriminate|]. inversion Hi; subst x.
      exists (e :: d), point, rest, label. auto.
  - intros k label. split; [apply label_rev_key | apply rev_label_key].
  - intros d pd rest k label Hp Ht Hl. unfold update_on_radar_click.
    destruct d as [|e d]; [discriminate|].
    rewrite (has_key_get _ _ Hp). unfold getitem at 1. rewrite Hp.
    cbn [bind item0 getitem]. rewrite Ht. cbn [bind rev_label_get].
    now rewrite (label_rev_key _ Hl).
Qed.

Lemma same_selection_eq a b : same_selection a b = true -> a = b.
Proof.
  destruct a, b; simpl; try discriminate; intros H.
  - reflexivity.
  - apply Bool.eqb_prop in H. now subst.
  - apply Z.eqb_eq in H. now subst.
  - apply String.eqb_eq in H. now subst.
Qed.

(** X13.  The map-click handler returns the clicked location whatever the
    state selected before: its comparison with the current state never
    changes the result.  It keeps the current state on a missing or empty
    payload, and, having no test for [points], raises [KeyError] on any
    other payload without that key. *)
Theorem map_click_selects_location :
  (forall d point rest location current_state,
     dict_get d "points" = Some (JList (point :: rest)) ->
     getitem point "location" = Return location ->
     update_selected_state (Some d) current_state = Return location)
  /\ (forall current_state,
        update_selected_state None current_state = Return current_state
        /\ update_selected_state (Some []) current_state
           = Return current_state)
  /\ (forall d current_state,
        d <> [] -> dict_get d "points" = None ->
        update_selected_state (Some d) current_state = Raise KeyError).
Proof.
  split; [|split].
  - intros d point rest location current_state Hp Hl.
    unfold update_selected_state.
    destruct d as [|e d]; [discriminate|].
    unfold getitem at 1. rewrite Hp. cbn [bind item0]. rewrite Hl.
    cbn [bind].
    destruct (same_selection location current_state) eqn:E; [|reflexivity].
    now rewrite (same_selection_eq _ _ E).
  - intros c. split; reflexivity.
  - intros d c Hd Hp. unfold update_selected_state.
    destruct d as [|e d]; [congruence|].
    unfold getitem at 1. now rewrite Hp.
Qed.

Lemma in_group_soc p l r :
  in_group soc_cols [p; l] r
  = String.eqb (soc_description_1 r) p && String.eqb (soc_description_2 r) l.
Proof.
  unfold in_group, row_key, soc_cols. simpl.
  now rewrite andb_true_r.
Qed.

Lemma filter_ext_in' {A} (f g : A -> bool) l :
  (forall x, In x l -> f x = g x) -> filter f l = filter g l.
Proof.
  induction l as [|x l IH]; simpl; intros H; [reflexivity|].
  rewrite (H x) by now left. rewrite IH; [reflexivity|].
  intros y Hy. apply H. now right.
Qed.

(** A treemap click only narrows the frame. *)
Lemma treemap_selection_narrows fd d fd' :
  treemap_selection fd d = Some (Return fd') ->
  levels fd' = levels fd
  /\ exists q, rows fd' = filter q (rows fd).
Proof.
  assert (Hsame : levels fd = levels fd
                  /\ exists q, rows fd = filter q (rows fd)).
  { split; [reflexivity|]. exists (fun _ => true).
    symmetry. now apply filter_all. }
  unfold treemap_selection.
  destruct (has_key d "points"); [|intros H; inversion H; subst; exact Hsame].
  destruct (getitem (JDict d) "points") as [points|]; [|discriminate].
  destruct (item0 points) as [point|]; [|discriminate].
  destruct (getitem point "label") as [label|]; [|discriminate].
  cbv zeta.
  destruct (truthy (get_or_none point "parent")
            && differs_from (get_or_none point "parent") "US Market").
  - destruct (scalar (get_or_none point "parent") && scalar label);
      [|discriminate].
    intros H; inversion H; subst. simpl. eauto.
  - destruct (differs_from label "US Market");
      [|intros H; inversion H; subst; exact Hsame].
    destruct (scalar label); [|discriminate].
    intros H; inversion H; subst. simpl. eauto.
Qed.

Lemma mapping_key_In name (f : DataFrame -> option Col -> Table) :
  dict_get kpi_name_function_mapping name = Some f ->
  In name (map fst kpi_name_function_mapping).
Proof. apply dict_get_In. Qed.

(** X14.  Clicking a leaf of the treemap selects the records that leaf
    counts: for a leaf of the treemap table of a frame and a state, a
    click payload carrying the leaf's two occupation levels as parent and
    label leaves exactly the rows of that pair, and the rows of the state
    among them are as many as the leaf's count.  The level-1 category
    must not be the empty string, which the handler reads as no parent,
    nor the name of the root. *)
Theorem treemap_click_selects_leaf_rows (fd : DataFrame)
  (state kpi_name : string) (out : list TreemapRow) (leaf : TreemapRow)
  (d pd : list (string * json)) (rest : list json) (p l : string)
  (Hwf : wf_frame fd = true)
  (Hprep : prepare_treemap_data fd state kpi_name = Some out)
  (Hleaf : In leaf out)
  (Hkey : soc_key leaf = [p; l])
  (Hparented : p <> "")
  (Hroot : p <> "US Market")
  (Hpoints : dict_get d "points" = Some (JList (JDict pd :: rest)))
  (Hlabel : dict_get pd "label" = Some (JStr l))
  (Hparent : dict_get pd "parent" = Some (JStr p)) :
  exists fd',
    treemap_selection fd d = Some (Return fd')
    /\ levels fd' = levels fd
    /\ rows fd' = filter (in_group soc_cols [p; l]) (rows fd)
    /\ Qcount (state_rows fd' state) = count leaf.
Proof.
  assert (Hkpi : In kpi_name (map fst kpi_name_function_mapping)).
  { unfold prepare_treemap_data in Hprep.
    destruct (dict_get kpi_name_function_mapping kpi_name) as [f|] eqn:E;
      [|discriminate].
    now apply (mapping_key_In _ E). }
  destruct (@treemap_leaves fd state kpi_name Hwf Hkpi)
    as (out' & Hout' & _ & _ & Hleaves & _).
  rewrite Hprep in Hout'. inversion Hout'; subst out'; clear Hout'.
  destruct (Hleaves leaf Hleaf) as (s1 & s2 & Hk & Hn1 & Hn2 & Hcount & Hpos).
  rewrite Hkey in Hk. inversion Hk; subst s1 s2; clear Hk.
  exists (with_rows fd (filter (in_group soc_cols [p; l]) (rows fd))).
  assert (Hsel : treemap_selection fd d
                 = Some (Return
                           (with_rows fd
                              (filter (in_group soc_cols [p; l]) (rows fd))))).
  { unfold treemap_selection. rewrite (has_key_get _ _ Hpoints).
    unfold getitem at 1. rewrite Hpoints. cbn [item0 getitem].
    rewrite Hlabel. cbn [get_or_none]. rewrite Hparent.
    cbn [truthy differs_from scalar].
    destruct (String.eqb p "") eqn:E1;
      [apply String.eqb_eq in E1; contradiction|].
    destruct (String.eqb p "US Market") eqn:E2;
      [apply String.eqb_eq in E2; contradiction|].
    cbn [negb andb]. do 3 f_equal. apply filter_ext_in'.
    intros r _. now rewrite in_group_soc. }
  split; [exact Hsel|]. split; [reflexivity|]. split; [reflexivity|].
  rewrite Hcount. unfold state_rows. cbn [rows with_rows].
  f_equal. rewrite !filter_filter. apply filter_ext_in'.
  intros r _. rewrite in_group_soc. unfold assigned_occupation.
  destruct (String.eqb (state_code r) state); cbn [andb];
    [|now rewrite andb_false_r].
  destruct (String.eqb (soc_description_1 r) p) eqn:E; cbn [andb];
    [|now rewrite andb_false_r].
  apply String.eqb_eq in E. rewrite E.
  destruct (String.eqb p "Insufficient info") eqn:E1;
    [apply String.eqb_eq in E1; contradiction|].
  destruct (String.eqb p "Not assigned") eqn:E2;
    [apply String.eqb_eq in E2; contradiction|].
  cbn [negb andb]. now rewrite andb_true_r.
Qed.

Lemma narrowed_frame_wf (fd fd' : DataFrame) q :
  wf_frame fd = true -> levels fd' = levels fd ->
  rows fd' = filter q (rows fd) -> wf_frame fd' = true.
Proof.
  intros Hwf Hl Hr.
  assert (E : fd' = with_rows fd (filter q (rows fd))).
  { destruct fd' as [lv rs]. simpl in Hl, Hr. subst. reflexivity. }
  rewrite E. apply wf_with_rows; [exact Hwf|].
  intros r Hin. now apply filter_In in Hin as [Hin _].
Qed.


Lemma same_selection_str a o :
  same_selection a (JStr o) = true <-> a = JStr o.
Proof.
  split.
  - apply same_selection_eq.
  - intros ->. simpl. apply String.eqb_refl.
Qed.

(** X16.  The bar-click handler is a toggle on the stored outcome.  For a
    click on outcome [o], on a base dataset that satisfies the categorical
    invariant, neither preparer raises.  When the store holds [o]
    already, the handler clears the store and returns the treemap (always
    for the incident rate) and the scatter table of the whole filtered
    frame; otherwise it stores [o] and returns the tables of the filtered
    rows whose outcome is [o]. *)
Theorem bar_click_toggles (g : Globals) (d : list (string * json))
  (point : json) (rest : list json) (o : string) (selected_data : json)
  (start_date end_date : Z) (types : list string) (state : string)
  (Hwf : wf_frame (frame (data g)) = true)
  (Hpoints : dict_get d "points" = Some (JList (point :: rest)))
  (Hy : getitem point "y" = Return (JStr o)) :
  let fd := frame (fst (filter_data (data g) start_date end_date types
                                    (next_oid g))) in
  let narrowed :=
    with_rows fd
      (filter (fun r => String.eqb (incident_outcome r) o) (rows fd)) in
  let shown := if same_selection selected_data (JStr o) then fd else narrowed in
  (exists treemap scatter,
     prepare_treemap_data shown state "incident_rate" = Some treemap
     /\ prepare_scatter_plot shown state = Some scatter
     /\ update_graphs_on_barchart_click g (Some d) start_date end_date types
                                        state selected_data
        = Return (treemap, scatter,
                  if same_selection selected_data (JStr o)
                  then JNull else JStr o))
  /\ (same_selection selected_data (JStr o) = true <-> selected_data = JStr o).
Proof.
  intros fd narrowed shown.
  assert (Hfd : wf_frame fd = true) by now apply filter_data_wf.
  assert (Hnar : wf_frame narrowed = true).
  { apply wf_with_rows; [exact Hfd|].
    intros r Hin. now apply filter_In in Hin as [Hin _]. }
  assert (Hshown : wf_frame shown = true)
    by (unfold shown; now destruct (same_selection selected_data (JStr o))).
  split; [|apply same_selection_str].
  assert (Hkpi : In "incident_rate" (map fst kpi_name_function_mapping))
    by (simpl; tauto).
  destruct (@treemap_leaves shown state "incident_rate" Hshown Hkpi)
    as (treemap & Ht & _).
  destruct (@scatter_table_rows shown state Hshown) as (scatter & Hs & _).
  exists treemap, scatter. split; [exact Ht|]. split; [exact Hs|].
  unfold update_graphs_on_barchart_click. fold fd.
  destruct d as [|e0 d]; [discriminate|].
  rewrite (has_key_get _ _ Hpoints). unfold getitem at 1. rewrite Hpoints.
  cbn [bind item0]. rewrite Hy. cbn [bind].
  unfold shown in Ht, Hs.
  destruct (same_selection selected_data (JStr o)); cbn [bind].
  - rewrite Ht. cbn [of_option bind]. rewrite Hs. reflexivity.
  - unfold outcome_is. fold narrowed. rewrite Ht. cbn [of_option bind].
    rewrite Hs. reflexivity.
Qed.

(* ================================================================== *)
(** * The tab callback *)
(* ================================================================== *)

Lemma after_radar_calls_next_oid g calls :
  next_oid (after_radar_calls g calls) = next_oid g.
Proof.
  revert g; induction calls as [|[df s] calls IH]; intros g; simpl;
    [reflexivity|].
  rewrite IH. unfold prepare_radar_data.
  now destruct (Nat.eqb (oid df) (oid (data g))).
Qed.

Lemma load_module_next_oid d g0 :
  load_module d = Some g0 -> next_oid g0 = 1%nat.
Proof.
  unfold load_module.
  destruct (metric_statistics _ _) as [[[mins maxs] means]|]; [|discriminate].
  intros H. inversion H. reflexivity.
Qed.

(** [filter_data] returns its argument or an object allocated by it. *)
Lemma filter_data_alloc df start_date end_date types n :
  fst (filter_data df start_date end_date types n) = df
  \/ (n <= oid (fst (filter_data df start_date end_date types n)))%nat.
Proof.
  unfold filter_data.
  destruct (date_is start_date (date_min (rows (frame df)))
            && date_is end_date (date_max (rows (frame df)))
            && is_empty types); [now left|].
  right. unfold new_frame. destruct (negb (is_empty types)); simpl; lia.
Qed.

Lemma update_tab_contents_result g tab_name start_date end_date types
      kpi_name state :
  let filtered :=
    filter_data (data g) start_date end_date types (next_oid g) in
  let fd := frame (fst filtered) in
  fst (update_tab_contents g tab_name (Some start_date) (Some end_date)
                           types kpi_name state)
  = if is_empty (rows fd) then Some NoData
    else if String.eqb tab_name "state_analysis_tab" then
      match prepare_state_data fd kpi_name with
      | None => None
      | Some map_data =>
          radar_chart_data <-
            fst (prepare_radar_data (with_next_oid g (snd filtered))
                                    (fst filtered) state) ;;
          Some (StateAnalysis map_data radar_chart_data)
      end
    else if String.eqb tab_name "metric_analysis_tab" then
      scatter_plot_data <- prepare_scatter_plot fd state ;;
      treemap_data <- prepare_treemap_data fd state "incident_rate" ;;
      Some (MetricAnalysis scatter_plot_data treemap_data
              (prepare_stacked_bar_chart fd state))
    else Some NoContent.
Proof.
  intros filtered fd. unfold update_tab_contents. fold filtered.
  unfold fd. destruct filtered as [fo next]. cbn [fst snd].
  fold (with_next_oid g next).
  destruct (is_empty (rows (frame fo))); [reflexivity|].
  destruct (String.eqb tab_name "state_analysis_tab").
  - destruct (prepare_state_data (frame fo) kpi_name); [|reflexivity].
    now destruct (prepare_radar_data (with_next_oid g next) fo state).
  - now destruct (String.eqb tab_name "metric_analysis_tab").
Qed.

Lemma radar_inv_with_next_oid g0 g next :
  radar_inv g0 g -> radar_inv g0 (with_next_oid g next).
Proof. intros H. exact H. Qed.

Lemma is_empty_false {A} (l : list A) : l <> [] -> is_empty l = false.
Proof. destruct l; [congruence | reflexivity]. Qed.

Lemma is_empty_true {A} (l : list A) : l = [] -> is_empty l = true.
Proof. now intros ->. Qed.

Lemma date_range_nonempty (rs : list Incident) :
  rs <> [] ->
  exists lo hi, date_min rs = Some lo /\ date_max rs = Some hi.
Proof.
  destruct rs as [|r rs]; [congruence|]. intros _.
  unfold date_min, date_max. simpl. eauto.
Qed.


(* ================================================================== *)
(** * Global statistics *)
(* ================================================================== *)

Lemma fold_fmin2_attained qs a :
  exists lo, fold_left fmin2 (map Fin qs) (Fin a) = Fin lo
             /\ In lo (a :: qs).
Proof.
  revert a; induction qs as [|q qs IH]; intros a; simpl.
  - exists a. auto.
  - unfold fmin2 at 2. simpl. destruct (Qlt_bool q a).
    + destruct (IH q) as (lo & -> & H). exists lo. simpl in *. tauto.
    + destruct (IH a) as (lo & -> & H). exists lo. simpl in *. tauto.
Qed.

Lemma fold_fmax2_attained qs a :
  exists hi, fold_left fmax2 (map Fin qs) (Fin a) = Fin hi
             /\ In hi (a :: qs).
Proof.
  revert a; induction qs as [|q qs IH]; intros a; simpl.
  - exists a. auto.
  - unfold fmax2 at 2. simpl. destruct (Qlt_bool a q).
    + destruct (IH q) as (hi & -> & H). exists hi. simpl in *. tauto.
    + destruct (IH a) as (hi & -> & H). exists hi. simpl in *. tauto.
Qed.

Lemma series_extremes_attained qs :
  qs <> [] ->
  In (series_min (map Fin qs)) (map Fin qs)
  /\ In (series_max (map Fin qs)) (map Fin qs).
Proof.
  destruct qs as [|a qs]; [congruence|]. intros _.
  unfold series_min, series_max. rewrite dropna_Fin. cbn [map].
  destruct (fold_fmin2_attained qs a) as (lo & -> & Hlo).
  destruct (fold_fmax2_attained qs a) as (hi & -> & Hhi).
  change (Fin a :: map Fin qs) with (map Fin (a :: qs)).
  split; now apply in_map.
Qed.

Lemma load_module_means d g0 m :
  load_module d = Some g0 -> In m radar_metrics ->
  exists c, tcolumn (region_safety_score g0) m = Some c
            /\ dict_get (mean_metric_values g0) m = Some (series_mean c).
Proof.
  unfold load_module. simpl. intros H. inversion H; subst; clear H.
  cbn [region_safety_score mean_metric_values].
  intros Hm. simpl in Hm.
  repeat destruct Hm as [<-|Hm]; try contradiction;
    (eexists; split; reflexivity).
Qed.

Lemma series_mean_exact qs :
  qs <> [] ->
  exists mu, series_mean (map Fin qs) = Fin mu /\ mu == Qsum qs / Qcount qs.
Proof.
  destruct qs as [|a qs]; [congruence|]. intros _.
  unfold series_mean. rewrite dropna_Fin. cbn [map].
  change (Fin a :: map Fin qs) with (map Fin (a :: qs)).
  unfold fsum. rewrite fsum_Fin_from.
  assert (Hn : 0 < Qcount (map Fin (a :: qs))).
  { apply Qlt_le_trans with 1; [reflexivity|].
    apply (@Qcount_pos _ _ (Fin a)). now left. }
  cbn [fdiv]. rewrite (Qeq_bool_pos Hn).
  eexists. split; [reflexivity|].
  rewrite fold_left_Qplus, Qplus_0_l.
  unfold Qcount. rewrite length_map. reflexivity.
Qed.

(** X18.  The statistics computed when the module is loaded.  On a
    dataset with at least one record whose five metric columns are finite,
    the minimum and the maximum stored for a metric are values of its
    column in the score table, every value of the column lies between
    them, and the stored mean is the sum of the column divided by the
    number of its rows, which lies between them too. *)
Theorem module_statistics_bounds (d : DataFrame) (g0 : Globals) (m : string)
  (Hload : load_module d = Some g0)
  (Hwf : wf_frame d = true)
  (Hrows : rows d <> [])
  (Hfin : all_finite_metrics (region_safety_score g0) = true)
  (Hm : In m radar_metrics) :
  exists qs lo hi mu,
    tcolumn (region_safety_score g0) m = Some (map Fin qs)
    /\ List.length qs = List.length (group_keys false d [col_state_code])
    /\ dict_get (min_metric_values g0) m = Some (Fin lo)
    /\ dict_get (max_metric_values g0) m = Some (Fin hi)
    /\ dict_get (mean_metric_values g0) m = Some (Fin mu)
    /\ In lo qs /\ In hi qs
    /\ (forall q, In q qs -> lo <= q <= hi)
    /\ mu == Qsum qs / Qcount qs
    /\ lo <= mu <= hi.
Proof.
  destruct (load_module_shape Hload) as (_ & Hr & Hst).
  destruct (Hst m Hm) as (c & Hc & Hmin & Hmax).
  destruct (load_module_means Hload Hm) as (c' & Hc' & Hmean).
  rewrite Hc in Hc'. inversion Hc'; subst c'; clear Hc'.
  destruct (load_module_table_shape Hload) as (_ & Hshape).
  destruct (Hshape m Hm) as (c' & Hc' & Hlen).
  rewrite Hc in Hc'. inversion Hc'; subst c'; clear Hc'.
  rewrite Hr, (@safety_score_keys d None Hwf) in Hlen. cbn [agg_cols] in Hlen.
  assert (Hcf : forallb is_finite c = true).
  { unfold all_finite_metrics in Hfin. rewrite forallb_forall in Hfin.
    specialize (Hfin m Hm). now rewrite Hc in Hfin. }
  destruct (finite_column _ Hcf) as (qs & ->).
  rewrite length_map in Hlen.
  assert (Hne : qs <> []).
  { intros ->. destruct (rows d) as [|r rs] eqn:E; [congruence|].
    assert (Hin : In [state_code r] (group_keys false d [col_state_code])).
    { apply state_key_present; [exact Hwf|]. rewrite E. now left. }
    destruct (group_keys false d [col_state_code]); [destruct Hin|].
    simpl in Hlen. discriminate. }
  destruct (series_bounds Hne) as (lo & hi & mu & Elo & Ehi & Emu & Hall & Hmu).
  destruct (series_extremes_attained Hne) as (Alo & Ahi).
  destruct (series_mean_exact Hne) as (mu' & Emu' & Hexact).
  rewrite Emu in Emu'. inversion Emu'; subst mu'; clear Emu'.
  rewrite Elo in Alo. rewrite Ehi in Ahi.
  apply in_map_iff in Alo as (qlo & Eqlo & Hqlo). inversion Eqlo; subst qlo.
  apply in_map_iff in Ahi as (qhi & Eqhi & Hqhi). inversion Eqhi; subst qhi.
  exists qs, lo, hi, mu.
  rewrite Hmin, Hmax, Hmean, Elo, Ehi, Emu.
  split; [exact Hc|]. split; [exact Hlen|].
  split; [reflexivity|]. split; [reflexivity|]. split; [reflexivity|].
  split; [exact Hqlo|]. split; [exact Hqhi|]. split; [exact Hall|].
  split; [exact Hexact | exact Hmu].
Qed.

(* ================================================================== *)
(** * Further instances *)
(* ================================================================== *)

Lemma fatality_and_lost_workday_by_state_witness :
  wf_frame sample_categorical = true
  /\ In "CA" (map state_code (rows sample_categorical))
  /\ lookup_key ["CA"] (compute_agg_fatality_rate sample_categorical None)
     = Some (Fin (sum_of death (state_rows sample_categorical "CA")
                  / Qcount (state_rows sample_categorical "CA") * e4)).
Proof.
  split; [reflexivity|]. split; [simpl; tauto|].
  apply (@fatality_and_lost_workday_by_state sample_categorical "CA");
    [reflexivity | simpl; tauto].
Defined.

(** The level "AK" of the categorical state column has no record: its
    row carries 0 in both tables. *)
Example rates_of_level_without_records :
  lookup_key ["AK"] (compute_agg_fatality_rate sample_categorical None)
  = Some (Fin 0)
  /\ lookup_key ["AK"] (compute_agg_lost_workday_rate sample_categorical None)
     = Some (Fin 0).
Proof. split; vm_compute; reflexivity. Qed.

Lemma workforce_exposure_by_state_witness :
  wf_frame sample_categorical = true
  /\ In "CA" (map state_code (rows sample_categorical))
  /\ lookup_key ["CA"] (compute_workforce_exposure sample_categorical None)
     = Some (fmul (fdiv (Fin (Qcount (state_rows sample_categorical "CA")))
                        (Fin (sum_of annual_average_employees
                                     (companies_once sample_categorical "CA"))))
                  (Fin e2)).
Proof.
  split; [reflexivity|]. split; [simpl; tauto|].
  destruct (@workforce_exposure_by_state sample_categorical "CA")
    as (H & _); [reflexivity | simpl; tauto | exact H].
Defined.


Lemma filter_data_chained_witness :
  wf_frame (frame (data sample_globals)) = true
  /\ wf_frame
       (frame (fst (filter_data
                      (fst (filter_data (data sample_globals) 1 3 [] 1))
                      2 4 ["Fall"] 2))) = true.
Proof.
  split; [reflexivity|].
  apply (@filter_data_chained (data sample_globals) 1 3 2 4 [] ["Fall"] 1 2).
  reflexivity.
Defined.


Lemma state_data_rows_witness :
  wf_frame sample_categorical = true
  /\ In "danger_score" (map fst kpi_name_function_mapping)
  /\ exists out,
       prepare_state_data sample_categorical "danger_score" = Some out
       /\ map state_key out
          = group_keys false (drop_duplicates sample_categorical)
                       [col_state_code].
Proof.
  split; [reflexivity|]. split; [simpl; tauto|].
  destruct (@state_data_rows sample_categorical "danger_score")
    as (out & Hout & Hkeys & _); [reflexivity | simpl; tauto |].
  exists out. split; assumption.
Defined.


Lemma radar_preparer_defined_witness :
  load_module sample = Some sample_globals
  /\ wf_frame (frame sample_day3) = true
  /\ (oid sample_day3 = 0%nat -> sample_day3 = data sample_globals)
  /\ (~ In ["TX"] (group_keys false (frame sample_day3) [col_state_code]) ->
      fst (prepare_radar_data
             (after_radar_calls sample_globals [(data sample_globals, "CA")])
             sample_day3 "TX") = None).
Proof.
  assert (Hid : oid sample_day3 = 0%nat -> sample_day3 = data sample_globals)
    by (vm_compute; discriminate).
  split; [reflexivity|]. split; [reflexivity|]. split; [exact Hid|].
  apply (@radar_preparer_defined sample sample_globals
           [(data sample_globals, "CA")] sample_day3 "TX");
    [reflexivity | reflexivity | exact Hid].
Defined.

Lemma radar_base_unit_interval_witness :
  load_module sample = Some sample_globals
  /\ all_finite_metrics (region_safety_score sample_globals) = true
  /\ fst (prepare_radar_data
            (after_radar_calls sample_globals [(data sample_globals, "TX")])
            (data sample_globals) "CA")
     = Some (match fst sample_radar with Some out => out | None => [] end)
  /\ forall r,
       In r (match fst sample_radar with Some out => out | None => [] end) ->
       unit_float (scaled_value r) /\ unit_float (scaled_mean_value r).
Proof.
  split; [reflexivity|]. split; [reflexivity|].
  split; [vm_compute; reflexivity|].
  apply (@radar_base_unit_interval sample sample_globals
           [(data sample_globals, "TX")] "CA");
    [reflexivity | reflexivity | vm_compute; reflexivity].
Defined.

Lemma radar_calls_leave_results_unchanged_witness :
  load_module sample = Some sample_globals
  /\ fst (prepare_radar_data
            (after_radar_calls sample_globals
               [(data sample_globals, "CA"); (sample_day3, "CA")])
            sample_day3 "CA")
     = fst (prepare_radar_data sample_globals sample_day3 "CA").
Proof.
  split; [reflexivity|].
  apply (@radar_calls_leave_results_unchanged sample sample_globals
           [(data sample_globals, "CA"); (sample_day3, "CA")] sample_day3 "CA").
  reflexivity.
Defined.

Lemma radar_click_selects_kpi_witness :
  dict_get (click_on "theta" (JStr "Danger Score")) "points"
  = Some (JList [JDict [("theta", JStr "Danger Score")]])
  /\ dict_get [("theta", JStr "Danger Score")] "theta"
     = Some (JStr "Danger Score")
  /\ dict_get dropdown_options "danger_score" = Some "Danger Score"
  /\ update_on_radar_click (Some (click_on "theta" (JStr "Danger Score")))
     = Return (Set_to "danger_score").
Proof.
  split; [reflexivity|]. split; [reflexivity|]. split; [reflexivity|].
  destruct radar_click_selects_kpi as (_ & _ & H).
  apply (H (click_on "theta" (JStr "Danger Score"))
           [("theta", JStr "Danger Score")] [] "danger_score" "Danger Score");
    reflexivity.
Defined.

Lemma map_click_selects_location_witness :
  dict_get (click_on "location" (JStr "TX")) "points"
  = Some (JList [JDict [("location", JStr "TX")]])
  /\ getitem (JDict [("location", JStr "TX")]) "location" = Return (JStr "TX")
  /\ update_selected_state (Some (click_on "location" (JStr "TX"))) (JStr "CA")
     = Return (JStr "TX").
Proof.
  split; [reflexivity|]. split; [reflexivity|].
  destruct map_click_selects_location as (H & _).
  apply (H (click_on "location" (JStr "TX"))
           (JDict [("location", JStr "TX")]) [] (JStr "TX") (JStr "CA"));
    reflexivity.
Defined.

Lemma treemap_click_selects_leaf_rows_witness :
  wf_frame sample_categorical = true
  /\ prepare_treemap_data sample_categorical "CA" "incident_rate"
     = Some sample_treemap
  /\ In sample_leaf sample_treemap
  /\ soc_key sample_leaf = ["A"; "B"]
  /\ "A" <> "" /\ "A" <> "US Market"
  /\ dict_get sample_leaf_click "points"
     = Some (JList [JDict [("label", JStr "B"); ("parent", JStr "A")]])
  /\ exists fd',
       treemap_selection sample_categorical sample_leaf_click
       = Some (Return fd')
       /\ Qcount (state_rows fd' "CA") = count sample_leaf.
Proof.
  assert (Hleaf : In sample_leaf sample_treemap)
    by (vm_compute; left; reflexivity).
  split; [reflexivity|]. split; [vm_compute; reflexivity|].
  split; [exact Hleaf|]. split; [vm_compute; reflexivity|].
  split; [discriminate|]. split; [discriminate|]. split; [reflexivity|].
  destruct (@treemap_click_selects_leaf_rows sample_categorical "CA"
              "incident_rate" sample_treemap sample_leaf sample_leaf_click
              [("label", JStr "B"); ("parent", JStr "A")] [] "A" "B")
    as (fd' & Hsel & _ & _ & Hcount);
    [reflexivity | vm_compute; reflexivity | exact Hleaf
     | vm_compute; reflexivity | discriminate | discriminate
     | reflexivity | reflexivity | reflexivity |].
  exists fd'. split; assumption.
Defined.


Lemma bar_click_toggles_witness :
  wf_frame (frame (data sample_globals)) = true
  /\ dict_get (click_on "y" (JStr "Death")) "points"
     = Some (JList [JDict [("y", JStr "Death")]])
  /\ getitem (JDict [("y", JStr "Death")]) "y" = Return (JStr "Death")
  /\ (same_selection (JStr "Death") (JStr "Death") = true
      <-> JStr "Death" = JStr "Death").
Proof.
  split; [reflexivity|]. split; [reflexivity|]. split; [reflexivity|].
  apply (@bar_click_toggles sample_globals (click_on "y" (JStr "Death"))
           (JDict [("y", JStr "Death")]) [] "Death" (JStr "Death")
           1 4 [] "CA");
    reflexivity.
Defined.


Lemma module_statistics_bounds_witness :
  load_module sample = Some sample_globals
  /\ wf_frame sample = true
  /\ rows sample <> []
  /\ all_finite_metrics (region_safety_score sample_globals) = true
  /\ In "danger_score" radar_metrics
  /\ exists qs lo hi mu,
       tcolumn (region_safety_score sample_globals) "danger_score"
       = Some (map Fin qs)
       /\ List.length qs
          = List.length (group_keys false sample [col_state_code])
       /\ dict_get (min_metric_values sample_globals) "danger_score"
          = Some (Fin lo)
       /\ dict_get (max_metric_values sample_globals) "danger_score"
          = Some (Fin hi)
       /\ dict_get (mean_metric_values sample_globals) "danger_score"
          = Some (Fin mu)
       /\ In lo qs /\ In hi qs
       /\ (forall q, In q qs -> lo <= q <= hi)
       /\ mu == Qsum qs / Qcount qs
       /\ lo <= mu <= hi.
Proof.
  split; [reflexivity|]. split; [reflexivity|]. split; [discriminate|].
  split; [reflexivity|]. split; [simpl; tauto|].
  apply (@module_statistics_bounds sample sample_globals "danger_score");
    [reflexivity | reflexivity | discriminate | reflexivity | simpl; tauto].
Defined.

Lemma guarded_rates_finite_nonneg_witness :
  (forall r, In r (rows sample) ->
             0 <= death r /\ 0 <= dafw_num_away r /\ 0 <= djtr_num_tr r)
  /\ Forall (fun kv => finite_nonneg (snd kv) = true)
            (compute_agg_fatality_rate sample (Some col_type_of_incident)).
Proof.
  assert (H : forall r, In r (rows sample) ->
                0 <= death r /\ 0 <= dafw_num_away r /\ 0 <= djtr_num_tr r).
  { intros r Hr. simpl in Hr.
    repeat destruct Hr as [<-|Hr]; try contradiction;
      repeat split; vm_compute; discriminate. }
  split; [exact H|].
  apply (@guarded_rates_finite_nonneg sample (Some col_type_of_incident) H).
Defined.
